(** * PyArchiver: the filter engine and the per-folder archive workflow

    A shallow embedding of [parse_size], [should_archive] and
    [archive_folder] of [main.py], and the properties of these functions.

    Conventions of the embedding:
    - Python [str] values are ASCII strings ([String.string]); the case and
      whitespace functions below are the ASCII restrictions of [str.upper],
      [str.lower], [str.strip] and [int].
    - Python [int] is [Z]; the three counters of [archive_folder] start at 0
      and are only incremented, they are [nat].
    - An exception is a value of [exn]; a call that may raise returns a
      [Result].
    - [datetime] values are microseconds since 0001-01-01T00:00:00, with the
      range checks of [datetime - timedelta] written out.  A time of
      [os.stat] is given by what [datetime.fromtimestamp] makes of it: the
      local datetime, or the exception that the conversion raises.
    - The elapsed time of an audit record ([duration_ms]) is wall-clock
      arithmetic on floats and is left out of [Event]. *)

From Stdlib Require Import ZArith String Ascii List Bool Lia.
From stdpp Require Import base option list gmap strings fin_maps.

Local Open Scope string_scope.
Local Open Scope Z_scope.

(** ** Exceptions and results *)

Inductive exn : Type :=
| ValueError        (* int() on text that is no integer *)
| OverflowError     (* timedelta / datetime arithmetic out of range *)
| OSError           (* os.stat, os.makedirs, shutil.move *)
| ReError.          (* re.error: the pattern does not compile *)

Inductive Result (A : Type) : Type :=
| Ok (a : A)
| Raise (e : exn).
Arguments Ok {A} a.
Arguments Raise {A} e.

(** Sequencing: an exception of the first call skips the rest. *)
Global Instance Result_bind : MBind Result := fun A B k r =>
  match r with
  | Ok a => k a
  | Raise e => Raise e
  end.

(** ** Text primitives (ASCII) *)

Module Text.

Definition code (c : ascii) : N := N_of_ascii c.

Definition in_range (lo hi : N) (c : ascii) : bool :=
  ((lo <=? code c) && (code c <=? hi))%N.

(** [str.isspace] on ASCII: TAB, LF, VT, FF, CR, FS, GS, RS, US, SPACE. *)
Definition is_space (c : ascii) : bool :=
  in_range 9 13 c || in_range 28 31 c || (code c =? 32)%N.

(** The whitespace [int] skips around an ASCII literal (C [isspace]). *)
Definition is_c_space (c : ascii) : bool :=
  in_range 9 13 c || (code c =? 32)%N.

Definition is_digit (c : ascii) : bool := in_range 48 57 c.

Definition digit_value (c : ascii) : Z := Z.of_N (code c) - 48.

Definition upper_char (c : ascii) : ascii :=
  if in_range 97 122 c then ascii_of_N (code c - 32) else c.

Definition lower_char (c : ascii) : ascii :=
  if in_range 65 90 c then ascii_of_N (code c + 32) else c.

Fixpoint upper (s : string) : string :=
  match s with
  | EmptyString => EmptyString
  | String c r => String (upper_char c) (upper r)
  end.

Fixpoint lower (s : string) : string :=
  match s with
  | EmptyString => EmptyString
  | String c r => String (lower_char c) (lower r)
  end.

Definition is_empty (s : string) : bool :=
  match s with
  | EmptyString => true
  | String _ _ => false
  end.

Fixpoint lstrip (s : string) : string :=
  match s with
  | EmptyString => EmptyString
  | String c r => if is_space c then lstrip r else s
  end.

Fixpoint rstrip (s : string) : string :=
  match s with
  | EmptyString => EmptyString
  | String c r =>
      let r' := rstrip r in
      if is_space c && is_empty r' then EmptyString else String c r'
  end.

(** [s.strip()] *)
Definition strip (s : string) : string := rstrip (lstrip s).

(** [s.endswith(suf)] *)
Definition endswith (s suf : string) : bool :=
  let n := String.length s in
  let m := String.length suf in
  (m <=? n)%nat && String.eqb (substring (n - m) m s) suf.

(** [s[:-k]] *)
Definition drop_last (k : nat) (s : string) : string :=
  substring 0 (String.length s - k) s.

(** [s.startswith(pre)] *)
Fixpoint startswith (s pre : string) {struct pre} : bool :=
  match pre with
  | EmptyString => true
  | String a pre' =>
      match s with
      | EmptyString => false
      | String b s' => Ascii.eqb a b && startswith s' pre'
      end
  end.

(** [needle in s] *)
Fixpoint contains (needle s : string) : bool :=
  startswith s needle ||
  match s with
  | EmptyString => false
  | String _ r => contains needle r
  end.

(** Index of the last occurrence of [c] in [s] ([s.rfind(c)]), if any. *)
Fixpoint rfind (c : ascii) (s : string) : option nat :=
  match s with
  | EmptyString => None
  | String d r =>
      match rfind c r with
      | Some i => Some (S i)
      | None => if Ascii.eqb c d then Some O else None
      end
  end.

Fixpoint all_chars (p : ascii -> bool) (s : string) : bool :=
  match s with
  | EmptyString => true
  | String c r => p c && all_chars p r
  end.

End Text.

(** ** [int(text)] in base 10

    Optional whitespace, an optional sign, decimal digits that single
    underscores may separate, optional whitespace. The interpreter's limit on
    the number of digits ([sys.set_int_max_str_digits]) is a configuration
    of the interpreter and is not modelled. *)

Inductive IntScan := AtStart | AfterDigit | AfterUnderscore.

Fixpoint int_body (s : string) (acc : Z) (st : IntScan) : option Z :=
  match s with
  | EmptyString =>
      match st with AfterDigit => Some acc | _ => None end
  | String c r =>
      if Text.is_digit c then
        int_body r (10 * acc + Text.digit_value c) AfterDigit
      else if Ascii.eqb c "_" then
        match st with
        | AfterDigit => int_body r acc AfterUnderscore
        | _ => None
        end
      else if Text.is_c_space c then
        match st with
        | AfterDigit => if Text.all_chars Text.is_c_space r then Some acc else None
        | _ => None
        end
      else None
  end.

Fixpoint skip_c_space (s : string) : string :=
  match s with
  | EmptyString => EmptyString
  | String c r => if Text.is_c_space c then skip_c_space r else s
  end.

Definition int_of_text (s : string) : option Z :=
  match skip_c_space s with
  | String "+" r => int_body r 0 AtStart
  | String "-" r => option_map Z.opp (int_body r 0 AtStart)
  | t => int_body t 0 AtStart
  end.

(** [int(s)]: [ValueError] when the text is no integer literal. *)
Definition py_int (s : string) : Result Z :=
  match int_of_text s with
  | Some n => Ok n
  | None => Raise ValueError
  end.

(** ** [parse_size] (main.py, lines 178-190) *)

Definition parse_size (size_str : string) : Result Z :=
  if Text.is_empty size_str then Ok 0
  else
    let size_str := Text.strip (Text.upper size_str) in
    if Text.endswith size_str "KB" then
      n ← py_int (Text.drop_last 2 size_str); Ok (n * 1024)
    else if Text.endswith size_str "MB" then
      n ← py_int (Text.drop_last 2 size_str); Ok (n * 1024 * 1024)
    else if Text.endswith size_str "GB" then
      n ← py_int (Text.drop_last 2 size_str); Ok (n * 1024 * 1024 * 1024)
    else py_int size_str.

(** ** Paths ([posixpath]) *)

Definition starts_with_sep (s : string) : bool :=
  match s with
  | String "/" _ => true
  | _ => false
  end.

(** [os.path.join(a, b)] *)
Definition os_path_join (a b : string) : string :=
  if starts_with_sep b then b
  else if Text.is_empty a || Text.endswith a "/" then a +:+ b
  else a +:+ "/" +:+ b.

(** Index just after the last separator of [p] ([p.rfind('/') + 1]). *)
Definition after_last_sep (p : string) : nat :=
  match Text.rfind "/" p with
  | Some i => S i
  | None => O
  end.

(** [os.path.basename(p)] *)
Definition os_path_basename (p : string) : string :=
  let i := after_last_sep p in
  substring i (String.length p - i) p.

(** [os.path.splitext(p)[1]]: from the last dot of the last component, when
    some character before that dot in the component is not a dot. *)
Definition splitext_ext (p : string) : string :=
  match Text.rfind "." p with
  | None => ""
  | Some dot =>
      let start := after_last_sep p in
      if (start <=? dot)%nat then
        if Text.all_chars (Ascii.eqb ".") (substring start (dot - start) p)
        then ""
        else substring dot (String.length p - dot) p
      else ""
  end.

(** ** Dates *)

Definition us_per_day : Z := 86400000000.

(** [datetime.max] is 9999-12-31T23:59:59.999999, day 3652059 of the
    calendar. *)
Definition max_datetime : Z := 3652059 * us_per_day - 1.

Definition valid_datetime (t : Z) : Prop := 0 <= t <= max_datetime.

(** [timedelta(days=d)], in microseconds. *)
Definition timedelta_days (d : Z) : Result Z :=
  if Z.abs d <=? 999999999 then Ok (d * us_per_day) else Raise OverflowError.

(** [t - delta] on a [datetime]. *)
Definition datetime_sub (t delta : Z) : Result Z :=
  let r := t - delta in
  if (0 <=? r) && (r <=? max_datetime) then Ok r else Raise OverflowError.

(** ** Data model *)

(** What [os.stat] gives for a file. Each of the two times stands for the
    outcome of its conversion to a local datetime: the datetime, or the
    exception raised for a time that is out of the range of [datetime] or
    of the platform. [st_ctime] is the time of creation on Windows and the
    time of the last change of the inode on POSIX. *)
Record Stat := {
  st_size : Z;
  st_mtime : Result Z;
  st_ctime : Result Z
}.

(** [datetime.fromtimestamp(t)]: what the conversion gives depends on the
    platform and on the time zone, and a time of [Stat] carries it. *)
Definition fromtimestamp (t : Result Z) : Result Z := t.

(** The times of the life of a file: when it was created, when its content
    was last written, and when its inode last changed (a write, a chmod, a
    rename). *)
Record Times := {
  created_at : Z;
  written_at : Z;
  changed_at : Z
}.

(** [os.stat] on POSIX for a file of [size] bytes: [st_ctime] is the time of
    the last change of the inode, and the time of creation is not
    reported. *)
Definition posix_stat (size : Z) (t : Times) : Stat :=
  {| st_size := size; st_mtime := Ok (written_at t);
     st_ctime := Ok (changed_at t) |}.

(** [os.stat] on Windows: [st_ctime] is the time of creation. *)
Definition windows_stat (size : Z) (t : Times) : Stat :=
  {| st_size := size; st_mtime := Ok (written_at t);
     st_ctime := Ok (created_at t) |}.

(** The [filters] dictionary: a key that is absent is [None]. *)
Record Filters := {
  extensions : option (list string);
  size_limit : option string;
  min_size : option string;
  modified_days : option Z;
  created_days : option Z;
  regex : option string;
  exclude : option (list string)
}.

Definition no_filters : Filters :=
  {| extensions := None; size_limit := None; min_size := None;
     modified_days := None; created_days := None; regex := None;
     exclude := None |}.

Inductive Action :=
| FOLDER_START | FOLDER_CREATE | FILTER_CHECK | FILE_MOVE | FOLDER_ERROR
| FOLDER_COMPLETE.

Inductive Status := STARTED | SUCCESS | SKIPPED | FAILED | ERROR | COMPLETED.

(** The free-text message of an audit record, one constructor per format
    string of the source, with the interpolated values. *)
Inductive Message :=
| MsgExtension (file_ext : string)      (* extension not in the allowed list *)
| MsgOverLimit (limit : string)         (* larger than size_limit *)
| MsgUnderLimit (limit : string)        (* smaller than min_size *)
| MsgModifiedWithin (days : Z)          (* modified in the last [days] days *)
| MsgCreatedWithin (days : Z)           (* created in the last [days] days *)
| MsgRegex (pattern : string)           (* regex does not match *)
| MsgExcluded (pattern : string)        (* exclude pattern matches *)
| MsgCheckFailed (e : exn)              (* filter check failed: str(e) *)
| MsgFolderStart
| MsgFolderMissing
| MsgArchiveDirCreated
| MsgArchiveDirFailed (e : exn)
| MsgArchived (archive_path : string)
| MsgMoveFailed (e : exn)
| MsgSummary (processed skipped failed : nat).

(** One call of [audit_logger.log]. *)
Record Event := {
  ev_action : Action;
  ev_target : string;
  ev_status : Status;
  ev_message : Message
}.

(** One call on the application [logger]. *)
Inductive LogLine :=
| LogFolderMissing (source_path : string)          (* error *)
| LogArchiveDirFailed (e : exn)                    (* error *)
| LogDryRun (filename : string)                    (* info *)
| LogArchived (filename : string)                  (* debug *)
| LogFileFailed (filename : string) (e : exn)      (* error *)
| LogFolderDone (source_path : string) (processed skipped failed : nat).

(** What the environment answers while one file is processed: the result of
    [os.stat], the two readings of [datetime.now()], whether [shutil.move]
    raises and, when it does, whether its fallback (copy, then unlink) had
    already written the copy into the archive directory. *)
Record FileInfo := {
  f_stat : Result Stat;
  f_now_modified : Z;
  f_now_created : Z;
  f_move : option exn;
  f_move_leaves_copy : bool
}.

(** A direct child of the source folder. A directory keeps the files that
    were moved into it. *)
Inductive Node :=
| File (info : FileInfo)
| Dir (files : gmap string FileInfo)
| Special.

Definition is_file (n : option Node) : bool :=
  match n with
  | Some (File _) => true
  | _ => false
  end.

(** ** The flow of [should_archive]: go on to the next check, return
    [False] with a SKIPPED record, or raise. *)

Inductive Eval (A : Type) : Type :=
| Next (a : A)
| Reject (m : Message)
| Raised (e : exn).
Arguments Next {A} a.
Arguments Reject {A} m.
Arguments Raised {A} e.

Global Instance Eval_bind : MBind Eval := fun A B k r =>
  match r with
  | Next a => k a
  | Reject m => Reject m
  | Raised e => Raised e
  end.

Definition call {A : Type} (r : Result A) : Eval A :=
  match r with
  | Ok a => Next a
  | Raise e => Raised e
  end.

(** [if cond: audit_logger.log(..., "SKIPPED", ..., m); return False] *)
Definition reject_if (cond : bool) (m : Message) : Eval unit :=
  if cond then Reject m else Next tt.

Section Archiver.

(** [re.search(pattern, text)]: whether a match is found; [re.error] when
    the pattern does not compile. The regular-expression engine is a
    parameter of the development. *)
Variable re_search : string -> string -> Result bool.

(** ** [should_archive] (main.py, lines 193-265) *)

Definition should_archive_checks
    (filepath : string) (info : FileInfo) (filters : Filters) : Eval unit :=
  stat ← call (f_stat info);
  let filename := os_path_basename filepath in
  _ ← match extensions filters with
      | Some exts =>
          let file_ext := Text.lower (splitext_ext filepath) in
          let allowed_ext := map Text.lower exts in
          reject_if (Text.is_empty file_ext
                     || negb (bool_decide (file_ext ∈ allowed_ext)))
                    (MsgExtension file_ext)
      | None => Next tt
      end;
  _ ← match size_limit filters with
      | Some limit =>
          n ← call (parse_size limit);
          reject_if (st_size stat >? n) (MsgOverLimit limit)
      | None => Next tt
      end;
  _ ← match min_size filters with
      | Some limit =>
          n ← call (parse_size limit);
          reject_if (st_size stat <? n) (MsgUnderLimit limit)
      | None => Next tt
      end;
  mod_time ← call (fromtimestamp (st_mtime stat));
  create_time ← call (fromtimestamp (st_ctime stat));
  _ ← match modified_days filters with
      | Some days =>
          delta ← call (timedelta_days days);
          cutoff ← call (datetime_sub (f_now_modified info) delta);
          reject_if (mod_time >? cutoff) (MsgModifiedWithin days)
      | None => Next tt
      end;
  _ ← match created_days filters with
      | Some days =>
          delta ← call (timedelta_days days);
          cutoff ← call (datetime_sub (f_now_created info) delta);
          reject_if (create_time >? cutoff) (MsgCreatedWithin days)
      | None => Next tt
      end;
  _ ← match regex filters with
      | Some pattern =>
          found ← call (re_search pattern filename);
          reject_if (negb found) (MsgRegex pattern)
      | None => Next tt
      end;
  match exclude filters with
  | Some patterns =>
      match List.find (fun pattern => Text.contains pattern filename) patterns with
      | Some pattern => Reject (MsgExcluded pattern)
      | None => Next tt
      end
  | None => Next tt
  end.

Definition filter_event (filepath : string) (st : Status) (m : Message) : Event :=
  {| ev_action := FILTER_CHECK; ev_target := filepath; ev_status := st;
     ev_message := m |}.

(** The value returned and the audit records emitted. *)
Definition should_archive
    (filepath : string) (info : FileInfo) (filters : Filters)
    : bool * list Event :=
  match should_archive_checks filepath info filters with
  | Next _ => (true, [])
  | Reject m => (false, [filter_event filepath SKIPPED m])
  | Raised e => (false, [filter_event filepath ERROR (MsgCheckFailed e)])
  end.

(** ** [archive_folder] (main.py, lines 268-327) *)

(** [config.args.dry_run] and [config.filters] *)
Record Config := {
  dry_run : bool;
  filters : Filters
}.

(** The local variables of the loop, the two logs and the source folder
    (its direct children by name). *)
Record LoopState := {
  processed : nat;
  skipped : nat;
  failed : nat;
  audit : list Event;
  applog : list LogLine;
  folder : gmap string Node
}.

(** [shutil.move(filepath, os.path.join(archive_path, filename))]: the
    exception raised, if any, and the folder afterwards. A move that
    succeeds takes the file out of the source folder and puts it into the
    archive directory under its own name. A move that raises leaves the
    entry of the file in the folder; the copy of the fallback (copy, then
    unlink) may by then be in the archive directory. The folder is changed
    by the program only: a file that something else removes during the
    run is a file whose [os.stat] or whose move raises. *)
Definition shutil_move (filename archive_name : string) (info : FileInfo)
    (fs : gmap string Node) : option exn * gmap string Node :=
  match f_move info with
  | Some e =>
      (Some e,
       match fs !! archive_name with
       | Some (Dir files) =>
           if f_move_leaves_copy info
           then <[archive_name := Dir (<[filename := info]> files)]> fs
           else fs
       | _ => fs
       end)
  | None =>
      match fs !! archive_name with
      | Some (Dir files) =>
          (None,
           <[archive_name := Dir (<[filename := info]> files)]>
             (delete filename fs))
      | _ => (Some OSError, fs)
      end
  end.

Definition move_event (filepath : string) (st : Status) (m : Message) : Event :=
  {| ev_action := FILE_MOVE; ev_target := filepath; ev_status := st;
     ev_message := m |}.

(** The body of the [for] loop for one name of the listing. *)
Definition process_entry (source_path archive_name : string) (config : Config)
    (filename : string) (s : LoopState) : LoopState :=
  let filepath := os_path_join source_path filename in
  let archive_path := os_path_join source_path archive_name in
  match folder s !! filename with
  | Some (File info) =>
      if dry_run config then
        {| processed := S (processed s); skipped := skipped s;
           failed := failed s; audit := audit s;
           applog := applog s ++ [LogDryRun filename];
           folder := folder s |}
      else
        let '(accepted, events) := should_archive filepath info (filters config) in
        if accepted then
          match shutil_move filename archive_name info (folder s) with
          | (None, fs') =>
              {| processed := S (processed s); skipped := skipped s;
                 failed := failed s;
                 audit := audit s ++ events
                          ++ [move_event filepath SUCCESS (MsgArchived archive_path)];
                 applog := applog s ++ [LogArchived filename];
                 folder := fs' |}
          | (Some e, fs') =>
              {| processed := processed s; skipped := skipped s;
                 failed := S (failed s);
                 audit := audit s ++ events
                          ++ [move_event filepath FAILED (MsgMoveFailed e)];
                 applog := applog s ++ [LogFileFailed filename e];
                 folder := fs' |}
          end
        else
          {| processed := processed s; skipped := S (skipped s);
             failed := failed s; audit := audit s ++ events;
             applog := applog s; folder := folder s |}
  | _ => s
  end.

(** [for filename in os.listdir(source_path): ...] *)
Fixpoint archive_loop (source_path archive_name : string) (config : Config)
    (listing : list string) (s : LoopState) : LoopState :=
  match listing with
  | [] => s
  | filename :: rest =>
      archive_loop source_path archive_name config rest
        (process_entry source_path archive_name config filename s)
  end.

(** [os.listdir] of the source folder, taken to succeed: the names of the
    direct children, in the order of the map (the platform's order is
    unspecified). *)
Definition os_listdir (fs : gmap string Node) : list string :=
  (map_to_list fs).*1.

(** [os.makedirs(archive_path, exist_ok=True)] inside an existing source
    folder: an existing directory of that name is reused. *)
Definition os_makedirs (archive_name : string) (denied : option exn)
    (fs : gmap string Node) : Result (gmap string Node) :=
  match denied with
  | Some e => Raise e
  | None =>
      match fs !! archive_name with
      | None => Ok (<[archive_name := Dir ∅]> fs)
      | Some (Dir _) => Ok fs
      | Some _ => Raise OSError
      end
  end.

(** The environment of one call of [archive_folder]. *)
Record World := {
  w_source : option (gmap string Node);  (* [None]: the path does not exist *)
  w_timestamp : string;                  (* datetime.now().strftime(...) *)
  w_makedirs_denied : option exn         (* os.makedirs raises *)
}.

(** The value returned, the counters at the [return] of a run that reached
    the loop, the two logs and the source folder afterwards. *)
Record FolderRun := {
  run_success : bool;
  run_counters : option (nat * nat * nat);
  run_audit : list Event;
  run_applog : list LogLine;
  run_source : option (gmap string Node)
}.

Definition folder_event (a : Action) (target : string) (st : Status)
    (m : Message) : Event :=
  {| ev_action := a; ev_target := target; ev_status := st; ev_message := m |}.

(** The state at the head of the loop: the counters at 0, the two records
    logged so far, the folder with its archive directory. *)
Definition initial_state (source_path archive_path : string)
    (fs1 : gmap string Node) : LoopState :=
  {| processed := 0; skipped := 0; failed := 0;
     audit := [folder_event FOLDER_START source_path STARTED MsgFolderStart;
               folder_event FOLDER_CREATE archive_path SUCCESS
                 MsgArchiveDirCreated];
     applog := []; folder := fs1 |}.

Definition archive_folder (source_path : string) (config : Config) (w : World)
    : FolderRun :=
  let started := [folder_event FOLDER_START source_path STARTED MsgFolderStart] in
  match w_source w with
  | None =>
      {| run_success := false; run_counters := None;
         run_audit := started
           ++ [folder_event FOLDER_ERROR source_path FAILED MsgFolderMissing];
         run_applog := [LogFolderMissing source_path];
         run_source := None |}
  | Some fs =>
      let archive_name := w_timestamp w in
      let archive_path := os_path_join source_path archive_name in
      match os_makedirs archive_name (w_makedirs_denied w) fs with
      | Raise e =>
          {| run_success := false; run_counters := None;
             run_audit := started
               ++ [folder_event FOLDER_CREATE archive_path FAILED
                     (MsgArchiveDirFailed e)];
             run_applog := [LogArchiveDirFailed e];
             run_source := Some fs |}
      | Ok fs1 =>
          let s := archive_loop source_path archive_name config
                     (os_listdir fs1)
                     (initial_state source_path archive_path fs1) in
          {| run_success := (0 <? processed s)%nat || (failed s =? 0)%nat;
             run_counters := Some (processed s, skipped s, failed s);
             run_audit := audit s
               ++ [folder_event FOLDER_COMPLETE source_path COMPLETED
                     (MsgSummary (processed s) (skipped s) (failed s))];
             run_applog := applog s
               ++ [LogFolderDone source_path (processed s) (skipped s) (failed s)];
             run_source := Some (folder s) |}
      end
  end.

End Archiver.

(** ** The size parser as the specification words it

    Trim, upper-case, look the suffix up in a table of powers of 1024, read
    the remaining text as an integer. *)

Module SizeParserSpec.

Definition suffixes : list (string * Z) := [("KB", 1); ("MB", 2); ("GB", 3)].

(** The remaining text and the exponent of 1024 of a normalised input. *)
Definition split_suffix (t : string) : string * Z :=
  match List.find (fun entry => Text.endswith t (fst entry)) suffixes with
  | Some (suffix, k) => (Text.drop_last (String.length suffix) t, k)
  | None => (t, 0)
  end.

Definition normalise (input : string) : string :=
  Text.upper (Text.strip input).

Definition remaining_text (input : string) : string :=
  fst (split_suffix (normalise input)).

Definition parse (input : string) : Result Z :=
  if Text.is_empty input then Ok 0
  else
    let '(rest, k) := split_suffix (normalise input) in
    n ← py_int rest; Ok (n * 1024 ^ k).

End SizeParserSpec.

(** ** Sizes as a user writes them: decimal digits and a suffix in any
    case *)

(** The character of a decimal digit. *)
Definition digit_char (d : nat) : ascii := ascii_of_nat (48 + d).

(** The text of a list of decimal digits, most significant first. *)
Fixpoint digits_text (ds : list nat) : string :=
  match ds with
  | [] => EmptyString
  | d :: rest => String (digit_char d) (digits_text rest)
  end.

(** The number that the digits [ds] denote after the digits that gave
    [acc]. *)
Fixpoint digits_from (acc : Z) (ds : list nat) : Z :=
  match ds with
  | [] => acc
  | d :: rest => digits_from (10 * acc + Z.of_nat d) rest
  end.

Definition digits_value (ds : list nat) : Z := digits_from 0 ds.

(** The spellings of the suffixes, each with its power of 1024. *)
Definition suffix_spellings : list (string * Z) :=
  [("", 0);
   ("KB", 1); ("Kb", 1); ("kB", 1); ("kb", 1);
   ("MB", 2); ("Mb", 2); ("mB", 2); ("mb", 2);
   ("GB", 3); ("Gb", 3); ("gB", 3); ("gb", 3)].

(** ** The constraints of a filter set, one at a time *)

Inductive Constraint :=
| ByExtension | ByMaxSize | ByMinSize | ByModified | ByCreated
| ByNamePattern | ByExclude.

Definition evaluation_order : list Constraint :=
  [ByExtension; ByMaxSize; ByMinSize; ByModified; ByCreated; ByNamePattern;
   ByExclude].

(** The cutoff of a recency constraint: [now - timedelta(days)]. *)
Definition cutoff (now days : Z) : Result Z :=
  delta ← timedelta_days days; datetime_sub now delta.

Section Constraints.

Variable re_search : string -> string -> Result bool.

(** The outcome of one constraint checked on its own: [Next tt] when it is
    absent or holds, [Reject reason] when it is violated, [Raised e] when
    checking it fails. *)
Definition check_alone (c : Constraint) (filepath : string) (stat : Stat)
    (info : FileInfo) (fl : Filters) : Eval unit :=
  match c with
  | ByExtension =>
      match extensions fl with
      | None => Next tt
      | Some exts =>
          let ext := Text.lower (splitext_ext filepath) in
          if Text.is_empty ext then Reject (MsgExtension ext)
          else if bool_decide (ext ∈ map Text.lower exts) then Next tt
          else Reject (MsgExtension ext)
      end
  | ByMaxSize =>
      match size_limit fl with
      | None => Next tt
      | Some limit =>
          match parse_size limit with
          | Raise e => Raised e
          | Ok n => if bool_decide (st_size stat > n)
                    then Reject (MsgOverLimit limit) else Next tt
          end
      end
  | ByMinSize =>
      match min_size fl with
      | None => Next tt
      | Some limit =>
          match parse_size limit with
          | Raise e => Raised e
          | Ok n => if bool_decide (st_size stat < n)
                    then Reject (MsgUnderLimit limit) else Next tt
          end
      end
  | ByModified =>
      match modified_days fl with
      | None => Next tt
      | Some days =>
          match fromtimestamp (st_mtime stat) with
          | Raise e => Raised e
          | Ok mod_time =>
              match cutoff (f_now_modified info) days with
              | Raise e => Raised e
              | Ok t => if bool_decide (mod_time > t)
                        then Reject (MsgModifiedWithin days) else Next tt
              end
          end
      end
  | ByCreated =>
      match created_days fl with
      | None => Next tt
      | Some days =>
          match fromtimestamp (st_ctime stat) with
          | Raise e => Raised e
          | Ok create_time =>
              match cutoff (f_now_created info) days with
              | Raise e => Raised e
              | Ok t => if bool_decide (create_time > t)
                        then Reject (MsgCreatedWithin days) else Next tt
              end
          end
      end
  | ByNamePattern =>
      match regex fl with
      | None => Next tt
      | Some pattern =>
          match re_search pattern (os_path_basename filepath) with
          | Raise e => Raised e
          | Ok true => Next tt
          | Ok false => Reject (MsgRegex pattern)
          end
      end
  | ByExclude =>
      match exclude fl with
      | None => Next tt
      | Some patterns =>
          match List.find (fun p => Text.contains p (os_path_basename filepath))
                  patterns with
          | Some p => Reject (MsgExcluded p)
          | None => Next tt
          end
      end
  end.

(** The first outcome of a list of constraints that is not a pass. *)
Fixpoint first_failure (cs : list Constraint) (filepath : string)
    (stat : Stat) (info : FileInfo) (fl : Filters) : Eval unit :=
  match cs with
  | [] => Next tt
  | c :: rest =>
      match check_alone c filepath stat info fl with
      | Next _ => first_failure rest filepath stat info fl
      | Reject m => Reject m
      | Raised e => Raised e
      end
  end.

(** The checks in the order of the source: the extension and the two
    sizes, then the conversion of the two times of the file, which is made
    whether or not a recency constraint is configured, then the rest. *)
Definition checks_in_order (filepath : string) (stat : Stat)
    (info : FileInfo) (fl : Filters) : Eval unit :=
  _ ← check_alone ByExtension filepath stat info fl;
  _ ← check_alone ByMaxSize filepath stat info fl;
  _ ← check_alone ByMinSize filepath stat info fl;
  _ ← call (fromtimestamp (st_mtime stat));
  _ ← call (fromtimestamp (st_ctime stat));
  first_failure [ByModified; ByCreated; ByNamePattern; ByExclude]
    filepath stat info fl.

(** The number of regular files of a folder that the filters admit. *)
Definition accepted_files (source_path : string) (fl : Filters)
    (fs : gmap string Node) : nat :=
  length (List.filter
    (fun entry : string * Node =>
       match snd entry with
       | File info =>
           fst (should_archive re_search
                  (os_path_join source_path (fst entry)) info fl)
       | _ => false
       end)
    (map_to_list fs)).

End Constraints.

(** The number of regular files among the direct children of a folder. *)
Definition regular_files (fs : gmap string Node) : nat :=
  length (List.filter (fun entry : string * Node => is_file (Some (snd entry)))
            (map_to_list fs)).

(** Filter sets with one constraint fewer. *)
Definition without_modified (fl : Filters) : Filters :=
  {| extensions := extensions fl; size_limit := size_limit fl;
     min_size := min_size fl; modified_days := None;
     created_days := created_days fl; regex := regex fl;
     exclude := exclude fl |}.

Definition without_created (fl : Filters) : Filters :=
  {| extensions := extensions fl; size_limit := size_limit fl;
     min_size := min_size fl; modified_days := modified_days fl;
     created_days := None; regex := regex fl; exclude := exclude fl |}.

Definition counters (s : LoopState) : nat * nat * nat :=
  (processed s, skipped s, failed s).


(** The filter set whose only constraint is [modified_days]. *)
Definition modified_only (days : Z) : Filters :=
  {| extensions := None; size_limit := None; min_size := None;
     modified_days := Some days; created_days := None; regex := None;
     exclude := None |}.

(** The filter set whose only constraint is [created_days]. *)
Definition created_only (days : Z) : Filters :=
  {| extensions := None; size_limit := None; min_size := None;
     modified_days := None; created_days := Some days; regex := None;
     exclude := None |}.

Definition us_per_hour : Z := 3600000000.

(** The number of files counted so far. *)
Definition total (s : LoopState) : nat :=
  (processed s + skipped s + failed s)%nat.

(** How many of the listed names are regular files of the folder. *)
Definition files_in (fs : gmap string Node) (names : list string) : nat :=
  length (List.filter (fun name => is_file (fs !! name)) names).

(** ** Sample inputs: a downloads folder with five regular files and one
    subdirectory *)

Module Sample.

(** A regular-expression engine that finds a match in every name. *)
Definition re_any : string -> string -> Result bool := fun _ _ => Ok true.

(** The clock of the run, some day of the year 2024. *)
Definition now : Z := 739000 * us_per_day.

(** What [os.stat] gives for a file of [size] bytes, written [age]
    microseconds ago and not touched since. *)
Definition stat (size age : Z) : Stat :=
  posix_stat size {| created_at := now - age; written_at := now - age;
                     changed_at := now - age |}.

(** A readable, movable file of [size] bytes, modified and created [age]
    microseconds ago. *)
Definition info (size age : Z) : FileInfo :=
  {| f_stat := Ok (stat size age);
     f_now_modified := now; f_now_created := now; f_move := None;
     f_move_leaves_copy := false |}.

(** A file created and written ten days ago whose permissions were changed
    one hour ago. *)
Definition touched_times : Times :=
  {| created_at := now - 10 * us_per_day; written_at := now - 10 * us_per_day;
     changed_at := now - us_per_hour |}.

(** That file as POSIX reports it. *)
Definition touched : FileInfo :=
  {| f_stat := Ok (posix_stat 1 touched_times);
     f_now_modified := now; f_now_created := now; f_move := None;
     f_move_leaves_copy := false |}.

(** That file as Windows reports it. *)
Definition touched_on_windows : FileInfo :=
  {| f_stat := Ok (windows_stat 1 touched_times);
     f_now_modified := now; f_now_created := now; f_move := None;
     f_move_leaves_copy := false |}.

(** A file whose metadata cannot be read. *)
Definition vanished : FileInfo :=
  {| f_stat := Raise OSError; f_now_modified := now; f_now_created := now;
     f_move := None; f_move_leaves_copy := false |}.

(** A file that cannot be removed from the source folder: the move copies
    it into the archive directory and raises on the unlink. *)
Definition locked : FileInfo :=
  {| f_stat := Ok (stat 7 (10 * us_per_day));
     f_now_modified := now; f_now_created := now; f_move := Some OSError;
     f_move_leaves_copy := true |}.

(** A file whose modification time is beyond the year 9999. *)
Definition far_future : FileInfo :=
  {| f_stat := Ok {| st_size := 1; st_mtime := Raise ValueError;
                     st_ctime := Ok (now - 10 * us_per_day) |};
     f_now_modified := now; f_now_created := now; f_move := None;
     f_move_leaves_copy := false |}.

Definition ten_days : Z := 10 * us_per_day.

Definition downloads : gmap string Node :=
  <["a.txt" := File (info 1 ten_days)]>
    (<["b.txt" := File (info 2 ten_days)]>
       (<["c.TXT" := File (info 3 ten_days)]>
          (<["d.csv" := File (info 4 ten_days)]>
             (<["e" := File (info 5 ten_days)]>
                (<["old" := Dir ∅]> ∅))))).

Definition timestamp : string := "2024-05-01_12-00-00".

Definition world : World :=
  {| w_source := Some downloads; w_timestamp := timestamp;
     w_makedirs_denied := None |}.

(** Only text files: admits three of the five files. *)
Definition txt_only : Filters :=
  {| extensions := Some [".txt"]; size_limit := None; min_size := None;
     modified_days := None; created_days := None; regex := None;
     exclude := None |}.

(** No file of the folder has this extension. *)
Definition pdf_only : Filters :=
  {| extensions := Some [".pdf"]; size_limit := None; min_size := None;
     modified_days := None; created_days := None; regex := None;
     exclude := None |}.

(** A malformed maximum size. *)
Definition bad_limit : Filters :=
  {| extensions := None; size_limit := Some "10XB"; min_size := None;
     modified_days := None; created_days := None; regex := None;
     exclude := None |}.

(** Every kind of constraint at once. *)
Definition strict : Filters :=
  {| extensions := Some [".txt"]; size_limit := Some "1KB";
     min_size := Some "10"; modified_days := Some 7; created_days := Some 7;
     regex := Some "^a"; exclude := Some ["a"; "txt"] |}.

(** A folder with an archive directory, a file that cannot be moved and
    two that can. [os.listdir] gives [a.txt], the archive directory,
    [busy.txt], [b.txt]. *)
Definition guarded : gmap string Node :=
  <["a.txt" := File (info 1 ten_days)]>
    (<["busy.txt" := File locked]>
       (<["b.txt" := File (info 2 ten_days)]> (<[timestamp := Dir ∅]> ∅))).

Definition guarded_world : World :=
  {| w_source := Some guarded; w_timestamp := timestamp;
     w_makedirs_denied := None |}.

(** The folder after the failed move of [busy.txt]: [a.txt] is archived,
    [busy.txt] is still there, and its copy is in the archive directory. *)
Definition guarded_copied : gmap string Node :=
  <[timestamp := Dir (<["busy.txt" := locked]>
                        (<["a.txt" := info 1 ten_days]> ∅))]>
    (delete "a.txt" guarded).

End Sample.

(** ** Configuration ([ArchiveConfig], main.py, lines 82-132) *)

(** [s.split(sep)] for a one-character separator: the pieces between the
    separators, empty pieces kept. *)
Fixpoint split_on (sep : ascii) (s : string) : list string :=
  match s with
  | EmptyString => [EmptyString]
  | String c r =>
      if Ascii.eqb c sep then EmptyString :: split_on sep r
      else
        match split_on sep r with
        | piece :: pieces => String c piece :: pieces
        | [] => [String c EmptyString]
        end
  end.

(** The namespace that [parse_arguments] returns: an option that was not
    given is [None]. *)
Record Args := {
  a_folders : list string;
  a_no_config : bool;
  a_extensions : option string;
  a_size_limit : option string;
  a_min_size : option string;
  a_modified_days : option Z;
  a_created_days : option Z;
  a_regex : option string;
  a_exclude : option string;
  a_strict : bool;
  a_dry_run : bool
}.

(** The settings file once loaded: its [default_filters] object and, for
    each entry of its [folders] list, the [path] of the entry if it has
    one. *)
Record Settings := {
  default_filters : option Filters;
  settings_folders : option (list (option string))
}.

(** [_load_settings]: [on_disk] is what reading the file gives, [None] when
    the file is missing or cannot be read. *)
Definition load_settings (args : Args) (on_disk : option Settings)
    : option Settings :=
  if a_no_config args then None else on_disk.

(** [if value:] on an optional string: given and not empty. *)
Definition given_text (o : option string) : option string :=
  match o with
  | Some s => if Text.is_empty s then None else Some s
  | None => None
  end.

(** [if value:] on an optional integer: given and not zero. *)
Definition given_int (o : option Z) : option Z :=
  match o with
  | Some n => if n =? 0 then None else Some n
  | None => None
  end.

(** [filters[key] = value] when the command line gives a value. *)
Definition override {A : Type} (from_args from_settings : option A) : option A :=
  match from_args with
  | Some v => Some v
  | None => from_settings
  end.

(** [_build_filters] *)
Definition build_filters (args : Args) (settings : option Settings) : Filters :=
  let base :=
    match settings with
    | Some st =>
        match default_filters st with
        | Some defaults => defaults
        | None => no_filters
        end
    | None => no_filters
    end in
  {| extensions :=
       override
         (option_map
            (fun text => map (fun ext => Text.strip (Text.lower ext))
                           (split_on "," text))
            (given_text (a_extensions args)))
         (extensions base);
     size_limit := override (given_text (a_size_limit args)) (size_limit base);
     min_size := override (given_text (a_min_size args)) (min_size base);
     modified_days :=
       override (given_int (a_modified_days args)) (modified_days base);
     created_days :=
       override (given_int (a_created_days args)) (created_days base);
     regex := override (given_text (a_regex args)) (regex base);
     exclude :=
       override
         (option_map (fun text => map Text.strip (split_on "," text))
            (given_text (a_exclude args)))
         (exclude base) |}.

(** [ArchiveConfig(args)], as far as [archive_folder] reads it. *)
Definition archive_config (args : Args) (on_disk : option Settings) : Config :=
  {| dry_run := a_dry_run args;
     filters := build_filters args (load_settings args on_disk) |}.

(** ** [main] (main.py, lines 361-395) *)

(** The folders of the settings file that have a path, then the folders of
    the command line. *)
Definition folders_to_process (args : Args) (settings : option Settings)
    : list string :=
  (if a_no_config args then []
   else
     match settings with
     | Some st =>
         match settings_folders st with
         | Some entries => omap id entries
         | None => []
         end
     | None => []
     end)
  ++ a_folders args.

(** The lines [main] and the folder runs write to the application log. *)
Inductive MainLog :=
| LogNoFolders                                   (* error *)
| LogFromFolder (line : LogLine)
| LogStrictStop (folder_path : string)           (* error, strict mode *)
| LogRunDone (succeeded total_folders : nat).    (* info *)

Record MainState := {
  success_count : nat;
  main_audit : list Event;
  main_applog : list MainLog
}.

Section Main.

Variable re_search : string -> string -> Result bool.

(** The [for] loop over the folders. [world_at i] is the environment that
    the call of [archive_folder] number [i] finds. The first component is
    [true] when the loop was left by [return 1]. *)
Fixpoint main_loop (strict : bool) (config : Config) (world_at : nat -> World)
    (i : nat) (folder_paths : list string) (st : MainState)
    : bool * MainState :=
  match folder_paths with
  | [] => (false, st)
  | folder_path :: rest =>
      let run := archive_folder re_search folder_path config (world_at i) in
      let seen :=
        {| success_count := success_count st;
           main_audit := main_audit st ++ run_audit run;
           main_applog := main_applog st ++ map LogFromFolder (run_applog run) |} in
      if run_success run then
        main_loop strict config world_at (S i) rest
          {| success_count := S (success_count seen);
             main_audit := main_audit seen;
             main_applog := main_applog seen |}
      else if strict then
        (true,
         {| success_count := success_count seen;
            main_audit := main_audit seen;
            main_applog := main_applog seen ++ [LogStrictStop folder_path] |})
      else main_loop strict config world_at (S i) rest seen
  end.

(** The exit code of [main], with the audit records and the log lines of
    the run. *)
Definition main (args : Args) (on_disk : option Settings)
    (world_at : nat -> World) : Z * MainState :=
  let config := archive_config args on_disk in
  let folder_paths := folders_to_process args (load_settings args on_disk) in
  match folder_paths with
  | [] =>
      (1, {| success_count := 0; main_audit := [];
             main_applog := [LogNoFolders] |})
  | _ =>
      let '(stopped, st) :=
        main_loop (a_strict args) config world_at 0 folder_paths
          {| success_count := 0; main_audit := []; main_applog := [] |} in
      if stopped then (1, st)
      else
        (if (success_count st =? length folder_paths)%nat then 0 else 1,
         {| success_count := success_count st;
            main_audit := main_audit st;
            main_applog := main_applog st
              ++ [LogRunDone (success_count st) (length folder_paths)] |})
  end.

(** The folder runs that a loop over all of [folder_paths] makes, the first
    one finding the environment number [i]. *)
Fixpoint folder_runs (config : Config) (world_at : nat -> World) (i : nat)
    (folder_paths : list string) : list FolderRun :=
  match folder_paths with
  | [] => []
  | folder_path :: rest =>
      archive_folder re_search folder_path config (world_at i)
      :: folder_runs config world_at (S i) rest
  end.

End Main.

(** ** Predicates on folders *)

(** The file [info] is in the archive directory of the folder under
    [name]. *)
Definition archived (fs : gmap string Node) (archive_name name : string)
    (info : FileInfo) : Prop :=
  exists files, fs !! archive_name = Some (Dir files) /\ files !! name = Some info.

(** The name has no path separator, as the names [os.listdir] returns. *)
Definition plain_name (name : string) : Prop :=
  Text.rfind "/" name = None.

(** The number of occurrences of a character. *)
Fixpoint count_char (c : ascii) (s : string) : nat :=
  match s with
  | EmptyString => 0
  | String d r => ((if Ascii.eqb d c then 1 else 0) + count_char c r)%nat
  end.


(** ** Counting audit records *)

Global Instance Action_eq_dec : EqDecision Action.
Proof. solve_decision. Defined.

Global Instance Status_eq_dec : EqDecision Status.
Proof. solve_decision. Defined.

(** The number of records with a given action. *)
Definition count_action (a : Action) (events : list Event) : nat :=
  length (List.filter (fun ev => bool_decide (ev_action ev = a)) events).

(** The number of FILE_MOVE records with a given status. *)
Definition count_moves (st : Status) (events : list Event) : nat :=
  length (List.filter
            (fun ev => bool_decide (ev_action ev = FILE_MOVE)
                       && bool_decide (ev_status ev = st))
            events).

(** The environment of a second call on the folder that a first run left,
    in the same second. *)
Definition world_after (w : World) (run : FolderRun) : World :=
  {| w_source := run_source run; w_timestamp := w_timestamp w;
     w_makedirs_denied := w_makedirs_denied w |}.

(** ** Sample inputs of a whole run *)

Module SampleRun.

(** A folder with two text files that can be read and moved. *)
Definition inbox : gmap string Node :=
  <["a.txt" := File (Sample.info 1 Sample.ten_days)]>
    (<["b.txt" := File (Sample.info 2 Sample.ten_days)]> ∅).

Definition inbox_world : World :=
  {| w_source := Some inbox; w_timestamp := Sample.timestamp;
     w_makedirs_denied := None |}.

(** A folder that does not exist. *)
Definition missing_world : World :=
  {| w_source := None; w_timestamp := Sample.timestamp;
     w_makedirs_denied := None |}.

Definition real_txt : Config :=
  {| dry_run := false; filters := Sample.txt_only |}.

Definition real_all : Config :=
  {| dry_run := false; filters := no_filters |}.

(** [archiver --no-config /gone /data], with or without [--strict]. *)
Definition args (strict : bool) : Args :=
  {| a_folders := ["/gone"; "/data"]; a_no_config := true;
     a_extensions := None; a_size_limit := None; a_min_size := None;
     a_modified_days := None; a_created_days := None; a_regex := None;
     a_exclude := None; a_strict := strict; a_dry_run := false |}.

(** [archiver --no-config /data] *)
Definition args_one : Args :=
  {| a_folders := ["/data"]; a_no_config := true;
     a_extensions := None; a_size_limit := None; a_min_size := None;
     a_modified_days := None; a_created_days := None; a_regex := None;
     a_exclude := None; a_strict := false; a_dry_run := false |}.

(** The first call finds no folder, the later ones the sample folder. *)
Definition worlds (i : nat) : World :=
  match i with
  | O => missing_world
  | S _ => Sample.world
  end.

End SampleRun.

(** * Properties *)

(** ** Text *)

Lemma upper_char_is_space c : Text.is_space (Text.upper_char c) = Text.is_space c.
Proof. destruct c as [[] [] [] [] [] [] [] []]; reflexivity. Qed.

Lemma upper_is_empty s : Text.is_empty (Text.upper s) = Text.is_empty s.
Proof. destruct s; reflexivity. Qed.

Lemma upper_lstrip s : Text.lstrip (Text.upper s) = Text.upper (Text.lstrip s).
Proof.
  induction s as [|c r IH]; [reflexivity|].
  cbn [Text.upper Text.lstrip]. rewrite upper_char_is_space.
  destruct (Text.is_space c); [exact IH | reflexivity].
Qed.

Lemma upper_rstrip s : Text.rstrip (Text.upper s) = Text.upper (Text.rstrip s).
Proof.
  induction s as [|c r IH]; [reflexivity|].
  cbn [Text.upper Text.rstrip].
  rewrite upper_char_is_space, IH, upper_is_empty.
  destruct (Text.is_space c && Text.is_empty (Text.rstrip r)); reflexivity.
Qed.

(** Trimming and upper-casing commute: the source upper-cases first, the
    specification trims first. *)
Lemma upper_strip s : Text.strip (Text.upper s) = Text.upper (Text.strip s).
Proof. unfold Text.strip. now rewrite upper_lstrip, upper_rstrip. Qed.

Lemma startswith_spec s pre :
  Text.startswith s pre = true <-> exists post, s = pre +:+ post.
Proof.
  revert s. induction pre as [|c pre IH]; intros s; cbn [Text.startswith].
  - split; [intros _; now exists s | reflexivity].
  - destruct s as [|d s].
    + split; [discriminate | intros [post [=]]].
    + rewrite andb_true_iff, Ascii.eqb_eq, IH. cbn [String.append]. split.
      * intros [-> [post ->]]. now exists post.
      * intros [post [= -> ->]]. split; [reflexivity|now exists post].
Qed.

Lemma contains_spec needle s :
  Text.contains needle s = true <-> exists pre post, s = pre +:+ needle +:+ post.
Proof.
  split.
  - induction s as [|c s IH]; cbn [Text.contains]; rewrite orb_true_iff;
      intros [Hpre|Hrest]; try discriminate.
    + apply startswith_spec in Hpre as [post ->]. now exists "", post.
    + apply startswith_spec in Hpre as [post ->]. now exists "", post.
    + destruct (IH Hrest) as (pre & post & ->). now exists (String c pre), post.
  - intros (pre & post & ->). induction pre as [|c pre IH].
    + assert (Text.startswith (needle +:+ post) needle = true) as Hhere
        by (apply startswith_spec; now exists post).
      change ("" +:+ needle +:+ post) with (needle +:+ post).
      destruct (needle +:+ post); cbn [Text.contains]; now rewrite Hhere.
    + change (String c pre +:+ needle +:+ post)
        with (String c (pre +:+ needle +:+ post)).
      cbn [Text.contains]. rewrite IH. apply orb_true_r.
Qed.

Lemma substring_whole s : substring 0 (String.length s) s = s.
Proof.
  induction s as [|c s IH]; [reflexivity|].
  cbn [String.length substring]. now rewrite IH.
Qed.

Lemma substring_skip pre s m :
  substring (String.length pre) m (pre +:+ s) = substring 0 m s.
Proof.
  induction pre as [|c pre IH]; [reflexivity|].
  change (String c pre +:+ s) with (String c (pre +:+ s)).
  cbn [String.length substring]. exact IH.
Qed.

Lemma substring_take pre s :
  substring 0 (String.length pre) (pre +:+ s) = pre.
Proof.
  induction pre as [|c pre IH]; [now destruct s|].
  change (String c pre +:+ s) with (String c (pre +:+ s)).
  cbn [String.length substring]. now rewrite IH.
Qed.

Lemma length_app (s t : string) :
  String.length (s +:+ t) = (String.length s + String.length t)%nat.
Proof.
  induction s as [|c s IH]; [reflexivity|].
  change (String c s +:+ t) with (String c (s +:+ t)).
  cbn [String.length]. now rewrite IH.
Qed.

Lemma substring_split s k :
  (k <= String.length s)%nat ->
  s = substring 0 k s +:+ substring k (String.length s - k) s.
Proof.
  revert k. induction s as [|c s IH]; intros k Hk.
  - destruct k; [reflexivity|cbn in Hk; lia].
  - destruct k as [|k].
    + rewrite Nat.sub_0_r, substring_whole. reflexivity.
    + cbn [substring String.length Nat.sub].
      change (String c (substring 0 k s)
              +:+ substring k (String.length s - k) s)
        with (String c (substring 0 k s
                        +:+ substring k (String.length s - k) s)).
      f_equal. apply IH. cbn in Hk. lia.
Qed.

Lemma endswith_spec s suf :
  Text.endswith s suf = true <-> exists pre, s = pre +:+ suf.
Proof.
  unfold Text.endswith. rewrite andb_true_iff, Nat.leb_le, String.eqb_eq.
  split.
  - intros [Hle Hsub]. exists (substring 0 (String.length s - String.length suf) s).
    pose proof (substring_split s (String.length s - String.length suf)) as H.
    replace (String.length s - (String.length s - String.length suf))%nat
      with (String.length suf) in H by lia.
    rewrite Hsub in H. apply H. lia.
  - intros [pre ->]. rewrite length_app. split; [lia|].
    replace (String.length pre + String.length suf - String.length suf)%nat
      with (String.length pre) by lia.
    rewrite substring_skip. apply substring_whole.
Qed.

Lemma drop_last_app pre suf :
  Text.drop_last (String.length suf) (pre +:+ suf) = pre.
Proof.
  unfold Text.drop_last. rewrite length_app.
  replace (String.length pre + String.length suf - String.length suf)%nat
    with (String.length pre) by lia.
  apply substring_take.
Qed.

Lemma endswith_same_length body suf suf' :
  String.length suf = String.length suf' ->
  Text.endswith (body +:+ suf) suf' = String.eqb suf suf'.
Proof.
  intros Hlen. unfold Text.endswith. rewrite length_app, <- Hlen.
  replace (String.length body + String.length suf - String.length suf)%nat
    with (String.length body) by lia.
  rewrite substring_skip, substring_whole.
  destruct (Nat.leb_spec (String.length suf)
              (String.length body + String.length suf)); [reflexivity|lia].
Qed.

(** The integer before a suffix is multiplied by the power of 1024 of the
    suffix. *)
Lemma parse_size_suffix input body :
  input <> "" ->
  (Text.strip (Text.upper input) = body +:+ "KB" ->
   parse_size input = n ← py_int body; Ok (n * 1024)%Z) /\
  (Text.strip (Text.upper input) = body +:+ "MB" ->
   parse_size input = n ← py_int body; Ok (n * 1024 * 1024)%Z) /\
  (Text.strip (Text.upper input) = body +:+ "GB" ->
   parse_size input = n ← py_int body; Ok (n * 1024 * 1024 * 1024)%Z).
Proof.
  intros Hne. unfold parse_size.
  destruct input as [|c r]; [congruence|]. cbn [Text.is_empty].
  repeat split; intros ->;
    rewrite !endswith_same_length by reflexivity;
    cbn [String.eqb Ascii.eqb Bool.eqb andb];
    match goal with
    | |- context [Text.drop_last 2 (body +:+ ?suf)] =>
        change (Text.drop_last 2 (body +:+ suf))
          with (Text.drop_last (String.length suf) (body +:+ suf));
        rewrite drop_last_app
    end; reflexivity.
Qed.

Lemma append_assoc (a b c : string) : (a +:+ b) +:+ c = a +:+ b +:+ c.
Proof.
  induction a as [|x a IH]; [reflexivity|].
  change (String x (a +:+ b) +:+ c = String x (a +:+ b +:+ c)).
  change (String x ((a +:+ b) +:+ c) = String x (a +:+ b +:+ c)).
  now rewrite IH.
Qed.

Lemma append_empty_r (a : string) : a +:+ "" = a.
Proof.
  induction a as [|x a IH]; [reflexivity|].
  change (String x (a +:+ "") = String x a). now rewrite IH.
Qed.

Lemma upper_app (a b : string) :
  Text.upper (a +:+ b) = Text.upper a +:+ Text.upper b.
Proof.
  induction a as [|x a IH]; [reflexivity|].
  change (String (Text.upper_char x) (Text.upper (a +:+ b))
          = String (Text.upper_char x) (Text.upper a +:+ Text.upper b)).
  now rewrite IH.
Qed.

Lemma upper_char_idempotent c :
  Text.upper_char (Text.upper_char c) = Text.upper_char c.
Proof. destruct c as [[] [] [] [] [] [] [] []]; reflexivity. Qed.

Lemma upper_lower_char c :
  Text.upper_char (Text.lower_char c) = Text.upper_char c.
Proof. destruct c as [[] [] [] [] [] [] [] []]; reflexivity. Qed.

Lemma upper_idempotent s : Text.upper (Text.upper s) = Text.upper s.
Proof.
  induction s as [|c s IH]; [reflexivity|].
  cbn [Text.upper]. now rewrite upper_char_idempotent, IH.
Qed.

Lemma upper_lower s : Text.upper (Text.lower s) = Text.upper s.
Proof.
  induction s as [|c s IH]; [reflexivity|].
  cbn [Text.upper Text.lower]. now rewrite upper_lower_char, IH.
Qed.

Lemma lower_is_empty s : Text.is_empty (Text.lower s) = Text.is_empty s.
Proof. destruct s; reflexivity. Qed.

Lemma all_space_upper s :
  Text.all_chars Text.is_space (Text.upper s) = Text.all_chars Text.is_space s.
Proof.
  induction s as [|c s IH]; [reflexivity|].
  cbn [Text.upper Text.all_chars]. now rewrite upper_char_is_space, IH.
Qed.

Lemma lstrip_all_space s :
  Text.all_chars Text.is_space s = true -> Text.lstrip s = "".
Proof.
  induction s as [|c s IH]; [reflexivity|].
  cbn [Text.all_chars Text.lstrip]. intros [Hc Hs]%andb_true_iff.
  rewrite Hc. now apply IH.
Qed.

Lemma rstrip_all_space s :
  Text.all_chars Text.is_space s = true -> Text.rstrip s = "".
Proof.
  induction s as [|c s IH]; [reflexivity|].
  cbn [Text.all_chars Text.rstrip]. intros [Hc Hs]%andb_true_iff.
  rewrite (IH Hs), Hc. reflexivity.
Qed.

(** Leading whitespace does not survive [lstrip]. *)
Lemma lstrip_padding pad s :
  Text.all_chars Text.is_space pad = true ->
  Text.lstrip (pad +:+ s) = Text.lstrip s.
Proof.
  induction pad as [|c pad IH]; [reflexivity|].
  cbn [Text.all_chars]. intros [Hc Hpad]%andb_true_iff.
  change (Text.lstrip (String c (pad +:+ s)) = Text.lstrip s).
  cbn [Text.lstrip]. rewrite Hc. now apply IH.
Qed.

(** Trailing whitespace does not survive [rstrip]. *)
Lemma rstrip_padding s pad :
  Text.all_chars Text.is_space pad = true ->
  Text.rstrip (s +:+ pad) = Text.rstrip s.
Proof.
  intros Hpad. induction s as [|c s IH].
  - change ("" +:+ pad) with pad. now rewrite rstrip_all_space.
  - change (Text.rstrip (String c (s +:+ pad)) = Text.rstrip (String c s)).
    cbn [Text.rstrip]. now rewrite IH.
Qed.

Lemma lstrip_app s t :
  Text.lstrip (s +:+ t)
  = if Text.all_chars Text.is_space s then Text.lstrip t
    else Text.lstrip s +:+ t.
Proof.
  induction s as [|c s IH]; [reflexivity|].
  change (Text.lstrip (String c (s +:+ t))
          = (if Text.all_chars Text.is_space (String c s) then Text.lstrip t
             else Text.lstrip (String c s) +:+ t)).
  cbn [Text.lstrip Text.all_chars].
  destruct (Text.is_space c); [exact IH|reflexivity].
Qed.

Lemma strip_padding left s right :
  Text.all_chars Text.is_space left = true ->
  Text.all_chars Text.is_space right = true ->
  Text.strip (left +:+ s +:+ right) = Text.strip s.
Proof.
  intros Hleft Hright. unfold Text.strip.
  rewrite (lstrip_padding _ _ Hleft), lstrip_app.
  destruct (Text.all_chars Text.is_space s) eqn:Hs.
  - now rewrite (lstrip_all_space _ Hright), (lstrip_all_space _ Hs).
  - now apply rstrip_padding.
Qed.

Lemma is_empty_app_r a b :
  Text.is_empty b = false -> Text.is_empty (a +:+ b) = false.
Proof. intros Hb. destruct a; [exact Hb|reflexivity]. Qed.

Lemma is_empty_app_l a b :
  Text.is_empty a = false -> Text.is_empty (a +:+ b) = false.
Proof. intros Ha. destruct a; [discriminate|reflexivity]. Qed.

Lemma parse_size_normalised s t :
  Text.is_empty s = Text.is_empty t ->
  Text.strip (Text.upper s) = Text.strip (Text.upper t) ->
  parse_size s = parse_size t.
Proof. intros He Hn. unfold parse_size. now rewrite He, Hn. Qed.

(** ** SizeParser *)

Example int_accepts :
  map py_int [" 5 "; "+5"; "-5"; "1_0"; "007"] = [Ok 5; Ok 5; Ok (-5); Ok 10; Ok 7].
Proof. reflexivity. Qed.

Example int_refuses :
  map int_of_text [""; "-"; "+ 5"; "1__0"; "_1"; "1_"; "0x10"; "1.5"; "5 B"]
  = [None; None; None; None; None; None; None; None; None].
Proof. reflexivity. Qed.

Example splitext_cases :
  map splitext_ext ["/a.b/.bashrc"; "/a.b/x..y"; "/a.b/...y"; "/a.b/x.";
                    "a.tar.gz"; "/a.b/c"]
  = [""; ".y"; ""; "."; ".gz"; ""].
Proof. reflexivity. Qed.

Example join_cases :
  [os_path_join "/d" "x"; os_path_join "/d/" "x"; os_path_join "" "x";
   os_path_join "/d" "/x"]
  = ["/d/x"; "/d/x"; "x"; "/x"].
Proof. reflexivity. Qed.

Example parse_size_separators : parse_size "  1_000 kb " = Ok 1024000.
Proof. reflexivity. Qed.

Example parse_size_blank : parse_size " " = Raise ValueError.
Proof. reflexivity. Qed.

Example parse_size_bare_suffix : parse_size "KB" = Raise ValueError.
Proof. reflexivity. Qed.

Example parse_size_negative : parse_size "-2GB" = Ok (-2147483648).
Proof. reflexivity. Qed.

Lemma parse_size_refines input : parse_size input = SizeParserSpec.parse input.
Proof.
  unfold parse_size, SizeParserSpec.parse, SizeParserSpec.split_suffix,
    SizeParserSpec.normalise, SizeParserSpec.suffixes.
  destruct (Text.is_empty input); [reflexivity|].
  rewrite upper_strip. cbn [List.find fst].
  set (t := Text.upper (Text.strip input)).
  destruct (Text.endswith t "KB"); [|destruct (Text.endswith t "MB");
    [|destruct (Text.endswith t "GB")]];
    cbn [String.length]; destruct (py_int _) as [n|e]; cbn;
    try reflexivity; f_equal; lia.
Qed.

Lemma parse_size_malformed input :
  input <> "" ->
  int_of_text (SizeParserSpec.remaining_text input) = None ->
  parse_size input = Raise ValueError.
Proof.
  intros Hne Hbad. rewrite parse_size_refines.
  unfold SizeParserSpec.parse, SizeParserSpec.remaining_text in *.
  destruct input as [|c r]; [congruence|]. cbn [Text.is_empty].
  destruct (SizeParserSpec.split_suffix _) as [rest k]. cbn [fst] in Hbad.
  unfold py_int. rewrite Hbad. reflexivity.
Qed.

Lemma all_chars_app p (a b : string) :
  Text.all_chars p (a +:+ b) = Text.all_chars p a && Text.all_chars p b.
Proof.
  induction a as [|x a IH]; [reflexivity|].
  change (Text.all_chars p (String x (a +:+ b))
          = Text.all_chars p (String x a) && Text.all_chars p b).
  cbn [Text.all_chars]. now rewrite IH, andb_assoc.
Qed.

(** Text without whitespace is what [strip] leaves of it. *)
Lemma strip_no_space s :
  Text.all_chars (fun c => negb (Text.is_space c)) s = true ->
  Text.strip s = s.
Proof.
  intros Hs. unfold Text.strip.
  assert (Hl : Text.lstrip s = s).
  { destruct s as [|c r]; [reflexivity|]. cbn [Text.all_chars] in Hs.
    apply andb_true_iff in Hs as [Hc _]. cbn [Text.lstrip].
    now destruct (Text.is_space c). }
  rewrite Hl. clear Hl. induction s as [|c r IH]; [reflexivity|].
  cbn [Text.all_chars] in Hs. apply andb_true_iff in Hs as [Hc Hr].
  cbn [Text.rstrip]. rewrite (IH Hr).
  now destruct (Text.is_space c).
Qed.

Lemma digit_char_facts d :
  (d < 10)%nat ->
  Text.is_digit (digit_char d) = true /\
  Text.digit_value (digit_char d) = Z.of_nat d /\
  Text.is_space (digit_char d) = false /\
  Text.upper_char (digit_char d) = digit_char d.
Proof.
  intros Hd.
  do 10 (destruct d as [|d]; [repeat split; reflexivity|]). lia.
Qed.

Lemma digits_text_facts ds :
  Forall (fun d => (d < 10)%nat) ds ->
  Text.all_chars Text.is_digit (digits_text ds) = true /\
  Text.all_chars (fun c => negb (Text.is_space c)) (digits_text ds) = true /\
  Text.upper (digits_text ds) = digits_text ds.
Proof.
  induction 1 as [|d ds Hd _ (IHd & IHs & IHu)]; [repeat split|].
  destruct (digit_char_facts d Hd) as (Hdigit & _ & Hspace & Hupper).
  cbn [digits_text Text.all_chars Text.upper].
  rewrite Hdigit, Hspace, Hupper, IHd, IHs, IHu. repeat split.
Qed.

Lemma int_body_digits ds acc st :
  Forall (fun d => (d < 10)%nat) ds ->
  ds <> [] \/ st = AfterDigit ->
  int_body (digits_text ds) acc st = Some (digits_from acc ds).
Proof.
  intros Hds. revert acc st.
  induction Hds as [|d ds Hd _ IH]; intros acc st Hst.
  - destruct Hst as [Hne| ->]; [congruence|reflexivity].
  - destruct (digit_char_facts d Hd) as (Hdigit & Hvalue & _).
    cbn [digits_text int_body digits_from]. rewrite Hdigit, Hvalue.
    apply IH. now right.
Qed.

(** [int] reads a text of decimal digits as the number they denote. *)
Lemma py_int_digits ds :
  Forall (fun d => (d < 10)%nat) ds ->
  ds <> [] ->
  py_int (digits_text ds) = Ok (digits_value ds).
Proof.
  intros Hds Hne. unfold py_int.
  assert (Hint : int_of_text (digits_text ds)
                 = int_body (digits_text ds) 0 AtStart).
  { destruct Hds as [|d ds Hd _]; [congruence|].
    cbn [digits_text].
    do 10 (destruct d as [|d]; [reflexivity|]). lia. }
  rewrite Hint, (int_body_digits ds 0 AtStart Hds) by now left.
  reflexivity.
Qed.

Lemma digits_no_suffix ds suffix :
  Forall (fun d => (d < 10)%nat) ds ->
  Text.all_chars Text.is_digit suffix = false ->
  Text.endswith (digits_text ds) suffix = false.
Proof.
  intros Hds Hsuffix.
  destruct (Text.endswith (digits_text ds) suffix) eqn:Hends; [|reflexivity].
  apply endswith_spec in Hends as [pre Heq].
  destruct (digits_text_facts ds Hds) as (Hdigits & _).
  rewrite Heq, all_chars_app, Hsuffix, andb_false_r in Hdigits. discriminate.
Qed.

(** What [parse_size] reads in digits that a suffix in any case follows and
    whitespace surrounds. *)
Lemma parse_size_digits left ds suffix k right :
  Text.all_chars Text.is_space left = true ->
  Text.all_chars Text.is_space right = true ->
  Forall (fun d => (d < 10)%nat) ds ->
  ds <> [] ->
  (suffix, k) ∈ suffix_spellings ->
  parse_size (left +:+ (digits_text ds +:+ suffix) +:+ right)
  = Ok (digits_value ds * 1024 ^ k).
Proof.
  intros Hleft Hright Hds Hne Hin.
  destruct (digits_text_facts ds Hds) as (_ & Hclean & Hupper).
  assert (Hfull : Text.is_empty (digits_text ds +:+ suffix) = false).
  { destruct ds; [congruence|reflexivity]. }
  assert (Hpad : parse_size (left +:+ (digits_text ds +:+ suffix) +:+ right)
                 = parse_size (digits_text ds +:+ suffix)).
  { apply parse_size_normalised.
    - rewrite Hfull. apply is_empty_app_r. now apply is_empty_app_l.
    - rewrite !upper_strip. f_equal. now apply strip_padding. }
  rewrite Hpad. clear Hpad.
  assert (Hnorm : Text.all_chars (fun c => negb (Text.is_space c)) suffix = true ->
                  Text.strip (Text.upper (digits_text ds +:+ suffix))
                  = digits_text ds +:+ Text.upper suffix).
  { intros Hsuffix. rewrite upper_strip, strip_no_space.
    - now rewrite upper_app, Hupper.
    - now rewrite all_chars_app, Hclean, Hsuffix. }
  assert (Hinput : digits_text ds +:+ suffix <> "")
    by (intros Heq; now rewrite Heq in Hfull).
  pose proof (py_int_digits ds Hds Hne) as Hint.
  unfold suffix_spellings in Hin.
  repeat (apply elem_of_cons in Hin as [[= -> ->]|Hin]);
    [|specialize (Hnorm eq_refl);
      cbn [Text.upper Text.upper_char] in Hnorm..
     |now apply elem_of_nil in Hin].
  - unfold parse_size. rewrite Hfull, Hnorm by reflexivity.
    change (Text.upper "") with "". rewrite append_empty_r.
    rewrite !digits_no_suffix by (try exact Hds; reflexivity).
    rewrite Hint. f_equal. lia.
  - rewrite (proj1 (parse_size_suffix _ _ Hinput) Hnorm), Hint.
    reflexivity.
  - rewrite (proj1 (parse_size_suffix _ _ Hinput) Hnorm), Hint.
    reflexivity.
  - rewrite (proj1 (parse_size_suffix _ _ Hinput) Hnorm), Hint.
    reflexivity.
  - rewrite (proj1 (parse_size_suffix _ _ Hinput) Hnorm), Hint.
    reflexivity.
  - rewrite (proj1 (proj2 (parse_size_suffix _ _ Hinput)) Hnorm), Hint.
    cbn [mbind Result_bind]. f_equal. lia.
  - rewrite (proj1 (proj2 (parse_size_suffix _ _ Hinput)) Hnorm), Hint.
    cbn [mbind Result_bind]. f_equal. lia.
  - rewrite (proj1 (proj2 (parse_size_suffix _ _ Hinput)) Hnorm), Hint.
    cbn [mbind Result_bind]. f_equal. lia.
  - rewrite (proj1 (proj2 (parse_size_suffix _ _ Hinput)) Hnorm), Hint.
    cbn [mbind Result_bind]. f_equal. lia.
  - rewrite (proj2 (proj2 (parse_size_suffix _ _ Hinput)) Hnorm), Hint.
    cbn [mbind Result_bind]. f_equal. lia.
  - rewrite (proj2 (proj2 (parse_size_suffix _ _ Hinput)) Hnorm), Hint.
    cbn [mbind Result_bind]. f_equal. lia.
  - rewrite (proj2 (proj2 (parse_size_suffix _ _ Hinput)) Hnorm), Hint.
    cbn [mbind Result_bind]. f_equal. lia.
  - rewrite (proj2 (proj2 (parse_size_suffix _ _ Hinput)) Hnorm), Hint.
    cbn [mbind Result_bind]. f_equal. lia.
Qed.

(** Whitespace around the input and the case of its letters do not change
    what [parse_size] gives. *)
Lemma parse_size_padding_and_case left input right :
  input <> "" ->
  Text.all_chars Text.is_space left = true ->
  Text.all_chars Text.is_space right = true ->
  parse_size (left +:+ input +:+ right) = parse_size input /\
  parse_size (Text.lower input) = parse_size input /\
  parse_size (Text.upper input) = parse_size input.
Proof.
  intros Hne Hleft Hright.
  assert (He : Text.is_empty input = false)
    by (destruct input; [congruence | reflexivity]).
  split; [|split]; apply parse_size_normalised.
  - rewrite He. apply is_empty_app_r. now apply is_empty_app_l.
  - rewrite !upper_strip. f_equal. now apply strip_padding.
  - apply lower_is_empty.
  - now rewrite upper_lower.
  - apply upper_is_empty.
  - now rewrite upper_idempotent.
Qed.

(** C2. [parse_size] trims and upper-cases its input, multiplies the integer
    before a suffix KB, MB or GB by 1024, 1024^2 or 1024^3, reads input
    without suffix as a byte count, gives 0 for the empty string, and raises
    [ValueError] (InvalidSizeFormat) whenever the remaining text is not an
    integer. Trimming and upper-casing are seen from outside: whitespace
    (spaces, tabs, line ends) around the input and the case of its letters
    do not change the result, and decimal digits that a suffix in any case
    follows and whitespace surrounds give the number of the digits times
    the power of 1024 of the suffix. *)
Theorem parse_size_spec :
  parse_size "10MB" = Ok (10 * 1024 * 1024) /\
  parse_size "500KB" = Ok (500 * 1024) /\
  parse_size "2048" = Ok 2048 /\
  parse_size "" = Ok 0 /\
  parse_size "10XB" = Raise ValueError /\
  parse_size "  10mb " = Ok (10 * 1024 * 1024) /\
  parse_size (String "009" ("500kB" +:+ String "010" "")) = Ok (500 * 1024) /\
  parse_size " 1Gb" = Ok (1024 * 1024 * 1024) /\
  parse_size " 2048 " = Ok 2048 /\
  parse_size " 10xb " = Raise ValueError /\
  (forall left input right,
      input <> "" ->
      Text.all_chars Text.is_space left = true ->
      Text.all_chars Text.is_space right = true ->
      parse_size (left +:+ input +:+ right) = parse_size input /\
      parse_size (Text.lower input) = parse_size input /\
      parse_size (Text.upper input) = parse_size input) /\
  (forall left ds suffix k right,
      Text.all_chars Text.is_space left = true ->
      Text.all_chars Text.is_space right = true ->
      Forall (fun d => (d < 10)%nat) ds ->
      ds <> [] ->
      (suffix, k) ∈ suffix_spellings ->
      parse_size (left +:+ (digits_text ds +:+ suffix) +:+ right)
      = Ok (digits_value ds * 1024 ^ k)) /\
  (forall input, parse_size input = SizeParserSpec.parse input) /\
  (forall input body,
      input <> "" ->
      (Text.strip (Text.upper input) = body +:+ "KB" ->
       parse_size input = n ← py_int body; Ok (n * 1024)) /\
      (Text.strip (Text.upper input) = body +:+ "MB" ->
       parse_size input = n ← py_int body; Ok (n * 1024 * 1024)) /\
      (Text.strip (Text.upper input) = body +:+ "GB" ->
       parse_size input = n ← py_int body; Ok (n * 1024 * 1024 * 1024))) /\
  (forall input,
      input <> "" ->
      int_of_text (SizeParserSpec.remaining_text input) = None ->
      parse_size input = Raise ValueError).
Proof.
  do 10 (split; [reflexivity|]).
  split; [exact parse_size_padding_and_case|].
  split; [exact parse_size_digits|].
  split; [exact parse_size_refines|].
  split; [exact parse_size_suffix | exact parse_size_malformed].
Qed.

(** Instances of [parse_size_spec]: its failure clause on [10XB], and its
    clause on digits, suffix and whitespace on the size 42 in megabytes,
    written in lower case between a tab and a space. *)
Lemma parse_size_spec_witness :
  "10XB" <> "" /\
  int_of_text (SizeParserSpec.remaining_text "10XB") = None /\
  parse_size "10XB" = Raise ValueError /\
  parse_size (String "009" "42mb ") = Ok (42 * 1024 * 1024).
Proof.
  destruct parse_size_spec
    as (_ & _ & _ & _ & _ & _ & _ & _ & _ & _ & _ & Hdigits & _ & _ & Hfails).
  split; [discriminate|]. split; [reflexivity|]. split.
  - apply (Hfails "10XB"); [discriminate | reflexivity].
  - apply (Hdigits (String "009" "") [4; 2]%nat "mb" 2 " ");
      [reflexivity | reflexivity
      | repeat constructor | discriminate
      | unfold suffix_spellings;
        do 8 apply list_elem_of_further; apply list_elem_of_here].
Defined.

(** ** FilterEngine *)

Section Properties.

Variable re_search : string -> string -> Result bool.

Lemma eval_step (X Y K K' : Eval unit) :
  X = Y -> K = K' ->
  (X ≫= fun _ => K)
  = match Y with Next _ => K' | Reject m => Reject m | Raised e => Raised e end.
Proof. intros -> ->. destruct Y; reflexivity. Qed.

Lemma bind_congr (X Y K K' : Eval unit) :
  X = Y -> K = K' -> (X ≫= fun _ => K) = (Y ≫= fun _ => K').
Proof. now intros -> ->. Qed.

Lemma eval_next {A B : Type} (a : A) (k : A -> Eval B) : (Next a ≫= k) = k a.
Proof. reflexivity. Qed.

Ltac bool_cases :=
  repeat match goal with
  | |- context [bool_decide ?P] => destruct (bool_decide_reflect P)
  | |- context [?a >? ?b] => destruct (Z.gtb_spec a b)
  | |- context [?a <? ?b] => destruct (Z.ltb_spec a b)
  end.

(** With readable metadata, the body of [should_archive] makes the checks
    in the order of the source. *)
Lemma should_archive_checks_order filepath info fl stat :
  f_stat info = Ok stat ->
  should_archive_checks re_search filepath info fl
  = checks_in_order re_search filepath stat info fl.
Proof.
  intros Hstat. unfold should_archive_checks, checks_in_order. rewrite Hstat.
  cbn [call]. rewrite eval_next. cbv beta zeta. cbn [first_failure].
  repeat lazymatch goal with
         | |- (_ ≫= _) = (check_alone _ _ _ _ _ _ ≫= _) =>
             apply bind_congr; [|]
         end.
  - cbn [check_alone]. destruct (extensions fl) as [exts|]; [|reflexivity].
    cbv zeta. destruct (Text.is_empty _); [reflexivity|].
    cbn [orb]. unfold reject_if. bool_cases; reflexivity.
  - cbn [check_alone]. destruct (size_limit fl) as [limit|]; [|reflexivity].
    destruct (parse_size limit) as [n|e]; [|reflexivity].
    cbn. unfold reject_if. bool_cases; reflexivity || lia.
  - cbn [check_alone]. destruct (min_size fl) as [limit|]; [|reflexivity].
    destruct (parse_size limit) as [n|e]; [|reflexivity].
    cbn. unfold reject_if. bool_cases; reflexivity || lia.
  - destruct (fromtimestamp (st_mtime stat)) as [mod_time|e] eqn:Hm;
      [|reflexivity].
    destruct (fromtimestamp (st_ctime stat)) as [create_time|e] eqn:Hc;
      [|reflexivity].
    cbn [call]. rewrite !eval_next. cbv beta.
    repeat lazymatch goal with
           | |- (_ ≫= _) = _ => apply eval_step; [|]
           end.
    + cbn [check_alone]. rewrite Hm.
      destruct (modified_days fl) as [days|]; [|reflexivity].
      unfold cutoff. destruct (timedelta_days days) as [delta|e]; [|reflexivity].
      cbn. destruct (datetime_sub _ delta) as [t|e]; [|reflexivity].
      cbn. unfold reject_if. bool_cases; reflexivity || lia.
    + cbn [check_alone]. rewrite Hc.
      destruct (created_days fl) as [days|]; [|reflexivity].
      unfold cutoff. destruct (timedelta_days days) as [delta|e]; [|reflexivity].
      cbn. destruct (datetime_sub _ delta) as [t|e]; [|reflexivity].
      cbn. unfold reject_if. bool_cases; reflexivity || lia.
    + cbn [check_alone]. destruct (regex fl) as [pattern|]; [|reflexivity].
      destruct (re_search pattern _) as [[]|e]; reflexivity.
    + cbn [check_alone]. destruct (exclude fl) as [patterns|]; [|reflexivity].
      destruct (List.find _ patterns); reflexivity.
Qed.

Lemma checks_in_order_chain filepath stat info fl m c :
  fromtimestamp (st_mtime stat) = Ok m ->
  fromtimestamp (st_ctime stat) = Ok c ->
  checks_in_order re_search filepath stat info fl
  = first_failure re_search evaluation_order filepath stat info fl.
Proof.
  intros Hm Hc. unfold checks_in_order, evaluation_order. rewrite Hm, Hc.
  reflexivity.
Qed.

(** When the metadata is read, that is when [os.stat] and the conversion of
    the two times succeed, the body of [should_archive] is the first failure
    among the constraints taken in the evaluation order. *)
Lemma should_archive_checks_chain filepath info fl stat m c :
  f_stat info = Ok stat ->
  fromtimestamp (st_mtime stat) = Ok m ->
  fromtimestamp (st_ctime stat) = Ok c ->
  should_archive_checks re_search filepath info fl
  = first_failure re_search evaluation_order filepath stat info fl.
Proof.
  intros Hstat Hm Hc. rewrite (should_archive_checks_order _ _ _ _ Hstat).
  now apply (checks_in_order_chain _ _ _ _ m c).
Qed.

Lemma first_failure_prefix pre c post filepath stat info fl :
  (forall c', c' ∈ pre ->
     check_alone re_search c' filepath stat info fl = Next tt) ->
  first_failure re_search (pre ++ c :: post) filepath stat info fl
  = match check_alone re_search c filepath stat info fl with
    | Next _ => first_failure re_search post filepath stat info fl
    | Reject m => Reject m
    | Raised e => Raised e
    end.
Proof.
  induction pre as [|c0 pre IH]; intros Hpre; [reflexivity|].
  cbn [app first_failure].
  rewrite (Hpre c0) by apply list_elem_of_here.
  apply IH. intros c' Hin. apply Hpre. now apply list_elem_of_further.
Qed.

Lemma first_failure_all_pass cs filepath stat info fl :
  (forall c, c ∈ cs -> check_alone re_search c filepath stat info fl = Next tt) ->
  first_failure re_search cs filepath stat info fl = Next tt.
Proof.
  induction cs as [|c cs IH]; intros Hall; [reflexivity|].
  cbn [first_failure]. rewrite (Hall c) by apply list_elem_of_here.
  apply IH. intros c' Hin. apply Hall. now apply list_elem_of_further.
Qed.



(** *** Recency *)

Lemma cutoff_valid now days :
  valid_datetime now ->
  valid_datetime (now - days * us_per_day) ->
  cutoff now days = Ok (now - days * us_per_day).
Proof.
  unfold valid_datetime, cutoff, timedelta_days, datetime_sub, max_datetime,
    us_per_day. intros Hnow Hcut.
  destruct (Z.leb_spec (Z.abs days) 999999999) as [_|Habs]; [|lia].
  cbn [mbind Result_bind].
  destruct (Z.leb_spec 0 (now - days * 86400000000)); [|lia].
  destruct (Z.leb_spec (now - days * 86400000000)
              (3652059 * 86400000000 - 1)); [reflexivity|lia].
Qed.

Lemma cutoff_value now days t :
  cutoff now days = Ok t -> t = now - days * us_per_day.
Proof.
  unfold cutoff, timedelta_days, datetime_sub.
  destruct (Z.abs days <=? 999999999); [|discriminate].
  cbn [mbind Result_bind].
  destruct (_ && _); [|discriminate]. now intros [= <-].
Qed.

(** A file is accepted only when its metadata is read and every constraint
    passes. *)
Lemma should_archive_accepted_inv filepath info fl :
  fst (should_archive re_search filepath info fl) = true ->
  exists stat m c,
    f_stat info = Ok stat /\
    fromtimestamp (st_mtime stat) = Ok m /\
    fromtimestamp (st_ctime stat) = Ok c /\
    forall k, k ∈ evaluation_order ->
      check_alone re_search k filepath stat info fl = Next tt.
Proof.
  unfold should_archive. destruct (f_stat info) as [stat|e] eqn:Hstat.
  - rewrite (should_archive_checks_order _ _ _ _ Hstat).
    unfold checks_in_order.
    destruct (check_alone re_search ByExtension filepath stat info fl)
      as [[]| |] eqn:E1; cbn [mbind Eval_bind fst]; try discriminate.
    destruct (check_alone re_search ByMaxSize filepath stat info fl)
      as [[]| |] eqn:E2; cbn [mbind Eval_bind fst]; try discriminate.
    destruct (check_alone re_search ByMinSize filepath stat info fl)
      as [[]| |] eqn:E3; cbn [mbind Eval_bind fst]; try discriminate.
    destruct (fromtimestamp (st_mtime stat)) as [m|e] eqn:Hm;
      cbn [call mbind Eval_bind fst]; try discriminate.
    destruct (fromtimestamp (st_ctime stat)) as [c|e] eqn:Hc;
      cbn [call mbind Eval_bind fst first_failure]; try discriminate.
    destruct (check_alone re_search ByModified filepath stat info fl)
      as [[]| |] eqn:E4; cbn [fst]; try discriminate.
    destruct (check_alone re_search ByCreated filepath stat info fl)
      as [[]| |] eqn:E5; cbn [fst]; try discriminate.
    destruct (check_alone re_search ByNamePattern filepath stat info fl)
      as [[]| |] eqn:E6; cbn [fst]; try discriminate.
    destruct (check_alone re_search ByExclude filepath stat info fl)
      as [[]| |] eqn:E7; cbn [fst]; try discriminate.
    intros _. exists stat, m, c.
    split; [reflexivity|]. split; [exact Hm|]. split; [exact Hc|].
    intros k Hin. unfold evaluation_order in Hin.
    repeat (apply elem_of_cons in Hin as [->|Hin]; [assumption|]).
    now apply elem_of_nil in Hin.
  - unfold should_archive_checks. rewrite Hstat. discriminate.
Qed.

Lemma should_archive_rejects_at k filepath info fl stat :
  f_stat info = Ok stat ->
  k ∈ evaluation_order ->
  check_alone re_search k filepath stat info fl <> Next tt ->
  fst (should_archive re_search filepath info fl) = false.
Proof.
  intros Hstat Hin Hk.
  destruct (fst (should_archive re_search filepath info fl)) eqn:Hdecision;
    [|reflexivity].
  destruct (should_archive_accepted_inv _ _ _ Hdecision)
    as (stat' & m & c & Hstat' & _ & _ & Hall).
  assert (stat' = stat) as -> by congruence.
  now specialize (Hall k Hin).
Qed.

Lemma should_archive_without (fl fl' : Filters) filepath info :
  (forall stat k, f_stat info = Ok stat -> k ∈ evaluation_order ->
     check_alone re_search k filepath stat info fl
     = check_alone re_search k filepath stat info fl') ->
  should_archive re_search filepath info fl
  = should_archive re_search filepath info fl'.
Proof.
  intros Hsame. unfold should_archive.
  destruct (f_stat info) as [stat|e] eqn:Hstat.
  - rewrite !(should_archive_checks_order _ _ _ _ Hstat).
    assert (E : forall k,
               check_alone re_search k filepath stat info fl
               = check_alone re_search k filepath stat info fl').
    { intros k. apply Hsame; [reflexivity|].
      unfold evaluation_order. destruct k; set_solver. }
    unfold checks_in_order. cbn [first_failure]. now rewrite !E.
  - unfold should_archive_checks. rewrite Hstat. reflexivity.
Qed.

(** X21. With [modified_days] present, a file whose modification time is
    more recent than [now - modified_days] days is rejected, and a file
    whose metadata is read and that was modified at or before that
    threshold passes the check: the decision is the one of the filter set
    without [modified_days]. With 7 days, a file modified one hour ago is
    rejected and a file modified ten days ago is accepted. *)
Theorem modified_recency_selects_older filepath info fl stat m days :
  f_stat info = Ok stat ->
  fromtimestamp (st_mtime stat) = Ok m ->
  (modified_days fl = Some days ->
   m > f_now_modified info - days * us_per_day ->
   fst (should_archive re_search filepath info fl) = false) /\
  (modified_days fl = Some days ->
   valid_datetime (f_now_modified info) ->
   valid_datetime (f_now_modified info - days * us_per_day) ->
   m <= f_now_modified info - days * us_per_day ->
   should_archive re_search filepath info fl
   = should_archive re_search filepath info (without_modified fl)) /\
  (m = f_now_modified info - us_per_hour ->
   fst (should_archive re_search filepath info (modified_only 7)) = false) /\
  (forall c,
      fromtimestamp (st_ctime stat) = Ok c ->
      valid_datetime (f_now_modified info) ->
      valid_datetime m ->
      m = f_now_modified info - 10 * us_per_day ->
      should_archive re_search filepath info (modified_only 7) = (true, [])).
Proof.
  intros Hstat Hm.
  assert (Hrej : forall fl' d, modified_days fl' = Some d ->
            m > f_now_modified info - d * us_per_day ->
            fst (should_archive re_search filepath info fl') = false).
  { intros fl' d Hd Hrecent.
    apply (should_archive_rejects_at ByModified _ _ _ _ Hstat).
    - unfold evaluation_order. set_solver.
    - cbn [check_alone]. rewrite Hd, Hm.
      destruct (cutoff _ d) as [t|e] eqn:Hcut; [|discriminate].
      apply cutoff_value in Hcut as ->.
      destruct (bool_decide_reflect (m > f_now_modified info - d * us_per_day));
        [discriminate|contradiction]. }
  assert (Hpass : forall fl' d, modified_days fl' = Some d ->
            valid_datetime (f_now_modified info) ->
            valid_datetime (f_now_modified info - d * us_per_day) ->
            m <= f_now_modified info - d * us_per_day ->
            should_archive re_search filepath info fl'
            = should_archive re_search filepath info (without_modified fl')).
  { intros fl' d Hd Hnow Hcut Hold. apply should_archive_without.
    intros stat' k Hstat' _. assert (stat' = stat) as -> by congruence.
    destruct k; try reflexivity.
    cbn [check_alone without_modified modified_days]. rewrite Hd, Hm.
    rewrite (cutoff_valid _ _ Hnow Hcut).
    destruct (bool_decide_reflect (m > f_now_modified info - d * us_per_day));
      [lia|reflexivity]. }
  split; [apply Hrej|]. split; [apply Hpass|]. split.
  - intros Hhour. apply (Hrej _ 7); [reflexivity|].
    rewrite Hhour. unfold us_per_hour, us_per_day. lia.
  - intros c Hc Hnow Hvalid Hten.
    rewrite (Hpass _ 7); [|reflexivity|done| |].
    + unfold should_archive.
      rewrite (should_archive_checks_chain _ _ _ _ _ _ Hstat Hm Hc).
      reflexivity.
    + unfold valid_datetime, us_per_day in *. lia.
    + rewrite Hten. unfold us_per_day. lia.
Qed.

(** X22. The [created_days] check reads [st_ctime]: a file whose [st_ctime]
    is more recent than [now - created_days] days is rejected, and a file
    whose metadata is read and whose [st_ctime] is at or before that
    threshold passes the check. *)
Theorem created_recency_reads_st_ctime filepath info fl stat c days :
  f_stat info = Ok stat ->
  fromtimestamp (st_ctime stat) = Ok c ->
  (created_days fl = Some days ->
   c > f_now_created info - days * us_per_day ->
   fst (should_archive re_search filepath info fl) = false) /\
  (created_days fl = Some days ->
   valid_datetime (f_now_created info) ->
   valid_datetime (f_now_created info - days * us_per_day) ->
   c <= f_now_created info - days * us_per_day ->
   should_archive re_search filepath info fl
   = should_archive re_search filepath info (without_created fl)).
Proof.
  intros Hstat Hc. split.
  - intros Hd Hrecent.
    apply (should_archive_rejects_at ByCreated _ _ _ _ Hstat).
    + unfold evaluation_order. set_solver.
    + cbn [check_alone]. rewrite Hd, Hc.
      destruct (cutoff _ days) as [t|e] eqn:Hcut; [|discriminate].
      apply cutoff_value in Hcut as ->.
      destruct (bool_decide_reflect
                  (c > f_now_created info - days * us_per_day));
        [discriminate|contradiction].
  - intros Hd Hnow Hcut Hold. apply should_archive_without.
    intros stat' k Hstat' _. assert (stat' = stat) as -> by congruence.
    destruct k; try reflexivity.
    cbn [check_alone without_created created_days]. rewrite Hd, Hc.
    rewrite (cutoff_valid _ _ Hnow Hcut).
    destruct (bool_decide_reflect
                (c > f_now_created info - days * us_per_day));
      [lia|reflexivity].
Qed.

(** X23. The two times of a file are converted whether or not a recency
    constraint is configured: when the extension and the sizes pass and a
    time cannot be converted, the file is rejected with an ERROR record,
    whatever the other constraints are. *)
Theorem unconvertible_time_is_error filepath info fl stat e :
  f_stat info = Ok stat ->
  check_alone re_search ByExtension filepath stat info fl = Next tt ->
  check_alone re_search ByMaxSize filepath stat info fl = Next tt ->
  check_alone re_search ByMinSize filepath stat info fl = Next tt ->
  (fromtimestamp (st_mtime stat) = Raise e ->
   should_archive re_search filepath info fl
   = (false, [filter_event filepath ERROR (MsgCheckFailed e)])) /\
  (forall m,
      fromtimestamp (st_mtime stat) = Ok m ->
      fromtimestamp (st_ctime stat) = Raise e ->
      should_archive re_search filepath info fl
      = (false, [filter_event filepath ERROR (MsgCheckFailed e)])).
Proof.
  intros Hstat E1 E2 E3. unfold should_archive.
  rewrite (should_archive_checks_order _ _ _ _ Hstat).
  unfold checks_in_order. rewrite E1, E2, E3. cbn [mbind Eval_bind].
  split.
  - intros ->. reflexivity.
  - intros m -> ->. reflexivity.
Qed.

(** *** Errors during evaluation *)

(** C6 (amended). A malformed [size_limit] or [min_size] makes [parse_size]
    raise [ValueError] to its caller, [should_archive], which catches it:
    when the evaluation reaches that size check, the file is rejected and
    the audit record has status ERROR and carries the exception. *)
Theorem size_error_is_caught filepath info fl stat limit :
  f_stat info = Ok stat ->
  limit <> "" ->
  int_of_text (SizeParserSpec.remaining_text limit) = None ->
  parse_size limit = Raise ValueError /\
  (size_limit fl = Some limit ->
   check_alone re_search ByExtension filepath stat info fl = Next tt ->
   should_archive re_search filepath info fl
   = (false, [filter_event filepath ERROR (MsgCheckFailed ValueError)])) /\
  (min_size fl = Some limit ->
   check_alone re_search ByExtension filepath stat info fl = Next tt ->
   check_alone re_search ByMaxSize filepath stat info fl = Next tt ->
   should_archive re_search filepath info fl
   = (false, [filter_event filepath ERROR (MsgCheckFailed ValueError)])).
Proof.
  intros Hstat Hne Hbad.
  pose proof (parse_size_malformed limit Hne Hbad) as Hraise.
  split; [exact Hraise|]. unfold should_archive.
  rewrite (should_archive_checks_order _ _ _ _ Hstat).
  unfold checks_in_order.
  split.
  - intros Hlimit ->. cbn [check_alone mbind Eval_bind].
    rewrite Hlimit, Hraise. reflexivity.
  - intros Hlimit -> ->. cbn [check_alone mbind Eval_bind].
    rewrite Hlimit, Hraise. reflexivity.
Qed.

(** C7. When [os.stat] raises, [should_archive] returns [False] and logs one
    FILTER_CHECK record with status ERROR; a rejection by a constraint is
    logged with status SKIPPED, a different status; [archive_folder] counts
    the file as skipped and leaves it where it is. *)
Theorem unreadable_metadata_is_error filepath info fl e :
  f_stat info = Raise e ->
  should_archive re_search filepath info fl
  = (false, [filter_event filepath ERROR (MsgCheckFailed e)]) /\
  ERROR <> SKIPPED /\
  (forall info' fl' reason,
      should_archive_checks re_search filepath info' fl' = Reject reason ->
      should_archive re_search filepath info' fl'
      = (false, [filter_event filepath SKIPPED reason])) /\
  (forall source_path archive_name config filename s,
      folder s !! filename = Some (File info) ->
      dry_run config = false ->
      process_entry re_search source_path archive_name config filename s
      = {| processed := processed s; skipped := S (skipped s);
           failed := failed s;
           audit := audit s
             ++ [filter_event (os_path_join source_path filename) ERROR
                   (MsgCheckFailed e)];
           applog := applog s; folder := folder s |}).
Proof.
  intros Hstat.
  assert (Herr : forall path fl',
            should_archive re_search path info fl'
            = (false, [filter_event path ERROR (MsgCheckFailed e)])).
  { intros path fl'. unfold should_archive, should_archive_checks.
    rewrite Hstat. reflexivity. }
  repeat split.
  - apply Herr.
  - discriminate.
  - intros info' fl' reason Hrej. unfold should_archive. now rewrite Hrej.
  - intros source_path archive_name config filename s Hfile Hdry.
    unfold process_entry. rewrite Hfile, Hdry, Herr. reflexivity.
Qed.


(** ** ArchiveOrchestrator *)

Lemma should_archive_accepts filepath info fl :
  fst (should_archive re_search filepath info fl) = true ->
  should_archive re_search filepath info fl = (true, []).
Proof.
  unfold should_archive.
  destruct (should_archive_checks _ _ _ _) as [[]|m|e]; cbn; congruence.
Qed.

(** How [shutil.move] ends: the file is moved, or it stays and the archive
    directory may have received its copy. *)
Lemma shutil_move_cases filename archive_name info (fs : gmap string Node) :
  match shutil_move filename archive_name info fs with
  | (None, fs') =>
      f_move info = None /\
      exists files,
        fs !! archive_name = Some (Dir files) /\
        fs' = <[archive_name := Dir (<[filename := info]> files)]>
                (delete filename fs)
  | (Some e, fs') =>
      fs' = fs \/
      exists files,
        fs !! archive_name = Some (Dir files) /\
        fs' = <[archive_name := Dir (<[filename := info]> files)]> fs
  end.
Proof.
  unfold shutil_move. destruct (f_move info) as [e|].
  - destruct (fs !! archive_name) as [[| files |]|]; try (now left).
    destruct (f_move_leaves_copy info); [right; eauto|now left].
  - destruct (fs !! archive_name) as [[| files |]|]; try (now left).
    split; [reflexivity|eauto].
Qed.

(** One iteration counts a regular file once, in one counter, and ignores
    any other entry. *)
Lemma process_entry_counts source_path archive_name config filename s :
  let s' := process_entry re_search source_path archive_name config filename s in
  match folder s !! filename with
  | Some (File _) =>
      counters s' = (S (processed s), skipped s, failed s) \/
      counters s' = (processed s, S (skipped s), failed s) \/
      counters s' = (processed s, skipped s, S (failed s))
  | _ => s' = s
  end.
Proof.
  unfold process_entry, counters.
  destruct (folder s !! filename) as [[info| |]|]; try reflexivity.
  destruct (dry_run config); [left; reflexivity|].
  destruct (should_archive _ _ _ _) as [[] events].
  - destruct (shutil_move _ _ _ _) as [[e|] fs'];
      [right; right|left]; reflexivity.
  - right; left; reflexivity.
Qed.

Lemma process_entry_total source_path archive_name config filename s :
  total (process_entry re_search source_path archive_name config filename s)
  = (total s + files_in (folder s) [filename])%nat.
Proof.
  pose proof (process_entry_counts source_path archive_name config filename s)
    as H. cbv zeta in H. unfold files_in, total, counters in *.
  cbn [List.filter].
  destruct (folder s !! filename) as [[info| |]|]; cbn [is_file length];
    try (rewrite H; lia).
  destruct H as [H|[H|H]]; injection H as -> -> ->; lia.
Qed.

Lemma process_entry_mono source_path archive_name config filename s :
  let s' := process_entry re_search source_path archive_name config filename s in
  (processed s <= processed s' /\ skipped s <= skipped s'
   /\ failed s <= failed s')%nat.
Proof.
  pose proof (process_entry_counts source_path archive_name config filename s)
    as H. cbv zeta in *. unfold counters in *.
  destruct (folder s !! filename) as [[info| |]|]; try (rewrite H; lia).
  destruct H as [H|[H|H]]; injection H as -> -> ->; lia.
Qed.

(** One iteration changes the kind of no other entry: a moved file leaves
    its own name, and the archive directory stays a directory. *)
Lemma process_entry_other source_path archive_name config filename s other :
  other <> filename ->
  is_file (folder (process_entry re_search source_path archive_name config
                     filename s) !! other)
  = is_file (folder s !! other).
Proof.
  intros Hne. unfold process_entry.
  destruct (folder s !! filename) as [[info| |]|]; try reflexivity.
  destruct (dry_run config); [reflexivity|].
  destruct (should_archive _ _ _ _) as [[] events]; [|reflexivity].
  pose proof (shutil_move_cases filename archive_name info (folder s)) as Hmove.
  destruct (shutil_move _ _ _ _) as [[e|] fs']; cbn [folder].
  - destruct Hmove as [->|(files & Harch & ->)]; [reflexivity|].
    destruct (decide (archive_name = other)) as [->|Hne'].
    + rewrite lookup_insert_eq, Harch. reflexivity.
    + now rewrite lookup_insert_ne.
  - destruct Hmove as (_ & files & Harch & ->).
    destruct (decide (archive_name = other)) as [->|Hne'].
    + rewrite lookup_insert_eq, Harch. reflexivity.
    + rewrite lookup_insert_ne by done. rewrite lookup_delete_ne by done.
      reflexivity.
Qed.

Lemma files_in_other fs fs' names :
  (forall name, name ∈ names -> is_file (fs' !! name) = is_file (fs !! name)) ->
  files_in fs' names = files_in fs names.
Proof.
  unfold files_in. induction names as [|name names IH]; intros Hsame;
    [reflexivity|].
  cbn [List.filter]. rewrite (Hsame name) by apply list_elem_of_here.
  assert (length (List.filter (fun n => is_file (fs' !! n)) names)
          = length (List.filter (fun n => is_file (fs !! n)) names)) as Hlen.
  { apply IH. intros n Hin. apply Hsame. now apply list_elem_of_further. }
  destruct (is_file (fs !! name)); cbn [length]; now rewrite Hlen.
Qed.

Lemma archive_loop_app source_path archive_name config l1 l2 s :
  archive_loop re_search source_path archive_name config (l1 ++ l2) s
  = archive_loop re_search source_path archive_name config l2
      (archive_loop re_search source_path archive_name config l1 s).
Proof.
  revert s. induction l1 as [|x l1 IH]; intros s; [reflexivity|].
  cbn [app archive_loop]. apply IH.
Qed.

(** The loop counts every regular file of the listing exactly once. *)
Lemma archive_loop_total source_path archive_name config names s :
  NoDup names ->
  total (archive_loop re_search source_path archive_name config names s)
  = (total s + files_in (folder s) names)%nat.
Proof.
  intros Hnodup. revert s.
  induction Hnodup as [|name names Hnotin Hnodup IH]; intros s.
  - unfold files_in. cbn. lia.
  - cbn [archive_loop]. rewrite IH, process_entry_total.
    rewrite (files_in_other (folder s)
               (folder (process_entry re_search source_path archive_name
                          config name s)) names).
    + unfold files_in. cbn [List.filter].
      destruct (is_file (folder s !! name)); cbn [length]; lia.
    + intros other Hin. apply process_entry_other. congruence.
Qed.

Lemma archive_loop_mono source_path archive_name config names s :
  let s' := archive_loop re_search source_path archive_name config names s in
  (processed s <= processed s' /\ skipped s <= skipped s'
   /\ failed s <= failed s')%nat.
Proof.
  cbv zeta. revert s. induction names as [|name names IH]; intros s.
  - cbn. lia.
  - cbn [archive_loop].
    pose proof (process_entry_mono source_path archive_name config name s) as H1.
    pose proof (IH (process_entry re_search source_path archive_name config
                      name s)) as H2.
    cbv zeta in H1. lia.
Qed.

Lemma NoDup_os_listdir (fs : gmap string Node) : NoDup (os_listdir fs).
Proof. apply NoDup_fst_map_to_list. Qed.

Lemma files_in_entries (fs : gmap string Node) (entries : list (string * Node)) :
  (forall name node, (name, node) ∈ entries -> fs !! name = Some node) ->
  files_in fs entries.*1
  = length (List.filter (fun entry : string * Node => is_file (Some (snd entry)))
              entries).
Proof.
  unfold files_in. induction entries as [|[name node] entries IH];
    intros Hlookup; [reflexivity|].
  cbn [fmap list_fmap List.filter fst snd].
  rewrite (Hlookup name node) by apply list_elem_of_here.
  assert (length (List.filter (fun n => is_file (fs !! n)) entries.*1)
          = length (List.filter
                      (fun entry : string * Node => is_file (Some (snd entry)))
                      entries)) as Hlen.
  { apply IH. intros n v Hin. apply Hlookup. now apply list_elem_of_further. }
  destruct (is_file (Some node)); cbn [length]; now rewrite Hlen.
Qed.

Lemma files_in_listdir (fs : gmap string Node) :
  files_in fs (os_listdir fs) = regular_files fs.
Proof.
  unfold os_listdir, regular_files. apply files_in_entries.
  intros name node Hin. now apply elem_of_map_to_list.
Qed.

Lemma filter_length_Permutation {A : Type} (f : A -> bool) (l l' : list A) :
  l ≡ₚ l' -> length (List.filter f l) = length (List.filter f l').
Proof.
  induction 1 as [|x l l' _ IH|x y l|l l' l'' _ IH1 _ IH2]; cbn [List.filter].
  - reflexivity.
  - destruct (f x); cbn [length]; now rewrite IH.
  - destruct (f x), (f y); reflexivity.
  - now rewrite IH1.
Qed.

(** [os.makedirs] adds at most the archive directory: every other child,
    and the number of regular files, stay. *)
Lemma os_makedirs_adds_directory archive_name denied (fs fs1 : gmap string Node) :
  os_makedirs archive_name denied fs = Ok fs1 ->
  (fs1 = fs \/ (fs !! archive_name = None /\ fs1 = <[archive_name := Dir ∅]> fs))
  /\ regular_files fs1 = regular_files fs.
Proof.
  unfold os_makedirs. destruct denied; [discriminate|].
  destruct (fs !! archive_name) as [[| |]|] eqn:Hlookup; try discriminate;
    intros [= <-].
  - split; [now left|reflexivity].
  - split; [right; now split|].
    unfold regular_files.
    rewrite (filter_length_Permutation _ _ _
               (map_to_list_insert fs archive_name (Dir ∅) Hlookup)).
    reflexivity.
Qed.

(** In dry-run mode the loop only counts and writes to the application
    log. *)
Lemma archive_loop_dry_run source_path archive_name config names s :
  dry_run config = true ->
  let s' := archive_loop re_search source_path archive_name config names s in
  processed s' = (processed s + files_in (folder s) names)%nat /\
  skipped s' = skipped s /\ failed s' = failed s /\
  audit s' = audit s /\ folder s' = folder s.
Proof.
  intros Hdry. cbv zeta. revert s.
  induction names as [|name names IH]; intros s.
  - unfold files_in. cbn. repeat split; lia.
  - cbn [archive_loop].
    destruct (IH (process_entry re_search source_path archive_name config
                    name s)) as (Hp & Hs & Hf & Ha & Hfs).
    rewrite Hp, Hs, Hf, Ha, Hfs. clear IH Hp Hs Hf Ha Hfs.
    unfold files_in, process_entry. cbn [List.filter]. rewrite Hdry.
    destruct (folder s !! name) as [[info| |]|]; cbn [is_file length processed
      skipped failed audit folder]; repeat split; lia.
Qed.

(** C1 (amended). In dry-run mode [archive_folder] consults no filter: it
    counts every regular file of the folder as processed, whatever the
    filters are, skips and fails none, logs no FILTER_CHECK or FILE_MOVE
    record, and leaves the folder as [os.makedirs] left it, that is with
    every file in place and at most the archive directory added. *)
Theorem dry_run_counts_every_regular_file source_path fl w fs fs1 :
  w_source w = Some fs ->
  os_makedirs (w_timestamp w) (w_makedirs_denied w) fs = Ok fs1 ->
  let run := archive_folder re_search source_path
               {| dry_run := true; filters := fl |} w in
  run_counters run = Some (regular_files fs, 0, 0)%nat /\
  run_source run = Some fs1 /\
  (fs1 = fs \/
   (fs !! w_timestamp w = None /\ fs1 = <[w_timestamp w := Dir ∅]> fs)) /\
  run_audit run
  = [folder_event FOLDER_START source_path STARTED MsgFolderStart;
     folder_event FOLDER_CREATE (os_path_join source_path (w_timestamp w))
       SUCCESS MsgArchiveDirCreated;
     folder_event FOLDER_COMPLETE source_path COMPLETED
       (MsgSummary (regular_files fs) 0 0)] /\
  run_success run = true.
Proof.
  intros Hsrc Hmk. cbv zeta. unfold archive_folder. rewrite Hsrc, Hmk.
  cbn [run_counters run_source run_audit run_success].
  destruct (os_makedirs_adds_directory _ _ _ _ Hmk) as [Hshape Hfiles].
  destruct (archive_loop_dry_run source_path (w_timestamp w)
              {| dry_run := true; filters := fl |} (os_listdir fs1)
              (initial_state source_path
                 (os_path_join source_path (w_timestamp w)) fs1) eq_refl)
    as (Hp & Hs & Hf & Ha & Hfs).
  rewrite Hp, Hs, Hf, Ha, Hfs. cbn [initial_state processed skipped failed
    audit folder]. rewrite files_in_listdir, Hfiles. cbn [Nat.add].
  repeat split; try reflexivity; [exact Hshape|].
  apply orb_true_r.
Qed.

(** C5. A run of [archive_folder] that reaches the loop returns
    [processed > 0 or failed == 0]: a folder whose files are all skipped is a
    success, and the run fails only when a file failed and none was
    archived. *)
Theorem folder_success_predicate source_path config w p s f :
  run_counters (archive_folder re_search source_path config w) = Some (p, s, f) ->
  let success := run_success (archive_folder re_search source_path config w) in
  (success = true <-> (p > 0 \/ f = 0)%nat) /\
  ((s > 0)%nat -> p = 0%nat -> f = 0%nat -> success = true) /\
  (success = false -> (f > 0)%nat /\ p = 0%nat).
Proof.
  unfold archive_folder.
  destruct (w_source w) as [fs|]; [|discriminate].
  destruct (os_makedirs _ _ fs) as [fs1|e]; [|discriminate].
  cbn [run_counters run_success]. intros [= <- <- <-].
  set (st := archive_loop _ _ _ _ _ _). cbv zeta.
  destruct (Nat.ltb_spec 0 (processed st)) as [Hpos|Hzero];
    destruct (Nat.eqb_spec (failed st) 0) as [Hnone|Hsome];
    cbn [orb]; repeat split; intros; try lia; try discriminate; auto.
Qed.

(** The audit log only grows. *)
Lemma process_entry_audit_extends source_path archive_name config filename s :
  exists more,
    audit (process_entry re_search source_path archive_name config filename s)
    = (audit s ++ more)%list.
Proof.
  unfold process_entry.
  destruct (folder s !! filename) as [[info| |]|];
    try (exists []; now rewrite List.app_nil_r).
  destruct (dry_run config);
    [exists []; cbn [audit]; now rewrite List.app_nil_r|].
  destruct (should_archive _ _ _ _) as [[] events].
  - destruct (shutil_move _ _ _ _) as [[e|] fs']; cbn [audit]; eauto.
  - cbn [audit]; eauto.
Qed.

Lemma archive_loop_audit_extends source_path archive_name config names s :
  exists more,
    audit (archive_loop re_search source_path archive_name config names s)
    = (audit s ++ more)%list.
Proof.
  revert s. induction names as [|name names IH]; intros s.
  - exists []. cbn [archive_loop]. now rewrite List.app_nil_r.
  - cbn [archive_loop].
    destruct (IH (process_entry re_search source_path archive_name config
                    name s)) as [later Hlater].
    destruct (process_entry_audit_extends source_path archive_name config
                name s) as [first Hfirst].
    exists (first ++ later)%list. rewrite Hlater, Hfirst.
    now rewrite <- List.app_assoc.
Qed.

(** The loop changes the kind of no entry whose name it does not visit. *)
Lemma archive_loop_other source_path archive_name config names s other :
  other ∉ names ->
  is_file (folder (archive_loop re_search source_path archive_name config
                     names s) !! other)
  = is_file (folder s !! other).
Proof.
  revert s. induction names as [|name names IH]; intros s Hnotin;
    [reflexivity|].
  cbn [archive_loop]. rewrite IH.
  - apply process_entry_other. intros ->. apply Hnotin, list_elem_of_here.
  - intros Hin. apply Hnotin. now apply list_elem_of_further.
Qed.

(** C9. When the move of an accepted file raises during a run of
    [archive_folder], the iteration adds one to [failed], logs a FILE_MOVE
    record with status FAILED and leaves the other counters as they were,
    and the loop goes on, whatever the failed move left of the folder: the
    counters, the audit log and the folder that the run returns are those
    of the loop over the names that follow, every regular file among them
    is counted, the FAILED record and the raised count are in the result,
    and the run ends with its FOLDER_COMPLETE record. *)
Theorem move_failure_counts_and_continues
    source_path config w fs fs1 before filename after info e fs' :
  let archive_name := w_timestamp w in
  let loop := archive_loop re_search source_path archive_name config in
  let filepath := os_path_join source_path filename in
  let s := loop before
             (initial_state source_path
                (os_path_join source_path archive_name) fs1) in
  let s' := {| processed := processed s; skipped := skipped s;
               failed := S (failed s);
               audit := audit s ++ [move_event filepath FAILED (MsgMoveFailed e)];
               applog := applog s ++ [LogFileFailed filename e];
               folder := fs' |} in
  let run := archive_folder re_search source_path config w in
  w_source w = Some fs ->
  os_makedirs archive_name (w_makedirs_denied w) fs = Ok fs1 ->
  os_listdir fs1 = (before ++ filename :: after)%list ->
  dry_run config = false ->
  folder s !! filename = Some (File info) ->
  fst (should_archive re_search filepath info (filters config)) = true ->
  shutil_move filename archive_name info (folder s) = (Some e, fs') ->
  process_entry re_search source_path archive_name config filename s = s' /\
  run_counters run = Some (counters (loop after s')) /\
  run_audit run
  = (audit (loop after s')
     ++ [folder_event FOLDER_COMPLETE source_path COMPLETED
           (MsgSummary (processed (loop after s')) (skipped (loop after s'))
              (failed (loop after s')))])%list /\
  run_source run = Some (folder (loop after s')) /\
  run_success run = (0 <? processed (loop after s'))%nat /\
  move_event filepath FAILED (MsgMoveFailed e) ∈ run_audit run /\
  (failed s < failed (loop after s'))%nat /\
  total (loop after s') = (total s + 1 + files_in fs1 after)%nat.
Proof.
  cbv zeta. intros Hsrc Hmk Hlist Hdry Hfile Haccept Hmove.
  pose proof (NoDup_os_listdir fs1) as Hnodup. rewrite Hlist in Hnodup.
  apply NoDup_app in Hnodup as (Hbefore & Hdisjoint & Hrest).
  apply NoDup_cons in Hrest as [Hnotin Hafter].
  remember (initial_state source_path
              (os_path_join source_path (w_timestamp w)) fs1) as s0 eqn:Hs0.
  remember (archive_loop re_search source_path (w_timestamp w) config
              before s0) as s eqn:Hs.
  remember {| processed := processed s; skipped := skipped s;
              failed := S (failed s);
              audit := audit s
                ++ [move_event (os_path_join source_path filename) FAILED
                      (MsgMoveFailed e)];
              applog := applog s ++ [LogFileFailed filename e];
              folder := fs' |} as s' eqn:Hs'.
  assert (Hstep : process_entry re_search source_path (w_timestamp w) config
                    filename s = s').
  { unfold process_entry.
    rewrite Hfile, Hdry, (should_archive_accepts _ _ _ Haccept), Hmove.
    subst s'. reflexivity. }
  assert (Hloop : archive_loop re_search source_path (w_timestamp w) config
                    (os_listdir fs1) s0
                  = archive_loop re_search source_path (w_timestamp w) config
                      after s').
  { rewrite Hlist, archive_loop_app. cbn [archive_loop].
    now rewrite <- Hs, Hstep. }
  pose proof (archive_loop_mono source_path (w_timestamp w) config after s')
    as Hmono. cbv zeta in Hmono.
  assert (Hfailed : failed s' = S (failed s)) by (subst s'; reflexivity).
  assert (Hkinds : files_in fs' after = files_in fs1 after).
  { apply files_in_other. intros name Hin.
    assert (Hne : name <> filename) by congruence.
    pose proof (process_entry_other source_path (w_timestamp w) config
                  filename s name Hne) as Hone.
    rewrite Hstep in Hone. replace (folder s') with fs' in Hone
      by (subst s'; reflexivity).
    rewrite Hone, Hs.
    rewrite archive_loop_other; [subst s0; reflexivity|].
    intros Hin'. apply (Hdisjoint name Hin'). now apply list_elem_of_further. }
  split; [exact Hstep|].
  unfold archive_folder. rewrite Hsrc, Hmk.
  cbn [run_counters run_audit run_source run_success]. rewrite <- Hs0, Hloop.
  split; [reflexivity|]. split; [reflexivity|]. split; [reflexivity|].
  split.
  { destruct (Nat.eqb_spec
                (failed (archive_loop re_search source_path (w_timestamp w)
                           config after s')) 0) as [Hzero|_];
      [lia|apply orb_false_r]. }
  split.
  { destruct (archive_loop_audit_extends source_path (w_timestamp w) config
                after s') as [more ->].
    subst s'. cbn [audit].
    apply elem_of_app; left. apply elem_of_app; left.
    apply elem_of_app; right. apply list_elem_of_here. }
  split; [lia|].
  rewrite archive_loop_total by exact Hafter.
  replace (folder s') with fs' by (subst s'; reflexivity).
  rewrite Hkinds. subst s'. unfold total. cbn [processed skipped failed]. lia.
Qed.

(** C10. Every regular file among the direct children of the source folder
    adds one to exactly one of [processed], [skipped], [failed], and any
    other entry adds nothing: at the end the three counters sum to the
    number of regular files of the folder, and no counter ever decreases
    while the listing is processed. *)
Theorem counters_partition_regular_files source_path config w fs fs1 :
  w_source w = Some fs ->
  os_makedirs (w_timestamp w) (w_makedirs_denied w) fs = Ok fs1 ->
  let step := process_entry re_search source_path (w_timestamp w) config in
  let loop := archive_loop re_search source_path (w_timestamp w) config in
  let s0 := initial_state source_path
              (os_path_join source_path (w_timestamp w)) fs1 in
  (exists p s f,
      run_counters (archive_folder re_search source_path config w)
      = Some (p, s, f) /\
      (p + s + f)%nat = regular_files fs /\
      regular_files fs = files_in fs1 (os_listdir fs1)) /\
  (forall filename s,
      match folder s !! filename with
      | Some (File _) =>
          counters (step filename s) = (S (processed s), skipped s, failed s) \/
          counters (step filename s) = (processed s, S (skipped s), failed s) \/
          counters (step filename s) = (processed s, skipped s, S (failed s))
      | _ => step filename s = s
      end) /\
  (forall done todo,
      os_listdir fs1 = (done ++ todo)%list ->
      (processed (loop done s0) <= processed (loop (done ++ todo)%list s0) /\
       skipped (loop done s0) <= skipped (loop (done ++ todo)%list s0) /\
       failed (loop done s0) <= failed (loop (done ++ todo)%list s0))%nat).
Proof.
  intros Hsrc Hmk. cbv zeta.
  destruct (os_makedirs_adds_directory _ _ _ _ Hmk) as [_ Hfiles].
  split; [|split].
  - unfold archive_folder. rewrite Hsrc, Hmk. cbn [run_counters].
    eexists _, _, _. split; [reflexivity|].
    rewrite files_in_listdir, Hfiles. split; [|reflexivity].
    pose proof (archive_loop_total source_path (w_timestamp w) config
                  (os_listdir fs1)
                  (initial_state source_path
                     (os_path_join source_path (w_timestamp w)) fs1)
                  (NoDup_os_listdir fs1)) as Htotal.
    unfold total in Htotal. rewrite Htotal.
    cbn [initial_state processed skipped failed folder].
    rewrite files_in_listdir, Hfiles. reflexivity.
  - intros filename s. apply process_entry_counts.
  - intros done todo _. rewrite archive_loop_app. apply archive_loop_mono.
Qed.

End Properties.

(** ** The properties on the sample folder *)

Example sample_real_run :
  run_counters (archive_folder Sample.re_any "/data"
                  {| dry_run := false; filters := Sample.txt_only |}
                  Sample.world)
  = Some (3, 2, 0)%nat.
Proof. vm_compute. reflexivity. Qed.

(** C1, as stated, fails: the filters admit three of the five regular files
    of the sample folder, and the dry run reports five processed files. *)
Lemma dry_run_reports_unfiltered_count :
  regular_files Sample.downloads = 5%nat /\
  accepted_files Sample.re_any "/data" Sample.txt_only Sample.downloads = 3%nat /\
  run_counters (archive_folder Sample.re_any "/data"
                  {| dry_run := true; filters := Sample.txt_only |}
                  Sample.world)
  = Some (5, 0, 0)%nat.
Proof. repeat split; vm_compute; reflexivity. Qed.

(** C6, as stated, fails: the malformed limit [10XB] makes [parse_size]
    raise, and [should_archive] turns the exception into a rejection with an
    ERROR record; [archive_folder] counts the five files as skipped and
    reports success. *)
Lemma malformed_limit_becomes_rejection :
  parse_size "10XB" = Raise ValueError /\
  should_archive Sample.re_any "/data/a.txt" (Sample.info 1 Sample.ten_days)
    Sample.bad_limit
  = (false, [filter_event "/data/a.txt" ERROR (MsgCheckFailed ValueError)]) /\
  run_counters (archive_folder Sample.re_any "/data"
                  {| dry_run := false; filters := Sample.bad_limit |}
                  Sample.world)
  = Some (0, 5, 0)%nat /\
  run_success (archive_folder Sample.re_any "/data"
                 {| dry_run := false; filters := Sample.bad_limit |}
                 Sample.world)
  = true.
Proof. repeat split; vm_compute; reflexivity. Qed.



(** C4. The created-recency check does not use the time of creation. On
    POSIX, a file created and last written ten days ago whose permissions
    were changed one hour ago is rejected by [created_days = 7] as created
    within the last 7 days, although its creation is earlier than the
    threshold; the same file read on Windows, where [st_ctime] is the time
    of creation, is accepted. *)
Lemma created_recency_rejects_old_file :
  created_at Sample.touched_times = Sample.now - 10 * us_per_day /\
  created_at Sample.touched_times <= Sample.now - 7 * us_per_day /\
  cutoff Sample.now 7 = Ok (Sample.now - 7 * us_per_day) /\
  should_archive Sample.re_any "/data/t.txt" Sample.touched (created_only 7)
  = (false, [filter_event "/data/t.txt" SKIPPED (MsgCreatedWithin 7)]) /\
  should_archive Sample.re_any "/data/t.txt" Sample.touched (modified_only 7)
  = (true, []) /\
  should_archive Sample.re_any "/data/t.txt" Sample.touched_on_windows
    (created_only 7)
  = (true, []).
Proof.
  split; [reflexivity|]. split; [vm_compute; discriminate|].
  repeat split; vm_compute; reflexivity.
Qed.

(** [modified_recency_selects_older] with 7 days on a file modified ten days
    ago. *)
Lemma modified_recency_selects_older_witness :
  valid_datetime Sample.now /\
  valid_datetime (Sample.now - 10 * us_per_day) /\
  should_archive Sample.re_any "/data/a.txt" (Sample.info 5 Sample.ten_days)
    (modified_only 7)
  = (true, []).
Proof.
  assert (Hnow : valid_datetime Sample.now)
    by (unfold valid_datetime, max_datetime, Sample.now, us_per_day; lia).
  assert (Hfile : valid_datetime (Sample.now - 10 * us_per_day))
    by (unfold valid_datetime, max_datetime, Sample.now, us_per_day; lia).
  split; [exact Hnow|]. split; [exact Hfile|].
  apply (proj2 (proj2 (proj2
           (modified_recency_selects_older Sample.re_any "/data/a.txt"
              (Sample.info 5 Sample.ten_days) (modified_only 7)
              (Sample.stat 5 Sample.ten_days)
              (Sample.now - Sample.ten_days) 7 eq_refl eq_refl)))
           (Sample.now - Sample.ten_days)).
  - reflexivity.
  - exact Hnow.
  - exact Hfile.
  - reflexivity.
Defined.

(** [created_recency_reads_st_ctime] with 7 days on the file whose
    permissions were changed one hour ago. *)
Lemma created_recency_reads_st_ctime_witness :
  changed_at Sample.touched_times > Sample.now - 7 * us_per_day /\
  fst (should_archive Sample.re_any "/data/t.txt" Sample.touched
         (created_only 7))
  = false.
Proof.
  assert (Hrecent : changed_at Sample.touched_times
                    > Sample.now - 7 * us_per_day)
    by (vm_compute; reflexivity).
  split; [exact Hrecent|].
  apply (proj1 (created_recency_reads_st_ctime Sample.re_any "/data/t.txt"
                  Sample.touched (created_only 7)
                  (posix_stat 1 Sample.touched_times)
                  (changed_at Sample.touched_times) 7 eq_refl eq_refl));
    [reflexivity | exact Hrecent].
Defined.

(** [unconvertible_time_is_error] on a file whose modification time is
    beyond the year 9999, with no constraint at all. *)
Lemma unconvertible_time_is_error_witness :
  should_archive Sample.re_any "/data/f.txt" Sample.far_future no_filters
  = (false, [filter_event "/data/f.txt" ERROR (MsgCheckFailed ValueError)]).
Proof.
  apply (proj1 (unconvertible_time_is_error Sample.re_any "/data/f.txt"
                  Sample.far_future no_filters
                  {| st_size := 1; st_mtime := Raise ValueError;
                     st_ctime := Ok (Sample.now - 10 * us_per_day) |}
                  ValueError eq_refl eq_refl eq_refl eq_refl));
    reflexivity.
Defined.

(** [folder_success_predicate] on a run that skips every file. *)
Lemma folder_success_predicate_witness :
  run_counters (archive_folder Sample.re_any "/data"
                  {| dry_run := false; filters := Sample.pdf_only |}
                  Sample.world)
  = Some (0, 5, 0)%nat /\
  run_success (archive_folder Sample.re_any "/data"
                 {| dry_run := false; filters := Sample.pdf_only |}
                 Sample.world)
  = true.
Proof.
  assert (Hrun : run_counters (archive_folder Sample.re_any "/data"
                    {| dry_run := false; filters := Sample.pdf_only |}
                    Sample.world)
                 = Some (0, 5, 0)%nat) by (vm_compute; reflexivity).
  split; [exact Hrun|].
  apply (proj1 (proj2 (folder_success_predicate Sample.re_any "/data"
                         {| dry_run := false; filters := Sample.pdf_only |}
                         Sample.world 0 5 0 Hrun))); [lia|reflexivity..].
Defined.

(** [size_error_is_caught] on the limit [10XB]. *)
Lemma size_error_is_caught_witness :
  "10XB" <> "" /\
  int_of_text (SizeParserSpec.remaining_text "10XB") = None /\
  should_archive Sample.re_any "/data/a.txt" (Sample.info 1 Sample.ten_days)
    Sample.bad_limit
  = (false, [filter_event "/data/a.txt" ERROR (MsgCheckFailed ValueError)]).
Proof.
  assert (Hne : "10XB" <> "") by discriminate.
  assert (Hbad : int_of_text (SizeParserSpec.remaining_text "10XB") = None)
    by reflexivity.
  split; [exact Hne|]. split; [exact Hbad|].
  apply (proj1 (proj2 (size_error_is_caught Sample.re_any "/data/a.txt"
                         (Sample.info 1 Sample.ten_days) Sample.bad_limit
                         (Sample.stat 1 Sample.ten_days)
                         "10XB" eq_refl Hne Hbad))); reflexivity.
Defined.

(** [unreadable_metadata_is_error] on a file that vanished. *)
Lemma unreadable_metadata_is_error_witness :
  should_archive Sample.re_any "/data/gone.txt" Sample.vanished Sample.txt_only
  = (false, [filter_event "/data/gone.txt" ERROR (MsgCheckFailed OSError)]).
Proof.
  apply (proj1 (unreadable_metadata_is_error Sample.re_any "/data/gone.txt"
                  Sample.vanished Sample.txt_only OSError eq_refl)).
Defined.

(** [move_failure_counts_and_continues] on a folder whose file [busy.txt]
    cannot be moved: the run counts it as failed and archives the file
    before it and the file after it. *)
Lemma move_failure_counts_and_continues_witness :
  run_counters (archive_folder Sample.re_any "/data"
                  {| dry_run := false; filters := no_filters |}
                  Sample.guarded_world)
  = Some (2, 0, 1)%nat.
Proof.
  pose proof (move_failure_counts_and_continues Sample.re_any "/data"
                {| dry_run := false; filters := no_filters |}
                Sample.guarded_world Sample.guarded Sample.guarded
                ["a.txt"; Sample.timestamp] "busy.txt" ["b.txt"]
                Sample.locked OSError Sample.guarded_copied) as H.
  cbv zeta in H.
  destruct H as (_ & Hrun & _);
    [reflexivity | vm_compute; reflexivity | vm_compute; reflexivity
    | reflexivity | vm_compute; reflexivity | vm_compute; reflexivity
    | vm_compute; reflexivity |].
  rewrite Hrun. vm_compute. reflexivity.
Defined.

(** [counters_partition_regular_files] on the sample folder. *)
Lemma counters_partition_regular_files_witness :
  exists p s f,
    run_counters (archive_folder Sample.re_any "/data"
                    {| dry_run := false; filters := Sample.txt_only |}
                    Sample.world)
    = Some (p, s, f) /\
    (p + s + f)%nat = regular_files Sample.downloads.
Proof.
  assert (Hmk : os_makedirs (w_timestamp Sample.world)
                  (w_makedirs_denied Sample.world) Sample.downloads
                = Ok (<[Sample.timestamp := Dir ∅]> Sample.downloads))
    by (vm_compute; reflexivity).
  destruct (proj1 (counters_partition_regular_files Sample.re_any "/data"
                     {| dry_run := false; filters := Sample.txt_only |}
                     Sample.world Sample.downloads _ eq_refl Hmk))
    as (p & s & f & Hrun & Hsum & _).
  exists p, s, f. split; [exact Hrun | exact Hsum].
Defined.

(** [dry_run_counts_every_regular_file] on the sample folder. *)
Lemma dry_run_counts_every_regular_file_witness :
  run_counters (archive_folder Sample.re_any "/data"
                  {| dry_run := true; filters := Sample.txt_only |}
                  Sample.world)
  = Some (regular_files Sample.downloads, 0, 0)%nat.
Proof.
  assert (Hmk : os_makedirs (w_timestamp Sample.world)
                  (w_makedirs_denied Sample.world) Sample.downloads
                = Ok (<[Sample.timestamp := Dir ∅]> Sample.downloads))
    by (vm_compute; reflexivity).
  apply (proj1 (dry_run_counts_every_regular_file Sample.re_any "/data"
                  Sample.txt_only Sample.world Sample.downloads _ eq_refl Hmk)).
Defined.

(** * Further properties *)

(** ** Configuration *)

Example split_on_cases :
  map (split_on ",") [""; "a"; "a,b"; "a,"; ",a"; ",,"]
  = [[""]; ["a"]; ["a"; "b"]; ["a"; ""]; [""; "a"]; [""; ""; ""]].
Proof. reflexivity. Qed.

(** ** More on the size parser *)

(** X1. Input that is not empty and holds only whitespace is not read as
    "no size": [parse_size] raises [ValueError], while the empty string
    gives 0. *)
Theorem parse_size_blank_input input :
  input <> "" ->
  Text.all_chars Text.is_space input = true ->
  parse_size input = Raise ValueError /\ parse_size "" = Ok 0.
Proof.
  intros Hne Hblank. split; [|reflexivity].
  unfold parse_size. destruct input as [|c r]; [congruence|].
  cbn [Text.is_empty]. rewrite upper_strip. unfold Text.strip.
  now rewrite (lstrip_all_space _ Hblank).
Qed.

Lemma parse_size_blank_input_witness :
  parse_size "   " = Raise ValueError.
Proof.
  apply (proj1 (parse_size_blank_input "   " ltac:(discriminate) eq_refl)).
Defined.

(** X2. [parse_size] ignores the case of its input and the whitespace
    around it. *)
Theorem parse_size_ignores_case_and_padding left input right :
  input <> "" ->
  Text.all_chars Text.is_space left = true ->
  Text.all_chars Text.is_space right = true ->
  parse_size (left +:+ input +:+ right) = parse_size input /\
  parse_size (Text.lower input) = parse_size input /\
  parse_size (Text.upper input) = parse_size input.
Proof.
  intros Hne Hleft Hright.
  assert (He : Text.is_empty input = false)
    by (destruct input; [congruence | reflexivity]).
  split; [|split]; apply parse_size_normalised.
  - rewrite He. apply is_empty_app_r. now apply is_empty_app_l.
  - rewrite !upper_strip. f_equal. now apply strip_padding.
  - apply lower_is_empty.
  - now rewrite upper_lower.
  - apply upper_is_empty.
  - now rewrite upper_idempotent.
Qed.

Lemma parse_size_ignores_case_and_padding_witness :
  parse_size (" " +:+ "10mb" +:+ "  ") = parse_size "10mb" /\
  parse_size (Text.upper "10mb") = parse_size "10mb".
Proof.
  destruct (parse_size_ignores_case_and_padding " " "10mb" "  "
              ltac:(discriminate) eq_refl eq_refl) as (Hpad & _ & Hupper).
  split; [exact Hpad | exact Hupper].
Defined.

(** ** More on paths *)

Lemma rfind_app c (a b : string) :
  Text.rfind c (a +:+ b)
  = match Text.rfind c b with
    | Some i => Some (String.length a + i)%nat
    | None => Text.rfind c a
    end.
Proof.
  induction a as [|x a IH];
    [change ("" +:+ b) with b; destruct (Text.rfind c b); reflexivity|].
  change (Text.rfind c (String x (a +:+ b))
          = match Text.rfind c b with
            | Some i => Some (String.length (String x a) + i)%nat
            | None => Text.rfind c (String x a)
            end).
  cbn [Text.rfind String.length]. rewrite IH.
  destruct (Text.rfind c b); reflexivity.
Qed.

Lemma rfind_bound c s i : Text.rfind c s = Some i -> (i < String.length s)%nat.
Proof.
  revert i. induction s as [|x s IH]; intros i; [discriminate|].
  cbn [Text.rfind String.length].
  destruct (Text.rfind c s) as [j|].
  - intros [= <-]. specialize (IH j eq_refl). lia.
  - destruct (Ascii.eqb c x); [intros [= <-]; lia|discriminate].
Qed.

(** The last occurrence splits the text at a copy of the character. *)
Lemma rfind_split c s i :
  Text.rfind c s = Some i ->
  exists before after,
    s = before +:+ String c after /\ String.length before = i.
Proof.
  revert i. induction s as [|x s IH]; intros i; [discriminate|].
  cbn [Text.rfind]. destruct (Text.rfind c s) as [j|].
  - intros [= <-]. destruct (IH j eq_refl) as (before & after & -> & <-).
    now exists (String x before), after.
  - destruct (Ascii.eqb_spec c x) as [->|]; [|discriminate].
    intros [= <-]. now exists "", s.
Qed.

Lemma substring_shift (a s : string) k m :
  substring (String.length a + k) m (a +:+ s) = substring k m s.
Proof.
  induction a as [|x a IH]; [reflexivity|].
  change (substring (S (String.length a + k)) m (String x (a +:+ s))
          = substring k m s).
  cbn [substring]. exact IH.
Qed.

Lemma plain_name_no_leading_sep name :
  plain_name name -> starts_with_sep name = false.
Proof.
  unfold plain_name. destruct name as [|c r]; [reflexivity|].
  cbn [Text.rfind starts_with_sep].
  destruct (Text.rfind "/" r); [discriminate|].
  destruct (Ascii.eqb_spec "/" c) as [<-|Hne]; [discriminate|].
  intros _. destruct c as [[] [] [] [] [] [] [] []]; try reflexivity.
  now contradict Hne.
Qed.

(** A path made of a directory part, a separator and a plain name. *)
Lemma basename_after_sep dir name :
  plain_name name ->
  os_path_basename (dir +:+ String "/" name) = name.
Proof.
  unfold plain_name, os_path_basename, after_last_sep. intros Hplain.
  rewrite rfind_app. cbn [Text.rfind]. rewrite Hplain. cbn [Ascii.eqb Bool.eqb].
  rewrite Nat.add_0_r, length_app. cbn [String.length].
  replace (S (String.length dir)) with (String.length dir + 1)%nat by lia.
  replace (String.length dir + S (String.length name)
           - (String.length dir + 1))%nat
    with (String.length name) by lia.
  rewrite substring_shift. cbn [substring]. apply substring_whole.
Qed.

Lemma splitext_after_sep dir name :
  plain_name name ->
  splitext_ext (dir +:+ String "/" name) = splitext_ext name.
Proof.
  unfold plain_name, splitext_ext, after_last_sep. intros Hplain.
  rewrite !rfind_app. cbn [Text.rfind]. rewrite Hplain.
  cbn [Ascii.eqb Bool.eqb]. rewrite Nat.add_0_r.
  destruct (Text.rfind "." name) as [dot|] eqn:Hdot.
  - rewrite length_app. cbn [String.length].
    destruct (Nat.leb_spec (S (String.length dir))
                (String.length dir + S dot)) as [_|]; [|lia].
    cbn [Nat.leb]. rewrite !Nat.sub_0_r.
    replace (String.length dir + S dot - S (String.length dir))%nat
      with dot by lia.
    replace (String.length dir + S (String.length name)
             - (String.length dir + S dot))%nat
      with (String.length name - dot)%nat by lia.
    replace (S (String.length dir)) with (String.length dir + 1)%nat by lia.
    rewrite !substring_shift. cbn [substring]. reflexivity.
  - destruct (Text.rfind "." dir) as [dot|] eqn:Hdir; [|reflexivity].
    apply rfind_bound in Hdir.
    destruct (Nat.leb_spec (S (String.length dir)) dot); [lia|reflexivity].
Qed.

(** The path that [archive_folder] builds for an entry ends with the
    entry's name. *)
Lemma join_plain_name source_path name :
  plain_name name ->
  os_path_join source_path name = name \/
  exists dir, os_path_join source_path name = dir +:+ String "/" name.
Proof.
  intros Hplain. unfold os_path_join.
  rewrite (plain_name_no_leading_sep _ Hplain).
  destruct source_path as [|c r]; [now left|]. cbn [Text.is_empty orb].
  right. destruct (Text.endswith (String c r) "/") eqn:Hend.
  - apply endswith_spec in Hend as [dir ->]. exists dir.
    now rewrite append_assoc.
  - now exists (String c r).
Qed.

Example path_dots_in_folder :
  splitext_ext (os_path_join "/data.v1/in" "README") = "" /\
  os_path_basename (os_path_join "/data.v1/in/" "notes.txt") = "notes.txt".
Proof. split; reflexivity. Qed.

(** ** More on the filter engine *)

Lemma lower_char_dot c : Text.lower_char c = "."%char -> c = "."%char.
Proof. destruct c as [[] [] [] [] [] [] [] []]; cbv; congruence. Qed.

Lemma startswith_dot_lower e :
  Text.startswith (Text.lower e) "." = Text.startswith e ".".
Proof.
  destruct e as [|c r]; [reflexivity|].
  cbn [Text.lower Text.startswith]. rewrite !andb_true_r.
  destruct (Ascii.eqb_spec "." c) as [<-|Hne]; [reflexivity|].
  destruct (Ascii.eqb_spec "." (Text.lower_char c)) as [Heq|]; [|reflexivity].
  symmetry in Heq. apply lower_char_dot in Heq. congruence.
Qed.

(** The extension of a path is empty or begins with a dot. *)
Lemma splitext_ext_dot p :
  splitext_ext p = "" \/ Text.startswith (splitext_ext p) "." = true.
Proof.
  unfold splitext_ext. destruct (Text.rfind "." p) as [dot|] eqn:Hdot;
    [|now left].
  destruct (_ <=? _)%nat; [|now left].
  destruct (Text.all_chars _ _); [now left|right].
  destruct (rfind_split _ _ _ Hdot) as (before & after & -> & <-).
  rewrite length_app. cbn [String.length].
  replace (String.length before + S (String.length after)
           - String.length before)%nat
    with (S (String.length after)) by lia.
  rewrite <- (Nat.add_0_r (String.length before)) at 1.
  rewrite substring_shift. reflexivity.
Qed.

Lemma find_first {A : Type} (f : A -> bool) (pre : list A) x post :
  (forall y, y ∈ pre -> f y = false) ->
  f x = true ->
  List.find f (pre ++ x :: post) = Some x.
Proof.
  induction pre as [|y pre IH]; intros Hpre Hx; cbn [app List.find].
  - now rewrite Hx.
  - rewrite (Hpre y) by apply list_elem_of_here.
    apply IH; [|exact Hx]. intros z Hz. apply Hpre.
    now apply list_elem_of_further.
Qed.

Section MoreFilterEngine.

Variable re_search : string -> string -> Result bool.

Lemma first_failure_passes cs filepath stat info fl u :
  first_failure re_search cs filepath stat info fl = Next u ->
  forall c, c ∈ cs -> check_alone re_search c filepath stat info fl = Next tt.
Proof.
  induction cs as [|c0 cs IH]; intros Hall c Hin;
    [now apply elem_of_nil in Hin|].
  cbn [first_failure] in Hall.
  destruct (check_alone re_search c0 filepath stat info fl) as [[]| |] eqn:E;
    try discriminate.
  apply elem_of_cons in Hin as [->|Hin]; [exact E|now apply IH].
Qed.

Lemma should_archive_stat_raises filepath info fl e :
  f_stat info = Raise e ->
  fst (should_archive re_search filepath info fl) = false.
Proof.
  intros Hstat. unfold should_archive, should_archive_checks.
  now rewrite Hstat.
Qed.

(** A check that does not pass makes the decision [False], whether the
    metadata can be read or not. *)
Lemma should_archive_rejects_when c filepath info fl :
  c ∈ evaluation_order ->
  (forall stat, f_stat info = Ok stat ->
     check_alone re_search c filepath stat info fl <> Next tt) ->
  fst (should_archive re_search filepath info fl) = false.
Proof.
  intros Hin Hc. destruct (f_stat info) as [stat|e] eqn:Hstat.
  - apply (should_archive_rejects_at re_search c _ _ _ _ Hstat Hin).
    now apply Hc.
  - now apply (should_archive_stat_raises _ _ _ e).
Qed.

(** X3. [should_archive] returns [True] exactly when the metadata of the
    file can be read ([os.stat] succeeds and its two times convert to
    datetimes) and every constraint of the filter set, checked on its own,
    passes: the constraints are combined by a logical and, and a check that
    raises counts as a failure. *)
Theorem admitted_iff_all_constraints_hold filepath info fl :
  fst (should_archive re_search filepath info fl) = true <->
  exists stat m c,
    f_stat info = Ok stat /\
    fromtimestamp (st_mtime stat) = Ok m /\
    fromtimestamp (st_ctime stat) = Ok c /\
    forall k, k ∈ evaluation_order ->
      check_alone re_search k filepath stat info fl = Next tt.
Proof.
  split.
  - apply should_archive_accepted_inv.
  - intros (stat & m & c & Hstat & Hm & Hc & Hall). unfold should_archive.
    rewrite (should_archive_checks_chain _ _ _ _ _ _ _ Hstat Hm Hc).
    now rewrite (first_failure_all_pass _ _ _ _ _ _ Hall).
Qed.

Lemma exclude_match_rejects filepath info fl patterns pattern :
  exclude fl = Some patterns ->
  pattern ∈ patterns ->
  Text.contains pattern (os_path_basename filepath) = true ->
  fst (should_archive re_search filepath info fl) = false.
Proof.
  intros Hexcl Hin Hcontains.
  apply (should_archive_rejects_when ByExclude);
    [unfold evaluation_order; set_solver|].
  intros stat _. cbn [check_alone]. rewrite Hexcl.
  destruct (List.find _ patterns) as [p|] eqn:Hfind; [discriminate|].
  apply list_elem_of_In in Hin.
  pose proof (find_none _ _ Hfind _ Hin) as Hnone. cbv beta in Hnone.
  congruence.
Qed.

(** X4. A file whose name contains one of the exclude patterns is never
    archived; in particular an empty pattern excludes every file. When the
    metadata is read (the two times included) and the other constraints
    pass, the record names the first pattern of the list that the name
    contains. *)
Theorem exclude_pattern_rejects filepath info fl patterns :
  exclude fl = Some patterns ->
  (forall pattern,
      pattern ∈ patterns ->
      Text.contains pattern (os_path_basename filepath) = true ->
      fst (should_archive re_search filepath info fl) = false) /\
  ("" ∈ patterns ->
   fst (should_archive re_search filepath info fl) = false) /\
  (forall stat m c before pattern after,
      f_stat info = Ok stat ->
      fromtimestamp (st_mtime stat) = Ok m ->
      fromtimestamp (st_ctime stat) = Ok c ->
      (forall k, k ∈ evaluation_order -> k <> ByExclude ->
         check_alone re_search k filepath stat info fl = Next tt) ->
      patterns = (before ++ pattern :: after)%list ->
      (forall earlier, earlier ∈ before ->
         Text.contains earlier (os_path_basename filepath) = false) ->
      Text.contains pattern (os_path_basename filepath) = true ->
      should_archive re_search filepath info fl
      = (false, [filter_event filepath SKIPPED (MsgExcluded pattern)])).
Proof.
  intros Hexcl.
  assert (Hany : forall pattern,
            pattern ∈ patterns ->
            Text.contains pattern (os_path_basename filepath) = true ->
            fst (should_archive re_search filepath info fl) = false)
    by (intros pattern; now apply exclude_match_rejects).
  split; [exact Hany|]. split.
  - intros Hempty. apply (Hany "" Hempty).
    now destruct (os_path_basename filepath).
  - intros stat m c before pattern after Hstat Hm Hc Hothers -> Hbefore
      Hcontains.
    unfold should_archive.
    rewrite (should_archive_checks_chain _ _ _ _ _ _ _ Hstat Hm Hc).
    change evaluation_order
      with ([ByExtension; ByMaxSize; ByMinSize; ByModified; ByCreated;
             ByNamePattern] ++ ByExclude :: [])%list.
    rewrite first_failure_prefix.
    + cbn [check_alone]. rewrite Hexcl.
      rewrite (find_first _ _ _ _ Hbefore Hcontains). reflexivity.
    + intros k Hin. apply Hothers.
      * change evaluation_order
          with ([ByExtension; ByMaxSize; ByMinSize; ByModified; ByCreated;
                 ByNamePattern] ++ [ByExclude])%list.
        apply elem_of_app. now left.
      * intros ->.
        repeat (apply elem_of_cons in Hin as [Heq|Hin]; [discriminate|]).
        now apply elem_of_nil in Hin.
Qed.

(** X5. The extension check compares with the extension that
    [os.path.splitext] gives, which is empty or begins with a dot: when no
    configured extension begins with a dot, no file is archived. *)
Theorem extension_without_dot_rejects_all filepath info fl exts :
  extensions fl = Some exts ->
  (forall ext, ext ∈ exts -> Text.startswith ext "." = false) ->
  fst (should_archive re_search filepath info fl) = false.
Proof.
  intros Hexts Hnodot.
  apply (should_archive_rejects_when ByExtension);
    [unfold evaluation_order; set_solver|].
  intros stat _. cbn [check_alone]. rewrite Hexts. cbv zeta.
  destruct (Text.is_empty _) eqn:Hempty; [discriminate|].
  destruct (bool_decide_reflect
              (Text.lower (splitext_ext filepath) ∈ map Text.lower exts))
    as [Hin|]; [|discriminate].
  exfalso. apply list_elem_of_fmap in Hin as (ext & Heq & Hext).
  specialize (Hnodot ext Hext). rewrite <- startswith_dot_lower, <- Heq in Hnodot.
  rewrite startswith_dot_lower in Hnodot.
  destruct (splitext_ext_dot filepath) as [Hnone|Hdot].
  - rewrite Hnone in Hempty. discriminate.
  - congruence.
Qed.

(** X6. The decision on an entry of a folder depends on the entry's name
    and not on the path of the folder: the name that the regular expression
    and the exclude patterns see is the entry's name, and the extension is
    the one of the name, even when a directory of the path has a dot. *)
Theorem decision_ignores_folder_path source_path name info fl :
  plain_name name ->
  os_path_basename (os_path_join source_path name) = name /\
  splitext_ext (os_path_join source_path name) = splitext_ext name /\
  fst (should_archive re_search (os_path_join source_path name) info fl)
  = fst (should_archive re_search name info fl).
Proof.
  intros Hplain.
  assert (Hbase : os_path_basename (os_path_join source_path name)
                  = os_path_basename name
                  /\ splitext_ext (os_path_join source_path name)
                     = splitext_ext name
                  /\ os_path_basename name = name).
  { assert (Hname : os_path_basename name = name).
    { unfold os_path_basename, after_last_sep. unfold plain_name in Hplain.
      rewrite Hplain, Nat.sub_0_r. apply substring_whole. }
    destruct (join_plain_name source_path name Hplain) as [->|[dir ->]];
      [easy|].
    rewrite (basename_after_sep _ _ Hplain), (splitext_after_sep _ _ Hplain).
    now rewrite Hname. }
  destruct Hbase as (Hbase & Hext & Hname).
  split; [congruence|]. split; [exact Hext|].
  unfold should_archive, should_archive_checks. rewrite Hbase, Hext.
  destruct (f_stat info) as [stat|e]; [|reflexivity].
  cbn [call]. rewrite !eval_next. cbv beta zeta.
  match goal with
  | |- fst (match ?X with _ => _ end) = fst (match ?Y with _ => _ end) =>
      change Y with X; destruct X as [[]| |]; reflexivity
  end.
Qed.

End MoreFilterEngine.

Lemma admitted_iff_all_constraints_hold_witness :
  fst (should_archive Sample.re_any "/data/a.txt"
         (Sample.info 1 Sample.ten_days) Sample.txt_only) = true.
Proof.
  apply (proj2 (admitted_iff_all_constraints_hold Sample.re_any "/data/a.txt"
                  (Sample.info 1 Sample.ten_days) Sample.txt_only)).
  exists (Sample.stat 1 Sample.ten_days), (Sample.now - Sample.ten_days),
    (Sample.now - Sample.ten_days).
  split; [reflexivity|]. split; [reflexivity|]. split; [reflexivity|].
  intros c Hin.
  repeat (apply elem_of_cons in Hin as [->|Hin]; [vm_compute; reflexivity|]).
  now apply elem_of_nil in Hin.
Defined.

Lemma exclude_pattern_rejects_witness :
  fst (should_archive Sample.re_any "/data/a.txt"
         (Sample.info 1 Sample.ten_days)
         {| extensions := None; size_limit := None; min_size := None;
            modified_days := None; created_days := None; regex := None;
            exclude := Some ["tmp"; ""] |}) = false.
Proof.
  match goal with |- fst (should_archive _ _ _ ?fl) = _ => set (chosen := fl) end.
  apply (proj1 (proj2 (exclude_pattern_rejects Sample.re_any "/data/a.txt"
                         (Sample.info 1 Sample.ten_days) chosen ["tmp"; ""]
                         eq_refl))).
  apply list_elem_of_further, list_elem_of_here.
Defined.

Lemma extension_without_dot_rejects_all_witness :
  fst (should_archive Sample.re_any "/data/a.txt"
         (Sample.info 1 Sample.ten_days)
         {| extensions := Some ["txt"]; size_limit := None; min_size := None;
            modified_days := None; created_days := None; regex := None;
            exclude := None |}) = false.
Proof.
  match goal with |- fst (should_archive _ _ _ ?fl) = _ => set (chosen := fl) end.
  apply (extension_without_dot_rejects_all Sample.re_any "/data/a.txt"
           (Sample.info 1 Sample.ten_days) chosen ["txt"] eq_refl).
  intros ext Hin. apply elem_of_cons in Hin as [->|Hin]; [reflexivity|].
  now apply elem_of_nil in Hin.
Defined.

Lemma decision_ignores_folder_path_witness :
  plain_name "notes.txt" /\
  os_path_basename (os_path_join "/data.v1/in" "notes.txt") = "notes.txt" /\
  splitext_ext (os_path_join "/data.v1/in" "notes.txt") = ".txt".
Proof.
  assert (Hplain : plain_name "notes.txt") by reflexivity.
  split; [exact Hplain|].
  destruct (decision_ignores_folder_path Sample.re_any "/data.v1/in"
              "notes.txt" (Sample.info 1 Sample.ten_days) no_filters Hplain)
    as (Hbase & Hext & _).
  split; [exact Hbase|]. rewrite Hext. reflexivity.
Defined.

(** ** More on the orchestrator *)

Lemma regular_files_delete (fs : gmap string Node) name node :
  fs !! name = Some node ->
  regular_files fs
  = ((if is_file (Some node) then 1 else 0) + regular_files (delete name fs))%nat.
Proof.
  intros Hlookup. unfold regular_files.
  rewrite <- (filter_length_Permutation _ _ _
                (map_to_list_delete fs name node Hlookup)).
  cbn [List.filter snd]. destruct (is_file (Some node)); reflexivity.
Qed.

Lemma regular_files_insert (fs : gmap string Node) name node :
  fs !! name = None ->
  regular_files (<[name := node]> fs)
  = ((if is_file (Some node) then 1 else 0) + regular_files fs)%nat.
Proof.
  intros Hlookup. unfold regular_files.
  rewrite (filter_length_Permutation _ _ _
             (map_to_list_insert fs name node Hlookup)).
  cbn [List.filter snd]. destruct (is_file (Some node)); reflexivity.
Qed.

(** Moving a file into the archive directory takes one regular file out of
    the folder. *)
Lemma regular_files_move (fs : gmap string Node) name info archive_name
    files files' :
  fs !! name = Some (File info) ->
  fs !! archive_name = Some (Dir files) ->
  regular_files fs
  = S (regular_files (<[archive_name := Dir files']> (delete name fs))).
Proof.
  intros Hfile Hdir.
  assert (Hne : name <> archive_name) by congruence.
  rewrite (regular_files_delete fs name _ Hfile). cbn [is_file Nat.add].
  f_equal.
  assert (Hdir' : delete name fs !! archive_name = Some (Dir files))
    by now rewrite lookup_delete_ne.
  rewrite (regular_files_delete _ archive_name _ Hdir'). cbn [is_file Nat.add].
  rewrite <- insert_delete_eq.
  rewrite regular_files_insert by apply lookup_delete_eq. reflexivity.
Qed.

(** What the archive directory holds does not change the number of
    regular files of the folder. *)
Lemma regular_files_refill (fs : gmap string Node) archive_name files files' :
  fs !! archive_name = Some (Dir files) ->
  regular_files (<[archive_name := Dir files']> fs) = regular_files fs.
Proof.
  intros Hdir.
  rewrite (regular_files_delete fs archive_name _ Hdir). cbn [is_file Nat.add].
  rewrite <- insert_delete_eq.
  rewrite regular_files_insert by apply lookup_delete_eq. reflexivity.
Qed.

Section MoreOrchestrator.

Variable re_search : string -> string -> Result bool.

(** What one iteration does to the folder: nothing, or the move of the
    entry into the archive directory, counted as processed, or the copy of
    the entry into the archive directory by a move that failed. *)
Lemma process_entry_folder source_path archive_name config filename s :
  let s' := process_entry re_search source_path archive_name config filename s in
  (folder s' = folder s /\
   (dry_run config = false -> processed s' = processed s)) \/
  (dry_run config = false /\
   exists info files,
     folder s !! filename = Some (File info) /\
     folder s !! archive_name = Some (Dir files) /\
     f_move info = None /\
     fst (should_archive re_search (os_path_join source_path filename) info
            (filters config)) = true /\
     folder s' = <[archive_name := Dir (<[filename := info]> files)]>
                   (delete filename (folder s)) /\
     counters s' = (S (processed s), skipped s, failed s)) \/
  (dry_run config = false /\
   exists info files,
     folder s !! filename = Some (File info) /\
     folder s !! archive_name = Some (Dir files) /\
     folder s' = <[archive_name := Dir (<[filename := info]> files)]> (folder s) /\
     counters s' = (processed s, skipped s, S (failed s))).
Proof.
  cbv zeta. unfold process_entry.
  destruct (folder s !! filename) as [[info| |]|] eqn:Hfile; try (now left).
  destruct (dry_run config) eqn:Hdry; [left; split; [reflexivity|discriminate]|].
  destruct (should_archive _ _ _ _) as [[] events] eqn:Hdecision;
    [|now left].
  pose proof (shutil_move_cases filename archive_name info (folder s)) as Hmove.
  destruct (shutil_move _ _ _ _) as [[e|] fs'].
  - destruct Hmove as [->|(files & Harch & ->)]; [now left|].
    right; right. split; [reflexivity|]. exists info, files.
    repeat split; try reflexivity; assumption.
  - destruct Hmove as (Hclear & files & Harch & ->).
    right; left. split; [reflexivity|]. exists info, files.
    rewrite ?Hdecision. repeat split; try reflexivity; assumption.
Qed.

(** The archive directory stays a directory. *)
Lemma process_entry_keeps_archive source_path archive_name config filename s :
  (exists files, folder s !! archive_name = Some (Dir files)) ->
  exists files,
    folder (process_entry re_search source_path archive_name config filename s)
      !! archive_name = Some (Dir files).
Proof.
  intros Hdir.
  destruct (process_entry_folder source_path archive_name config filename s)
    as [[-> _]|[(_ & info & files & _ & _ & _ & _ & -> & _)
               |(_ & info & files & _ & _ & -> & _)]]; [exact Hdir|..];
    eexists; apply lookup_insert_eq.
Qed.

Lemma archive_loop_keeps_archive source_path archive_name config names s :
  (exists files, folder s !! archive_name = Some (Dir files)) ->
  exists files,
    folder (archive_loop re_search source_path archive_name config names s)
      !! archive_name = Some (Dir files).
Proof.
  revert s. induction names as [|name names IH]; intros s Hdir; [exact Hdir|].
  cbn [archive_loop]. apply IH. now apply process_entry_keeps_archive.
Qed.

Lemma os_makedirs_is_directory archive_name denied (fs fs1 : gmap string Node) :
  os_makedirs archive_name denied fs = Ok fs1 ->
  (exists files, fs1 !! archive_name = Some (Dir files)) /\
  os_makedirs archive_name denied fs1 = Ok fs1 /\
  forall name, name <> archive_name -> fs1 !! name = fs !! name.
Proof.
  unfold os_makedirs. destruct denied; [discriminate|].
  destruct (fs !! archive_name) as [[| files |]|] eqn:Hlookup;
    try discriminate; intros [= <-].
  - rewrite Hlookup. eauto.
  - rewrite lookup_insert_eq. split; [eauto|]. split; [reflexivity|].
    intros name Hne. now rewrite lookup_insert_ne.
Qed.

(** A regular file stays in the folder or is in the archive directory under
    its own name. *)
Lemma process_entry_conserves source_path archive_name config filename s
    name info :
  folder s !! name = Some (File info) \/
  (folder s !! name = None /\ archived (folder s) archive_name name info) ->
  let s' := process_entry re_search source_path archive_name config filename s in
  folder s' !! name = Some (File info) \/
  (folder s' !! name = None /\ archived (folder s') archive_name name info).
Proof.
  intros Hinv. cbv zeta.
  destruct (process_entry_folder source_path archive_name config filename s)
    as [[-> _]|[(_ & moved & files & Hfile & Harch & _ & _ & -> & _)
               |(_ & copied & files & Hfile & Harch & -> & _)]];
    [exact Hinv|..].
  - assert (Hka : filename <> archive_name) by congruence.
    destruct Hinv as [Hhere|[Hgone (files0 & Harch0 & Hin)]].
    + assert (Hna : name <> archive_name) by congruence.
      destruct (decide (name = filename)) as [->|Hnk].
      * right. assert (moved = info) as -> by congruence. split.
        -- rewrite lookup_insert_ne by done. apply lookup_delete_eq.
        -- eexists. split; [apply lookup_insert_eq|apply lookup_insert_eq].
      * left. rewrite lookup_insert_ne by done. now rewrite lookup_delete_ne.
    + assert (Hna : name <> archive_name) by congruence.
      assert (Hnk : name <> filename) by congruence.
      assert (files0 = files) as -> by congruence.
      right. split.
      * rewrite lookup_insert_ne by done. now rewrite lookup_delete_ne.
      * eexists. split; [apply lookup_insert_eq|].
        now rewrite lookup_insert_ne.
  - destruct Hinv as [Hhere|[Hgone (files0 & Harch0 & Hin)]].
    + assert (Hna : name <> archive_name) by congruence.
      left. now rewrite lookup_insert_ne.
    + assert (Hna : name <> archive_name) by congruence.
      assert (Hnk : name <> filename) by congruence.
      assert (files0 = files) as -> by congruence.
      right. split.
      * now rewrite lookup_insert_ne.
      * eexists. split; [apply lookup_insert_eq|].
        now rewrite lookup_insert_ne.
Qed.

Lemma archive_loop_conserves source_path archive_name config names s name info :
  folder s !! name = Some (File info) \/
  (folder s !! name = None /\ archived (folder s) archive_name name info) ->
  let s' := archive_loop re_search source_path archive_name config names s in
  folder s' !! name = Some (File info) \/
  (folder s' !! name = None /\ archived (folder s') archive_name name info).
Proof.
  cbv zeta. revert s. induction names as [|k names IH]; intros s Hinv;
    [exact Hinv|].
  cbn [archive_loop]. apply IH. now apply process_entry_conserves.
Qed.

(** X7. [archive_folder] loses no file of the source folder: after the call,
    whatever the filters, the mode and the failures, a regular file that was
    a direct child is either still there, unchanged, or is in the archive
    directory under its own name. *)
Theorem source_files_conserved source_path config w fs name info :
  w_source w = Some fs ->
  fs !! name = Some (File info) ->
  exists fs',
    run_source (archive_folder re_search source_path config w) = Some fs' /\
    (fs' !! name = Some (File info) \/
     (fs' !! name = None /\ archived fs' (w_timestamp w) name info)).
Proof.
  intros Hsrc Hfile. unfold archive_folder. rewrite Hsrc.
  destruct (os_makedirs _ _ fs) as [fs1|e] eqn:Hmk; cbn [run_source].
  - eexists. split; [reflexivity|]. apply archive_loop_conserves.
    cbn [initial_state folder]. left.
    destruct (os_makedirs_is_directory _ _ _ _ Hmk) as ([files Hdir] & _ & Hsame).
    rewrite Hsame; [exact Hfile|]. unfold os_makedirs in Hmk.
    destruct (w_makedirs_denied w); [discriminate|].
    intros ->. rewrite Hfile in Hmk. discriminate.
  - exists fs. split; [reflexivity|now left].
Qed.

Lemma process_entry_untouched source_path archive_name config filename s name :
  name <> archive_name ->
  is_file (folder s !! name) = false ->
  folder (process_entry re_search source_path archive_name config filename s)
    !! name = folder s !! name.
Proof.
  intros Hna Hnot.
  destruct (process_entry_folder source_path archive_name config filename s)
    as [[-> _]|[(_ & moved & files & Hfile & _ & _ & _ & -> & _)
               |(_ & copied & files & _ & _ & -> & _)]];
    [reflexivity|..].
  - assert (Hnk : name <> filename) by (intros ->; now rewrite Hfile in Hnot).
    rewrite lookup_insert_ne by done. now rewrite lookup_delete_ne.
  - now rewrite lookup_insert_ne.
Qed.

Lemma archive_loop_untouched source_path archive_name config names s name :
  name <> archive_name ->
  is_file (folder s !! name) = false ->
  folder (archive_loop re_search source_path archive_name config names s)
    !! name = folder s !! name.
Proof.
  intros Hna. revert s. induction names as [|k names IH]; intros s Hnot;
    [reflexivity|].
  cbn [archive_loop].
  pose proof (process_entry_untouched source_path archive_name config k s
                name Hna Hnot) as Hstep.
  rewrite IH; [exact Hstep|]. now rewrite Hstep.
Qed.

(** X8. [archive_folder] touches regular files only: a subdirectory other
    than the archive directory, an entry that is not a regular file, and a
    name that is not in the folder are after the call what they were
    before. *)
Theorem other_entries_untouched source_path config w fs name :
  w_source w = Some fs ->
  name <> w_timestamp w ->
  is_file (fs !! name) = false ->
  exists fs',
    run_source (archive_folder re_search source_path config w) = Some fs' /\
    fs' !! name = fs !! name.
Proof.
  intros Hsrc Hna Hnot. unfold archive_folder. rewrite Hsrc.
  destruct (os_makedirs _ _ fs) as [fs1|e] eqn:Hmk; cbn [run_source];
    [|now exists fs].
  eexists. split; [reflexivity|].
  destruct (os_makedirs_is_directory _ _ _ _ Hmk) as (_ & _ & Hsame).
  rewrite <- (Hsame name Hna).
  apply (archive_loop_untouched source_path (w_timestamp w) config
           (os_listdir fs1)
           (initial_state source_path
              (os_path_join source_path (w_timestamp w)) fs1) name Hna).
  cbn [initial_state folder]. now rewrite Hsame.
Qed.

(** In a real run the regular files of the folder and the processed files
    add up to the same number all along. *)
Lemma process_entry_balance source_path archive_name config filename s :
  dry_run config = false ->
  let s' := process_entry re_search source_path archive_name config filename s in
  (regular_files (folder s') + processed s'
   = regular_files (folder s) + processed s)%nat.
Proof.
  intros Hdry. cbv zeta.
  destruct (process_entry_folder source_path archive_name config filename s)
    as [[-> Hsame]|[(_ & info & files & Hfile & Harch & _ & _ & -> & Hcount)
                   |(_ & info & files & _ & Harch & -> & Hcount)]].
  - now rewrite (Hsame Hdry).
  - injection Hcount as -> _ _.
    rewrite (regular_files_move (folder s) filename info archive_name files
               (<[filename := info]> files) Hfile Harch). lia.
  - injection Hcount as -> _ _.
    now rewrite (regular_files_refill (folder s) archive_name files
                   (<[filename := info]> files) Harch).
Qed.

Lemma archive_loop_balance source_path archive_name config names s :
  dry_run config = false ->
  let s' := archive_loop re_search source_path archive_name config names s in
  (regular_files (folder s') + processed s'
   = regular_files (folder s) + processed s)%nat.
Proof.
  intros Hdry. cbv zeta. revert s.
  induction names as [|k names IH]; intros s; [reflexivity|].
  cbn [archive_loop]. rewrite IH. now apply process_entry_balance.
Qed.

(** The facts about a real run that reaches the loop. *)
Lemma real_run_summary source_path config w fs fs1 :
  dry_run config = false ->
  w_source w = Some fs ->
  os_makedirs (w_timestamp w) (w_makedirs_denied w) fs = Ok fs1 ->
  exists fs' p s f,
    run_source (archive_folder re_search source_path config w) = Some fs' /\
    run_counters (archive_folder re_search source_path config w)
    = Some (p, s, f) /\
    (p + s + f)%nat = regular_files fs /\
    regular_files fs' = (s + f)%nat /\
    (exists files, fs' !! w_timestamp w = Some (Dir files)).
Proof.
  intros Hdry Hsrc Hmk. unfold archive_folder. rewrite Hsrc, Hmk.
  cbn [run_source run_counters].
  set (s0 := initial_state source_path
               (os_path_join source_path (w_timestamp w)) fs1).
  set (s1 := archive_loop re_search source_path (w_timestamp w) config
               (os_listdir fs1) s0).
  exists (folder s1), (processed s1), (skipped s1), (failed s1).
  destruct (os_makedirs_adds_directory _ _ _ _ Hmk) as [_ Hfiles].
  destruct (os_makedirs_is_directory _ _ _ _ Hmk) as (Hdir & _ & _).
  pose proof (archive_loop_total re_search source_path (w_timestamp w) config
                (os_listdir fs1) s0 (NoDup_os_listdir fs1)) as Htotal.
  pose proof (archive_loop_balance source_path (w_timestamp w) config
                (os_listdir fs1) s0 Hdry) as Hbalance.
  fold s1 in Htotal, Hbalance. unfold total in Htotal.
  cbn [s0 initial_state processed skipped failed folder] in Htotal, Hbalance.
  change (folder s0) with fs1 in Htotal.
  rewrite files_in_listdir, Hfiles in Htotal. rewrite Hfiles in Hbalance.
  repeat split; try reflexivity; try lia.
  apply archive_loop_keeps_archive. exact Hdir.
Qed.

(** X9. After a real run the regular files left in the source folder are as
    many as the files counted as skipped or failed, and the processed files
    are the ones that left it. *)
Theorem remaining_files_are_skipped_or_failed source_path config w fs fs1 :
  dry_run config = false ->
  w_source w = Some fs ->
  os_makedirs (w_timestamp w) (w_makedirs_denied w) fs = Ok fs1 ->
  exists fs' p s f,
    run_source (archive_folder re_search source_path config w) = Some fs' /\
    run_counters (archive_folder re_search source_path config w)
    = Some (p, s, f) /\
    regular_files fs' = (s + f)%nat /\
    regular_files fs = (p + regular_files fs')%nat.
Proof.
  intros Hdry Hsrc Hmk.
  destruct (real_run_summary source_path config w fs fs1 Hdry Hsrc Hmk)
    as (fs' & p & s & f & Hrun & Hcount & Hsum & Hleft & _).
  exists fs', p, s, f. repeat split; try assumption. lia.
Qed.

(** X10. A dry run does not change what a real run in the same second does:
    the real run after the dry run returns the value, the counters, the
    records and the folder of the real run alone, the archive directory of
    the dry run being reused. *)
Theorem dry_run_then_real_run source_path fl w :
  archive_folder re_search source_path {| dry_run := false; filters := fl |}
    (world_after w
       (archive_folder re_search source_path
          {| dry_run := true; filters := fl |} w))
  = archive_folder re_search source_path
      {| dry_run := false; filters := fl |} w.
Proof.
  unfold world_after, archive_folder at 2.
  destruct (w_source w) as [fs|] eqn:Hsrc.
  - destruct (os_makedirs (w_timestamp w) (w_makedirs_denied w) fs)
      as [fs1|e] eqn:Hmk; cbn [run_source].
    + destruct (archive_loop_dry_run re_search source_path (w_timestamp w)
                  {| dry_run := true; filters := fl |} (os_listdir fs1)
                  (initial_state source_path
                     (os_path_join source_path (w_timestamp w)) fs1) eq_refl)
        as (_ & _ & _ & _ & ->).
      cbn [initial_state folder]. unfold archive_folder.
      cbn [w_source w_timestamp w_makedirs_denied]. rewrite Hsrc, Hmk.
      destruct (os_makedirs_is_directory _ _ _ _ Hmk) as (_ & -> & _).
      reflexivity.
    + unfold archive_folder.
      cbn [w_source w_timestamp w_makedirs_denied]. now rewrite Hsrc, Hmk.
  - cbn [run_source]. unfold archive_folder. cbn [w_source]. now rewrite Hsrc.
Qed.

(** X11. A second call on the folder that a real run left, in the same
    second, reuses the archive directory and finds the files that the first
    run skipped or failed to move: its three counters sum to the skipped and
    failed counts of the first run. *)
Theorem second_run_finds_leftovers source_path config config2 w fs fs1 :
  dry_run config = false ->
  w_source w = Some fs ->
  os_makedirs (w_timestamp w) (w_makedirs_denied w) fs = Ok fs1 ->
  exists p1 s1 f1 p2 s2 f2,
    run_counters (archive_folder re_search source_path config w)
    = Some (p1, s1, f1) /\
    run_counters
      (archive_folder re_search source_path config2
         (world_after w (archive_folder re_search source_path config w)))
    = Some (p2, s2, f2) /\
    (p2 + s2 + f2 = s1 + f1)%nat.
Proof.
  intros Hdry Hsrc Hmk.
  destruct (real_run_summary source_path config w fs fs1 Hdry Hsrc Hmk)
    as (fs' & p1 & s1 & f1 & Hrun & Hcount & _ & Hleft & [files Hdir]).
  exists p1, s1, f1.
  assert (Hmk2 : os_makedirs (w_timestamp w) (w_makedirs_denied w) fs' = Ok fs').
  { unfold os_makedirs in *. destruct (w_makedirs_denied w); [discriminate|].
    now rewrite Hdir. }
  unfold world_after. rewrite Hrun.
  unfold archive_folder at 2. cbn [w_source w_timestamp w_makedirs_denied].
  rewrite Hmk2. cbn [run_counters]. eexists _, _, _.
  split; [exact Hcount|]. split; [reflexivity|].
  pose proof (archive_loop_total re_search source_path (w_timestamp w) config2
                (os_listdir fs')
                (initial_state source_path
                   (os_path_join source_path (w_timestamp w)) fs')
                (NoDup_os_listdir fs')) as Htotal.
  unfold total in Htotal. rewrite Htotal.
  cbn [initial_state processed skipped failed folder].
  rewrite files_in_listdir. lia.
Qed.

Lemma should_archive_shape filepath info fl :
  should_archive re_search filepath info fl = (true, []) \/
  exists st reason,
    (st = SKIPPED \/ st = ERROR) /\
    should_archive re_search filepath info fl
    = (false, [filter_event filepath st reason]).
Proof.
  unfold should_archive.
  destruct (should_archive_checks re_search filepath info fl) as [[]|m|e];
    [now left|right..]; eauto.
Qed.

Lemma count_action_app a (l1 l2 : list Event) :
  count_action a (l1 ++ l2) = (count_action a l1 + count_action a l2)%nat.
Proof. unfold count_action. now rewrite List.filter_app, List.length_app. Qed.

Lemma count_moves_app st (l1 l2 : list Event) :
  count_moves st (l1 ++ l2) = (count_moves st l1 + count_moves st l2)%nat.
Proof. unfold count_moves. now rewrite List.filter_app, List.length_app. Qed.

(** In a real run every increment of a counter comes with its audit
    record. *)
Lemma process_entry_reports source_path archive_name config filename s :
  dry_run config = false ->
  let s' := process_entry re_search source_path archive_name config filename s in
  (count_moves SUCCESS (audit s') + processed s
   = count_moves SUCCESS (audit s) + processed s' /\
   count_moves FAILED (audit s') + failed s
   = count_moves FAILED (audit s) + failed s' /\
   count_action FILTER_CHECK (audit s') + skipped s
   = count_action FILTER_CHECK (audit s) + skipped s' /\
   length (audit s') + total s = length (audit s) + total s')%nat.
Proof.
  intros Hdry. cbv zeta. unfold process_entry, total.
  destruct (folder s !! filename) as [[info| |]|]; try (repeat split; lia).
  rewrite Hdry.
  destruct (should_archive_shape (os_path_join source_path filename) info
              (filters config)) as [->|(st & reason & Hst & ->)].
  - destruct (shutil_move _ _ _ _) as [[e|] fs'];
      cbn [processed skipped failed audit];
      rewrite !count_moves_app, !count_action_app, !List.length_app;
      cbn; repeat (case_bool_decide; try congruence);
      cbn; repeat split; lia.
  - cbn [processed skipped failed audit].
    rewrite !count_moves_app, !count_action_app, !List.length_app.
    cbn; repeat (case_bool_decide; try congruence);
      cbn; repeat split; lia.
Qed.

Lemma archive_loop_reports source_path archive_name config names s :
  dry_run config = false ->
  let s' := archive_loop re_search source_path archive_name config names s in
  (count_moves SUCCESS (audit s') + processed s
   = count_moves SUCCESS (audit s) + processed s' /\
   count_moves FAILED (audit s') + failed s
   = count_moves FAILED (audit s) + failed s' /\
   count_action FILTER_CHECK (audit s') + skipped s
   = count_action FILTER_CHECK (audit s) + skipped s' /\
   length (audit s') + total s = length (audit s) + total s')%nat.
Proof.
  intros Hdry. cbv zeta. revert s.
  induction names as [|k names IH]; intros s; [repeat split; lia|].
  cbn [archive_loop].
  pose proof (process_entry_reports source_path archive_name config k s Hdry)
    as Hstep. cbv zeta in Hstep.
  specialize (IH (process_entry re_search source_path archive_name config k s)).
  lia.
Qed.

(** X12. In a real run every counted outcome is reported once: the audit
    trail holds as many FILE_MOVE records with status SUCCESS as files
    processed, as many with status FAILED as files failed, as many
    FILTER_CHECK records as files skipped, and nothing else beside the
    three records of the folder. *)
Theorem counters_match_audit_records source_path config w fs fs1 :
  dry_run config = false ->
  w_source w = Some fs ->
  os_makedirs (w_timestamp w) (w_makedirs_denied w) fs = Ok fs1 ->
  exists p s f,
    let events := run_audit (archive_folder re_search source_path config w) in
    run_counters (archive_folder re_search source_path config w)
    = Some (p, s, f) /\
    count_moves SUCCESS events = p /\
    count_moves FAILED events = f /\
    count_action FILTER_CHECK events = s /\
    length events = (3 + p + s + f)%nat.
Proof.
  intros Hdry Hsrc Hmk. unfold archive_folder. rewrite Hsrc, Hmk.
  cbn [run_counters run_audit]. eexists _, _, _. cbv zeta.
  split; [reflexivity|].
  pose proof (archive_loop_reports source_path (w_timestamp w) config
                (os_listdir fs1)
                (initial_state source_path
                   (os_path_join source_path (w_timestamp w)) fs1) Hdry)
    as Hloop. cbv zeta in Hloop. unfold total in Hloop.
  cbn [initial_state processed skipped failed audit] in Hloop.
  rewrite !count_moves_app, !count_action_app, !List.length_app.
  change (count_moves SUCCESS [folder_event FOLDER_START source_path STARTED
            MsgFolderStart;
          folder_event FOLDER_CREATE
            (os_path_join source_path (w_timestamp w)) SUCCESS
            MsgArchiveDirCreated]) with 0%nat in Hloop.
  change (count_moves FAILED [folder_event FOLDER_START source_path STARTED
            MsgFolderStart;
          folder_event FOLDER_CREATE
            (os_path_join source_path (w_timestamp w)) SUCCESS
            MsgArchiveDirCreated]) with 0%nat in Hloop.
  change (count_action FILTER_CHECK [folder_event FOLDER_START source_path
            STARTED MsgFolderStart;
          folder_event FOLDER_CREATE
            (os_path_join source_path (w_timestamp w)) SUCCESS
            MsgArchiveDirCreated]) with 0%nat in Hloop.
  cbn [length] in Hloop.
  cbn; repeat (case_bool_decide; try congruence); cbn; lia.
Qed.

(** When every regular file that is left is accepted by the filters and can
    be moved, the loop skips and fails nothing. *)
Lemma archive_loop_all_accepted source_path archive_name config names s :
  dry_run config = false ->
  NoDup names ->
  (exists files, folder s !! archive_name = Some (Dir files)) ->
  (forall name info,
      name ∈ names ->
      folder s !! name = Some (File info) ->
      fst (should_archive re_search (os_path_join source_path name) info
             (filters config)) = true /\ f_move info = None) ->
  let s' := archive_loop re_search source_path archive_name config names s in
  skipped s' = skipped s /\ failed s' = failed s.
Proof.
  intros Hdry Hnodup. cbv zeta. revert s.
  induction Hnodup as [|k names Hnotin Hnodup IH]; intros s Hdir Hgood;
    [now split|].
  cbn [archive_loop].
  assert (Hstep : skipped (process_entry re_search source_path archive_name
                             config k s) = skipped s
                  /\ failed (process_entry re_search source_path archive_name
                               config k s) = failed s).
  { unfold process_entry.
    destruct (folder s !! k) as [[info| |]|] eqn:Hfile; try (now split).
    rewrite Hdry.
    destruct (Hgood k info (list_elem_of_here _ _) Hfile) as [Hacc Hmove].
    rewrite (should_archive_accepts re_search _ _ _ Hacc).
    unfold shutil_move. rewrite Hmove. destruct Hdir as [files ->].
    now split. }
  destruct Hstep as [<- <-]. apply IH.
  - now apply process_entry_keeps_archive.
  - intros name info Hin Hfile.
    assert (Hnk : name <> k) by congruence.
    apply Hgood; [now apply list_elem_of_further|].
    destruct (process_entry_folder source_path archive_name config k s)
      as [[Hsame _]|[(_ & moved & files & _ & _ & _ & _ & Hmoved & _)
                    |(_ & copied & files & _ & _ & Hcopied & _)]].
    + now rewrite <- Hsame.
    + rewrite Hmoved in Hfile.
      destruct (decide (name = archive_name)) as [->|Hna].
      * rewrite lookup_insert_eq in Hfile. discriminate.
      * rewrite lookup_insert_ne in Hfile by done.
        now rewrite lookup_delete_ne in Hfile.
    + rewrite Hcopied in Hfile.
      destruct (decide (name = archive_name)) as [->|Hna].
      * rewrite lookup_insert_eq in Hfile. discriminate.
      * now rewrite lookup_insert_ne in Hfile.
Qed.

(** X13. When the filters accept every regular file of the folder and every
    move succeeds, a real run archives them all: all are counted as
    processed, none as skipped or failed, the run is a success and no
    regular file is left in the source folder. *)
Theorem accepted_files_all_archived source_path config w fs fs1 :
  dry_run config = false ->
  w_source w = Some fs ->
  os_makedirs (w_timestamp w) (w_makedirs_denied w) fs = Ok fs1 ->
  (forall name info,
      fs !! name = Some (File info) ->
      fst (should_archive re_search (os_path_join source_path name) info
             (filters config)) = true /\ f_move info = None) ->
  exists fs',
    run_counters (archive_folder re_search source_path config w)
    = Some (regular_files fs, 0, 0)%nat /\
    run_success (archive_folder re_search source_path config w) = true /\
    run_source (archive_folder re_search source_path config w) = Some fs' /\
    regular_files fs' = 0%nat.
Proof.
  intros Hdry Hsrc Hmk Hgood.
  destruct (real_run_summary source_path config w fs fs1 Hdry Hsrc Hmk)
    as (fs' & p & s & f & Hrun & Hcount & Hsum & Hleft & _).
  exists fs'. revert Hrun Hcount. unfold archive_folder. rewrite Hsrc, Hmk.
  cbn [run_source run_counters run_success]. intros Hrun Hcount.
  destruct (os_makedirs_is_directory _ _ _ _ Hmk) as (Hdir & _ & Hsame).
  destruct (archive_loop_all_accepted source_path (w_timestamp w) config
              (os_listdir fs1)
              (initial_state source_path
                 (os_path_join source_path (w_timestamp w)) fs1)
              Hdry (NoDup_os_listdir fs1) Hdir) as [Hs Hf].
  { cbn [initial_state folder]. intros name info _ Hfile. apply Hgood.
    destruct (decide (name = w_timestamp w)) as [->|Hne].
    - destruct Hdir as [files Hd]. congruence.
    - now rewrite <- (Hsame name Hne). }
  cbn [initial_state skipped failed] in Hs, Hf.
  injection Hcount as Hp Hs' Hf'. rewrite Hs in Hs'. rewrite Hf in Hf'.
  subst s f. rewrite Hs, Hf, Hp.
  repeat split; try assumption; try lia.
  - do 3 f_equal. lia.
  - apply orb_true_r.
Qed.

End MoreOrchestrator.

(** ** More on the configuration *)

Lemma lower_char_is_space c : Text.is_space (Text.lower_char c) = Text.is_space c.
Proof. destruct c as [[] [] [] [] [] [] [] []]; reflexivity. Qed.

Lemma lower_char_idempotent c :
  Text.lower_char (Text.lower_char c) = Text.lower_char c.
Proof. destruct c as [[] [] [] [] [] [] [] []]; reflexivity. Qed.

Lemma lower_idempotent s : Text.lower (Text.lower s) = Text.lower s.
Proof.
  induction s as [|c s IH]; [reflexivity|].
  cbn [Text.lower]. now rewrite lower_char_idempotent, IH.
Qed.

Lemma lower_lstrip s : Text.lstrip (Text.lower s) = Text.lower (Text.lstrip s).
Proof.
  induction s as [|c r IH]; [reflexivity|].
  cbn [Text.lower Text.lstrip]. rewrite lower_char_is_space.
  destruct (Text.is_space c); [exact IH | reflexivity].
Qed.

Lemma lower_rstrip s : Text.rstrip (Text.lower s) = Text.lower (Text.rstrip s).
Proof.
  induction s as [|c r IH]; [reflexivity|].
  cbn [Text.lower Text.rstrip].
  rewrite lower_char_is_space, IH, lower_is_empty.
  destruct (Text.is_space c && Text.is_empty (Text.rstrip r)); reflexivity.
Qed.

Lemma lower_strip s : Text.strip (Text.lower s) = Text.lower (Text.strip s).
Proof. unfold Text.strip. now rewrite lower_lstrip, lower_rstrip. Qed.

Lemma strip_all_space s :
  Text.all_chars Text.is_space s = true -> Text.strip s = "".
Proof. intros Hs. unfold Text.strip. now rewrite (lstrip_all_space _ Hs). Qed.

Lemma split_on_nonempty sep s : split_on sep s <> [].
Proof.
  destruct s as [|c r]; cbn [split_on]; [discriminate|].
  destruct (Ascii.eqb c sep); [discriminate|].
  destruct (split_on sep r); discriminate.
Qed.

(** One piece more than separators. *)
Lemma split_on_length sep s :
  length (split_on sep s) = S (count_char sep s).
Proof.
  induction s as [|c r IH]; [reflexivity|].
  cbn [split_on count_char]. destruct (Ascii.eqb c sep).
  - cbn [length Nat.add]. now rewrite IH.
  - destruct (split_on sep r) as [|piece pieces] eqn:Hsplit;
      [now apply split_on_nonempty in Hsplit|].
    cbn [length Nat.add] in *. exact IH.
Qed.

(** Splitting at a separator splits the list of pieces. *)
Lemma split_on_app sep (a b : string) :
  split_on sep (a +:+ String sep b)
  = (split_on sep a ++ split_on sep b)%list.
Proof.
  induction a as [|c r IH].
  - change ("" +:+ String sep b) with (String sep b).
    cbn [split_on]. now rewrite Ascii.eqb_refl.
  - change (String c r +:+ String sep b) with (String c (r +:+ String sep b)).
    cbn [split_on]. rewrite IH. destruct (Ascii.eqb c sep); [reflexivity|].
    destruct (split_on sep r) as [|piece pieces] eqn:Hsplit;
      [now apply split_on_nonempty in Hsplit|reflexivity].
Qed.

Section MoreConfiguration.

Variable re_search : string -> string -> Result bool.

(** X14. Extensions given on the command line replace those of the settings
    file; the text is cut at every comma, and each piece is lower-cased and
    trimmed, so that the lower-casing of [should_archive] changes none of
    them. *)
Theorem cli_extensions_normalised args settings text :
  a_extensions args = Some text ->
  text <> "" ->
  exists exts,
    extensions (build_filters args settings) = Some exts /\
    exts = map (fun piece => Text.strip (Text.lower piece)) (split_on "," text) /\
    length exts = S (count_char "," text) /\
    map Text.lower exts = exts.
Proof.
  intros Hext Hne. eexists. split; [|split; [reflexivity|split]].
  - unfold build_filters. cbn [extensions]. unfold given_text. rewrite Hext.
    destruct text as [|c r]; [congruence|]. reflexivity.
  - now rewrite length_map, split_on_length.
  - rewrite <- list_fmap_compose. apply list_fmap_ext. intros _ piece _.
    cbn. now rewrite lower_strip, lower_idempotent.
Qed.

(** X15. An [--exclude] text with an empty or blank piece, as a trailing
    comma leaves, excludes every file: the piece is trimmed to the empty
    pattern, which every name contains. *)
Theorem cli_blank_exclude_rejects_everything args settings text :
  a_exclude args = Some text ->
  text <> "" ->
  (forall piece filepath info,
      piece ∈ split_on "," text ->
      Text.all_chars Text.is_space piece = true ->
      fst (should_archive re_search filepath info (build_filters args settings))
      = false) /\
  (forall before filepath info,
      text = before +:+ "," ->
      fst (should_archive re_search filepath info (build_filters args settings))
      = false).
Proof.
  intros Hexcl Hne.
  assert (Hbuilt : exclude (build_filters args settings)
                   = Some (map Text.strip (split_on "," text))).
  { unfold build_filters. cbn [exclude]. unfold given_text. rewrite Hexcl.
    destruct text as [|c r]; [congruence|]. reflexivity. }
  assert (Hblank : forall piece filepath info,
            piece ∈ split_on "," text ->
            Text.all_chars Text.is_space piece = true ->
            fst (should_archive re_search filepath info
                   (build_filters args settings)) = false).
  { intros piece filepath info Hin Hspace.
    apply (exclude_match_rejects re_search _ _ _ _ "" Hbuilt).
    - apply list_elem_of_fmap. exists piece. split; [|exact Hin].
      now rewrite strip_all_space.
    - now destruct (os_path_basename filepath). }
  split; [exact Hblank|].
  intros before filepath info ->. apply (Hblank "").
  - rewrite split_on_app. apply elem_of_app. right. apply list_elem_of_here.
  - reflexivity.
Qed.

End MoreConfiguration.

Lemma cli_extensions_normalised_witness :
  extensions
    (build_filters
       {| a_folders := []; a_no_config := false;
          a_extensions := Some ".TXT, .Pdf"; a_size_limit := None;
          a_min_size := None; a_modified_days := None;
          a_created_days := None; a_regex := None; a_exclude := None;
          a_strict := false; a_dry_run := false |}
       (Some {| default_filters := Some Sample.pdf_only;
                settings_folders := None |}))
  = Some [".txt"; ".pdf"].
Proof.
  match goal with
  | |- extensions (build_filters ?a ?st) = _ =>
      destruct (cli_extensions_normalised a st ".TXT, .Pdf" eq_refl
                  ltac:(discriminate)) as (exts & -> & -> & _)
  end.
  reflexivity.
Defined.

Lemma cli_blank_exclude_rejects_everything_witness :
  fst (should_archive Sample.re_any "/data/a.txt"
         (Sample.info 1 Sample.ten_days)
         (build_filters
            {| a_folders := []; a_no_config := false; a_extensions := None;
               a_size_limit := None; a_min_size := None;
               a_modified_days := None; a_created_days := None;
               a_regex := None; a_exclude := Some "tmp,";
               a_strict := false; a_dry_run := false |} None))
  = false.
Proof.
  match goal with
  | |- fst (should_archive _ _ _ (build_filters ?a ?st)) = _ =>
      apply (proj2 (cli_blank_exclude_rejects_everything Sample.re_any a st
                      "tmp," eq_refl ltac:(discriminate)) "tmp")
  end.
  reflexivity.
Defined.

(** ** [main] *)

Section MoreMain.

Variable re_search : string -> string -> Result bool.

(** A loop over folders that all succeed runs them all and counts them
    all, in both modes. *)
Lemma main_loop_all_succeed strict config world_at i paths st :
  Forall (fun run => run_success run = true)
    (folder_runs re_search config world_at i paths) ->
  exists st',
    main_loop re_search strict config world_at i paths st = (false, st') /\
    success_count st' = (success_count st + length paths)%nat /\
    main_audit st'
    = (main_audit st
       ++ concat (map run_audit
                    (folder_runs re_search config world_at i paths)))%list.
Proof.
  revert i st. induction paths as [|path paths IH]; intros i st Hall.
  - exists st. cbn. rewrite app_nil_r. repeat split; lia.
  - cbn [folder_runs] in Hall. apply Forall_cons in Hall as [Hrun Hall].
    cbn [main_loop]. rewrite Hrun.
    destruct (IH (S i)
                {| success_count := S (success_count st);
                   main_audit := main_audit st
                     ++ run_audit (archive_folder re_search path config
                                     (world_at i));
                   main_applog := main_applog st
                     ++ map LogFromFolder
                          (run_applog (archive_folder re_search path config
                                         (world_at i))) |} Hall)
      as (st' & Hloop & Hcount & Haudit).
    exists st'. cbn [success_count main_audit] in *.
    split; [exact Hloop|]. split; [cbn [length]; lia|].
    rewrite Haudit. cbn [folder_runs map concat]. now rewrite <- app_assoc.
Qed.

(** The loop never counts more successes than folders, and counts them all
    only when it was not stopped and every run succeeded. *)
Lemma main_loop_count strict config world_at i paths st :
  let result := main_loop re_search strict config world_at i paths st in
  (success_count (snd result) <= success_count st + length paths)%nat /\
  (fst result = false ->
   success_count (snd result) = (success_count st + length paths)%nat ->
   Forall (fun run => run_success run = true)
     (folder_runs re_search config world_at i paths)).
Proof.
  cbv zeta. revert i st. induction paths as [|path paths IH]; intros i st.
  - cbn. split; [lia|]. intros _ _. constructor.
  - cbn [main_loop folder_runs length].
    destruct (run_success (archive_folder re_search path config (world_at i)))
      eqn:Hrun.
    + match goal with
      | |- context [main_loop _ _ _ _ _ _ ?st1] =>
          destruct (IH (S i) st1) as [Hle Hall]
      end.
      cbn [success_count] in *. split; [lia|].
      intros Hgo Hcount. constructor; [exact Hrun|]. apply Hall; [exact Hgo|lia].
    + destruct strict.
      * cbn [fst snd success_count]. split; [lia|discriminate].
      * match goal with
        | |- context [main_loop _ _ _ _ _ _ ?st1] =>
            destruct (IH (S i) st1) as [Hle Hall]
        end.
        cbn [success_count] in *. split; [lia|]. intros _ Hcount. lia.
Qed.

(** In strict mode the loop stops at the first folder that fails. *)
Lemma main_loop_strict_stop config world_at i before path after st :
  Forall (fun run => run_success run = true)
    (folder_runs re_search config world_at i before) ->
  run_success (archive_folder re_search path config
                 (world_at (i + length before)%nat)) = false ->
  exists st',
    main_loop re_search true config world_at i (before ++ path :: after)%list st
    = (true, st') /\
    success_count st' = (success_count st + length before)%nat /\
    main_audit st'
    = (main_audit st
       ++ concat (map run_audit
                    (folder_runs re_search config world_at i
                       (before ++ [path]))))%list.
Proof.
  revert i st. induction before as [|first before IH]; intros i st Hall Hfail.
  - cbn [app main_loop folder_runs length] in *.
    rewrite Nat.add_0_r in Hfail. rewrite Hfail.
    eexists. split; [reflexivity|]. cbn [success_count main_audit map concat].
    rewrite app_nil_r. split; [lia|reflexivity].
  - cbn [folder_runs] in Hall. apply Forall_cons in Hall as [Hrun Hall].
    cbn [app main_loop]. rewrite Hrun.
    replace (i + length (first :: before))%nat
      with (S i + length before)%nat in Hfail by (cbn [length]; lia).
    destruct (IH (S i)
                {| success_count := S (success_count st);
                   main_audit := main_audit st
                     ++ run_audit (archive_folder re_search first config
                                     (world_at i));
                   main_applog := main_applog st
                     ++ map LogFromFolder
                          (run_applog (archive_folder re_search first config
                                         (world_at i))) |} Hall Hfail)
      as (st' & Hloop & Hcount & Haudit).
    exists st'. cbn [success_count main_audit] in *.
    split; [exact Hloop|]. split; [cbn [length]; lia|].
    rewrite Haudit. cbn [app folder_runs map concat]. now rewrite <- app_assoc.
Qed.

(** Without strict mode the loop runs every folder. *)
Lemma main_loop_runs_all config world_at i paths st :
  exists st',
    main_loop re_search false config world_at i paths st = (false, st') /\
    main_audit st'
    = (main_audit st
       ++ concat (map run_audit
                    (folder_runs re_search config world_at i paths)))%list.
Proof.
  revert i st. induction paths as [|path paths IH]; intros i st.
  - exists st. cbn. now rewrite app_nil_r.
  - cbn [main_loop folder_runs map concat].
    destruct (run_success (archive_folder re_search path config (world_at i)));
      match goal with
      | |- context [main_loop _ _ _ _ _ _ ?st1] =>
          destruct (IH (S i) st1) as (st' & Hloop & Haudit)
      end;
      exists st'; (split; [exact Hloop|]);
      rewrite Haudit; cbn [main_audit]; now rewrite <- app_assoc.
Qed.

(** X16. [main] returns 0 exactly when there is a folder to process and the
    run of every folder succeeds, with or without strict mode; otherwise it
    returns 1. *)
Theorem main_exit_code args on_disk world_at :
  let config := archive_config args on_disk in
  let paths := folders_to_process args (load_settings args on_disk) in
  (fst (main re_search args on_disk world_at) = 0 <->
   paths <> [] /\
   Forall (fun run => run_success run = true)
     (folder_runs re_search config world_at 0 paths)) /\
  (fst (main re_search args on_disk world_at) = 0 \/
   fst (main re_search args on_disk world_at) = 1).
Proof.
  cbv zeta. unfold main.
  destruct (folders_to_process args (load_settings args on_disk))
    as [|path paths] eqn:Hpaths.
  - cbn [fst]. split; [|now right]. split; [discriminate|].
    intros [Hne _]. congruence.
  - set (all := path :: paths).
    set (st0 := {| success_count := 0; main_audit := []; main_applog := [] |}).
    pose proof (main_loop_count (a_strict args) (archive_config args on_disk)
                  world_at 0 all st0) as [Hle Hall]. cbv zeta in Hle, Hall.
    destruct (main_loop re_search (a_strict args)
                (archive_config args on_disk) world_at 0 all st0)
      as [stopped st] eqn:Hloop.
    cbn [fst snd] in Hle, Hall. cbn [st0 success_count Nat.add] in Hle, Hall.
    destruct stopped; cbn [fst].
    + split; [|now right]. split; [discriminate|]. intros [_ Hgood].
      destruct (main_loop_all_succeed (a_strict args)
                  (archive_config args on_disk) world_at 0 all st0 Hgood)
        as (st' & Hloop' & _). congruence.
    + destruct (Nat.eqb_spec (success_count st) (length all)) as [Heq|Hneq].
      * split; [|now left]. split; [|reflexivity]. intros _.
        split; [discriminate|]. now apply Hall.
      * split; [|now right]. split; [discriminate|]. intros [_ Hgood].
        destruct (main_loop_all_succeed (a_strict args)
                    (archive_config args on_disk) world_at 0 all st0 Hgood)
          as (st' & Hloop' & Hcount & _).
        rewrite Hloop in Hloop'. injection Hloop' as <-.
        cbn [st0 success_count Nat.add] in Hcount. congruence.
Qed.

Lemma folder_runs_app config world_at i (a b : list string) :
  folder_runs re_search config world_at i (a ++ b)
  = (folder_runs re_search config world_at i a
     ++ folder_runs re_search config world_at (i + length a) b)%list.
Proof.
  revert i. induction a as [|x a IH]; intros i.
  - cbn [app folder_runs length]. now rewrite Nat.add_0_r.
  - cbn [app folder_runs length]. rewrite IH.
    now replace (S i + length a)%nat with (i + S (length a))%nat by lia.
Qed.

Lemma main_with_folders args on_disk world_at :
  folders_to_process args (load_settings args on_disk) <> [] ->
  main re_search args on_disk world_at
  = let '(stopped, st) :=
      main_loop re_search (a_strict args) (archive_config args on_disk)
        world_at 0 (folders_to_process args (load_settings args on_disk))
        {| success_count := 0; main_audit := []; main_applog := [] |} in
    if stopped then (1, st)
    else
      (if (success_count st
           =? length (folders_to_process args (load_settings args on_disk)))%nat
       then 0 else 1,
       {| success_count := success_count st;
          main_audit := main_audit st;
          main_applog := (main_applog st
            ++ [LogRunDone (success_count st)
                  (length (folders_to_process args
                             (load_settings args on_disk)))])%list |}).
Proof.
  intros Hne. unfold main.
  destruct (folders_to_process args (load_settings args on_disk));
    [congruence|reflexivity].
Qed.

(** X17. In strict mode [main] stops at the first folder whose run fails:
    it returns 1 and the audit trail ends with the records of that folder,
    the folders after it being left alone. Without strict mode every folder
    is run, whatever the others did. *)
Theorem strict_mode_stops_at_first_failure args on_disk world_at
    before path after :
  let config := archive_config args on_disk in
  folders_to_process args (load_settings args on_disk)
  = (before ++ path :: after)%list ->
  Forall (fun run => run_success run = true)
    (folder_runs re_search config world_at 0 before) ->
  run_success (archive_folder re_search path config (world_at (length before)))
  = false ->
  (a_strict args = true ->
   fst (main re_search args on_disk world_at) = 1 /\
   main_audit (snd (main re_search args on_disk world_at))
   = concat (map run_audit
               (folder_runs re_search config world_at 0
                  (before ++ [path])%list))) /\
  (a_strict args = false ->
   fst (main re_search args on_disk world_at) = 1 /\
   main_audit (snd (main re_search args on_disk world_at))
   = concat (map run_audit
               (folder_runs re_search config world_at 0
                  (before ++ path :: after)%list))).
Proof.
  cbv zeta. intros Hpaths Hgood Hfail.
  assert (Hne : folders_to_process args (load_settings args on_disk) <> [])
    by (rewrite Hpaths; now destruct before).
  rewrite (main_with_folders _ _ _ Hne), Hpaths.
  set (st0 := {| success_count := 0; main_audit := []; main_applog := [] |}).
  split; intros ->.
  - destruct (main_loop_strict_stop (archive_config args on_disk) world_at 0
                before path after st0 Hgood Hfail)
      as (st' & Hloop & _ & Haudit).
    rewrite Hloop. cbn [fst snd]. split; [reflexivity|exact Haudit].
  - destruct (main_loop_runs_all (archive_config args on_disk) world_at 0
                (before ++ path :: after) st0) as (st' & Hloop & Haudit).
    pose proof (main_loop_count false (archive_config args on_disk) world_at 0
                  (before ++ path :: after) st0) as [_ Hall].
    cbv zeta in Hall. rewrite Hloop in *. cbn [fst snd] in *.
    split; [|exact Haudit].
    destruct (Nat.eqb_spec (success_count st')
                (length (before ++ path :: after))) as [Heq|]; [|reflexivity].
    exfalso. specialize (Hall eq_refl Heq).
    rewrite folder_runs_app in Hall. apply Forall_app in Hall as [_ Hall].
    cbn [folder_runs Nat.add] in Hall. apply Forall_cons in Hall as [Hrun _].
    congruence.
Qed.

End MoreMain.

(** ** The further properties on the sample inputs *)

Lemma source_files_conserved_witness :
  exists fs',
    run_source (archive_folder Sample.re_any "/data" SampleRun.real_txt
                  Sample.world) = Some fs' /\
    (fs' !! "d.csv" = Some (File (Sample.info 4 Sample.ten_days)) \/
     (fs' !! "d.csv" = None /\
      archived fs' Sample.timestamp "d.csv" (Sample.info 4 Sample.ten_days))).
Proof.
  assert (Hfile : Sample.downloads !! "d.csv"
                  = Some (File (Sample.info 4 Sample.ten_days)))
    by (vm_compute; reflexivity).
  exact (source_files_conserved Sample.re_any "/data" SampleRun.real_txt
           Sample.world Sample.downloads "d.csv" _ eq_refl Hfile).
Defined.

Lemma other_entries_untouched_witness :
  exists fs',
    run_source (archive_folder Sample.re_any "/data" SampleRun.real_txt
                  Sample.world) = Some fs' /\
    fs' !! "old" = Sample.downloads !! "old".
Proof.
  assert (Hdir : is_file (Sample.downloads !! "old") = false)
    by (vm_compute; reflexivity).
  exact (other_entries_untouched Sample.re_any "/data" SampleRun.real_txt
           Sample.world Sample.downloads "old" eq_refl
           ltac:(discriminate) Hdir).
Defined.

Lemma remaining_files_are_skipped_or_failed_witness :
  exists fs' p s f,
    run_source (archive_folder Sample.re_any "/data" SampleRun.real_txt
                  Sample.world) = Some fs' /\
    run_counters (archive_folder Sample.re_any "/data" SampleRun.real_txt
                    Sample.world) = Some (p, s, f) /\
    regular_files fs' = (s + f)%nat /\
    regular_files Sample.downloads = (p + regular_files fs')%nat.
Proof.
  assert (Hmk : os_makedirs (w_timestamp Sample.world)
                  (w_makedirs_denied Sample.world) Sample.downloads
                = Ok (<[Sample.timestamp := Dir ∅]> Sample.downloads))
    by (vm_compute; reflexivity).
  exact (remaining_files_are_skipped_or_failed Sample.re_any "/data"
           SampleRun.real_txt Sample.world Sample.downloads _
           eq_refl eq_refl Hmk).
Defined.

Lemma second_run_finds_leftovers_witness :
  exists p1 s1 f1 p2 s2 f2,
    run_counters (archive_folder Sample.re_any "/data" SampleRun.real_txt
                    Sample.world) = Some (p1, s1, f1) /\
    run_counters
      (archive_folder Sample.re_any "/data" SampleRun.real_all
         (world_after Sample.world
            (archive_folder Sample.re_any "/data" SampleRun.real_txt
               Sample.world))) = Some (p2, s2, f2) /\
    (p2 + s2 + f2 = s1 + f1)%nat.
Proof.
  assert (Hmk : os_makedirs (w_timestamp Sample.world)
                  (w_makedirs_denied Sample.world) Sample.downloads
                = Ok (<[Sample.timestamp := Dir ∅]> Sample.downloads))
    by (vm_compute; reflexivity).
  exact (second_run_finds_leftovers Sample.re_any "/data"
           SampleRun.real_txt SampleRun.real_all Sample.world
           Sample.downloads _ eq_refl eq_refl Hmk).
Defined.

Lemma counters_match_audit_records_witness :
  exists p s f,
    run_counters (archive_folder Sample.re_any "/data" SampleRun.real_txt
                    Sample.world) = Some (p, s, f) /\
    count_action FILTER_CHECK
      (run_audit (archive_folder Sample.re_any "/data" SampleRun.real_txt
                    Sample.world)) = s.
Proof.
  assert (Hmk : os_makedirs (w_timestamp Sample.world)
                  (w_makedirs_denied Sample.world) Sample.downloads
                = Ok (<[Sample.timestamp := Dir ∅]> Sample.downloads))
    by (vm_compute; reflexivity).
  destruct (counters_match_audit_records Sample.re_any "/data"
              SampleRun.real_txt Sample.world Sample.downloads _
              eq_refl eq_refl Hmk) as (p & s & f & Hrun & _ & _ & Hskip & _).
  exists p, s, f. split; [exact Hrun | exact Hskip].
Defined.

Lemma accepted_files_all_archived_witness :
  exists fs',
    run_counters (archive_folder Sample.re_any "/in" SampleRun.real_all
                    SampleRun.inbox_world)
    = Some (regular_files SampleRun.inbox, 0, 0)%nat /\
    run_success (archive_folder Sample.re_any "/in" SampleRun.real_all
                   SampleRun.inbox_world) = true /\
    run_source (archive_folder Sample.re_any "/in" SampleRun.real_all
                  SampleRun.inbox_world) = Some fs' /\
    regular_files fs' = 0%nat.
Proof.
  assert (Hmk : os_makedirs (w_timestamp SampleRun.inbox_world)
                  (w_makedirs_denied SampleRun.inbox_world) SampleRun.inbox
                = Ok (<[Sample.timestamp := Dir ∅]> SampleRun.inbox))
    by (vm_compute; reflexivity).
  apply (accepted_files_all_archived Sample.re_any "/in" SampleRun.real_all
           SampleRun.inbox_world SampleRun.inbox _ eq_refl eq_refl Hmk).
  intros name info Hfile. apply elem_of_map_to_list in Hfile.
  assert (Hlist : map_to_list SampleRun.inbox
                  = [("a.txt", File (Sample.info 1 Sample.ten_days));
                     ("b.txt", File (Sample.info 2 Sample.ten_days))])
    by (vm_compute; reflexivity).
  rewrite Hlist in Hfile.
  apply elem_of_cons in Hfile as [[= -> ->]|Hfile];
    [split; vm_compute; reflexivity|].
  apply elem_of_cons in Hfile as [[= -> ->]|Hfile];
    [split; vm_compute; reflexivity|].
  now apply elem_of_nil in Hfile.
Defined.

Lemma main_exit_code_witness :
  fst (main Sample.re_any SampleRun.args_one None SampleRun.worlds) = 1 /\
  fst (main Sample.re_any SampleRun.args_one None (fun _ => Sample.world)) = 0.
Proof.
  split; [vm_compute; reflexivity|].
  apply (proj1 (main_exit_code Sample.re_any SampleRun.args_one None
                  (fun _ => Sample.world))).
  split; [discriminate|].
  constructor; [vm_compute; reflexivity|constructor].
Defined.

Lemma strict_mode_stops_at_first_failure_witness :
  fst (main Sample.re_any (SampleRun.args true) None SampleRun.worlds) = 1 /\
  length (main_audit
            (snd (main Sample.re_any (SampleRun.args true) None
                    SampleRun.worlds))) = 2%nat /\
  length (main_audit
            (snd (main Sample.re_any (SampleRun.args false) None
                    SampleRun.worlds))) = 10%nat.
Proof.
  destruct (strict_mode_stops_at_first_failure Sample.re_any
              (SampleRun.args true) None SampleRun.worlds [] "/gone" ["/data"]
              eq_refl (Forall_nil_2 _) eq_refl) as [Hstrict _].
  destruct (Hstrict eq_refl) as [Hexit Haudit].
  split; [exact Hexit|]. split; [rewrite Haudit|]; vm_compute; reflexivity.
Defined.

(** ** Size bounds, patterns that do not compile, filters that reject all *)

Section MoreBounds.

Variable re_search : string -> string -> Result bool.

(** X18. The two size limits are inclusive: with no other constraint, a
    file whose metadata is read ([os.stat] succeeds and its two times
    convert to datetimes) is accepted exactly when its size lies between
    [min_size] and [size_limit], both included. An empty [size_limit]
    string is the limit 0: it rejects every file that is not empty. *)
Theorem size_limits_inclusive filepath info fl stat m c upper lower nmax nmin :
  f_stat info = Ok stat ->
  fromtimestamp (st_mtime stat) = Ok m ->
  fromtimestamp (st_ctime stat) = Ok c ->
  extensions fl = None -> modified_days fl = None -> created_days fl = None ->
  regex fl = None -> exclude fl = None ->
  size_limit fl = Some upper -> min_size fl = Some lower ->
  parse_size upper = Ok nmax -> parse_size lower = Ok nmin ->
  (fst (should_archive re_search filepath info fl) = true <->
   nmin <= st_size stat <= nmax) /\
  (upper = "" -> st_size stat > 0 ->
   fst (should_archive re_search filepath info fl) = false).
Proof.
  intros Hstat Hm Hc Hext Hmod Hcre Hre Hexc Hmax Hmin Hpmax Hpmin.
  assert (Hiff : fst (should_archive re_search filepath info fl) = true <->
                 nmin <= st_size stat <= nmax).
  { unfold should_archive.
    rewrite (should_archive_checks_chain _ _ _ _ _ _ _ Hstat Hm Hc).
    unfold evaluation_order. cbn [first_failure check_alone].
    rewrite Hext, Hmod, Hcre, Hre, Hexc, Hmax, Hmin, Hpmax, Hpmin.
    destruct (bool_decide_reflect (st_size stat > nmax));
      [cbn; split; [discriminate|lia]|].
    destruct (bool_decide_reflect (st_size stat < nmin));
      [cbn; split; [discriminate|lia]|].
    cbn. split; [lia|reflexivity]. }
  split; [exact Hiff|]. intros -> Hpos.
  assert (nmax = 0) as -> by (cbn in Hpmax; congruence).
  destruct (fst (should_archive re_search filepath info fl)); [|reflexivity].
  destruct Hiff as [Hiff _]. specialize (Hiff eq_refl). lia.
Qed.

(** X19. A regular expression that does not compile rejects every file:
    [re.search] raises inside [should_archive], which returns [False]. *)
Theorem invalid_regex_rejects_all filepath info fl pattern e :
  regex fl = Some pattern ->
  (forall text, re_search pattern text = Raise e) ->
  fst (should_archive re_search filepath info fl) = false.
Proof.
  intros Hre Hbad.
  apply (should_archive_rejects_when re_search ByNamePattern);
    [unfold evaluation_order; set_solver|].
  intros stat _. cbn [check_alone]. rewrite Hre, Hbad. discriminate.
Qed.

Lemma archive_loop_all_rejected source_path archive_name config names s :
  dry_run config = false ->
  (forall name info,
      fst (should_archive re_search (os_path_join source_path name) info
             (filters config)) = false) ->
  let s' := archive_loop re_search source_path archive_name config names s in
  processed s' = processed s /\ failed s' = failed s /\
  skipped s' = (skipped s + files_in (folder s) names)%nat /\
  folder s' = folder s.
Proof.
  intros Hdry Hrej. cbv zeta. revert s.
  induction names as [|k names IH]; intros s.
  - unfold files_in. cbn. repeat split; lia.
  - cbn [archive_loop].
    destruct (IH (process_entry re_search source_path archive_name config k s))
      as (Hp & Hf & Hs & Hfs).
    rewrite Hp, Hf, Hs, Hfs. clear IH Hp Hf Hs Hfs.
    unfold files_in, process_entry. cbn [List.filter]. rewrite Hdry.
    destruct (folder s !! k) as [[info| |]|]; cbn [is_file length];
      try (repeat split; lia).
    specialize (Hrej k info).
    destruct (should_archive _ _ _ _) as [[] events]; cbn [fst] in Hrej;
      [discriminate|].
    cbn [processed skipped failed folder length]. repeat split; lia.
Qed.

(** X20. When the filters accept no file, a real run moves nothing: every
    regular file is counted as skipped, the folder is left as [os.makedirs]
    left it, and the run is reported as a success. *)
Theorem rejecting_filters_move_nothing source_path config w fs fs1 :
  dry_run config = false ->
  w_source w = Some fs ->
  os_makedirs (w_timestamp w) (w_makedirs_denied w) fs = Ok fs1 ->
  (forall name info,
      fst (should_archive re_search (os_path_join source_path name) info
             (filters config)) = false) ->
  run_counters (archive_folder re_search source_path config w)
  = Some (0, regular_files fs, 0)%nat /\
  run_source (archive_folder re_search source_path config w) = Some fs1 /\
  run_success (archive_folder re_search source_path config w) = true.
Proof.
  intros Hdry Hsrc Hmk Hrej. unfold archive_folder. rewrite Hsrc, Hmk.
  cbn [run_counters run_source run_success].
  destruct (archive_loop_all_rejected source_path (w_timestamp w) config
              (os_listdir fs1)
              (initial_state source_path
                 (os_path_join source_path (w_timestamp w)) fs1) Hdry Hrej)
    as (Hp & Hf & Hs & Hfs).
  rewrite Hp, Hf, Hs, Hfs. cbn [initial_state processed skipped failed folder].
  destruct (os_makedirs_adds_directory _ _ _ _ Hmk) as [_ Hfiles].
  rewrite files_in_listdir, Hfiles. repeat split.
Qed.

End MoreBounds.

Lemma size_limits_inclusive_witness :
  fst (should_archive Sample.re_any "/data/a.bin"
         (Sample.info 1024 Sample.ten_days)
         {| extensions := None; size_limit := Some "1KB";
            min_size := Some "1kb"; modified_days := None;
            created_days := None; regex := None; exclude := None |}) = true.
Proof.
  match goal with |- fst (should_archive _ _ _ ?fl) = _ => set (chosen := fl) end.
  apply (proj1 (size_limits_inclusive Sample.re_any "/data/a.bin"
                  (Sample.info 1024 Sample.ten_days) chosen
                  (Sample.stat 1024 Sample.ten_days)
                  (Sample.now - Sample.ten_days) (Sample.now - Sample.ten_days)
                  "1KB" "1kb" 1024 1024
                  eq_refl eq_refl eq_refl eq_refl eq_refl eq_refl eq_refl
                  eq_refl eq_refl eq_refl eq_refl eq_refl)).
  cbn [Sample.stat posix_stat st_size]. lia.
Defined.

Lemma invalid_regex_rejects_all_witness :
  fst (should_archive (fun _ _ => Raise ReError) "/data/a.txt"
         (Sample.info 1 Sample.ten_days)
         {| extensions := None; size_limit := None; min_size := None;
            modified_days := None; created_days := None;
            regex := Some "("; exclude := None |}) = false.
Proof.
  match goal with |- fst (should_archive _ _ _ ?fl) = _ => set (chosen := fl) end.
  apply (invalid_regex_rejects_all (fun _ _ => Raise ReError) "/data/a.txt"
           (Sample.info 1 Sample.ten_days) chosen "(" ReError eq_refl).
  intros text. reflexivity.
Defined.

Lemma rejecting_filters_move_nothing_witness :
  run_counters
    (archive_folder (fun _ _ => Raise ReError) "/in"
       {| dry_run := false;
          filters := {| extensions := None; size_limit := None;
                        min_size := None; modified_days := None;
                        created_days := None; regex := Some "(";
                        exclude := None |} |}
       SampleRun.inbox_world)
  = Some (0, regular_files SampleRun.inbox, 0)%nat.
Proof.
  assert (Hmk : os_makedirs (w_timestamp SampleRun.inbox_world)
                  (w_makedirs_denied SampleRun.inbox_world) SampleRun.inbox
                = Ok (<[Sample.timestamp := Dir ∅]> SampleRun.inbox))
    by (vm_compute; reflexivity).
  match goal with
  | |- run_counters (archive_folder ?re ?path ?cfg ?w) = _ =>
      apply (rejecting_filters_move_nothing re path cfg w
               SampleRun.inbox _ eq_refl eq_refl Hmk)
  end.
  intros name info.
  apply (should_archive_rejects_when _ ByNamePattern).
  - unfold evaluation_order.
    do 5 apply list_elem_of_further. apply list_elem_of_here.
  - intros stat _. discriminate.
Defined.
